(** * Service Catalog Puppet: the launch workflow

    A shallow embedding of [servicecatalog_puppet/workflow/launch.py]
    (and of the CodeBuild sibling in [codebuild_runs.py]).

    Every task body ([run]) is a computation in a small monad [M] that
    threads the history of effects issued so far and may raise a Python
    exception.  Remote responses come from a [World]: a function of the
    history and of the call, so that the same call may answer differently
    at different times (a retry that succeeds, a stack read before and
    after an update).  Graph construction ([requires]) issues no remote
    call and is a pure function into [exn + _].

    The history records the client calls, the calls of the helpers of the
    aws module, [time.sleep], the writes of task outputs and the log lines
    the properties speak of (the warning of the stack status gate, the
    lines around a swallowed error); the [self.info] lines that only report
    progress have no effect on control flow and are left out. *)

From Stdlib Require Import String Ascii List Bool Arith NArith ZArith Lia.
From stdpp Require Import base option list gmap strings.
Import ListNotations.
Local Open Scope string_scope.
Local Open Scope list_scope.

(** ** Python strings *)

Module PyStr.

(** [needle in hay] *)
Fixpoint contains (needle hay : string) : bool :=
  String.prefix needle hay ||
  match hay with
  | EmptyString => false
  | String _ tl => contains needle tl
  end.

(** [skip] characters of a match are still to be dropped. *)
Fixpoint replace_from (old new : string) (skip : nat) (s : string) : string :=
  match s with
  | EmptyString => EmptyString
  | String c tl =>
      match skip with
      | S k => replace_from old new k tl
      | O =>
          if String.prefix old s
          then String.append new (replace_from old new (String.length old - 1) tl)
          else String c (replace_from old new 0 tl)
      end
  end.

(** Replacing the empty string puts [new] before every character and at the end. *)
Fixpoint interleave (new s : string) : string :=
  match s with
  | EmptyString => new
  | String c tl => String.append new (String c (interleave new tl))
  end.

(** [s.replace(old, new)]: every non-overlapping occurrence, left to right. *)
Definition replace (old new s : string) : string :=
  match old with
  | EmptyString => interleave new s
  | String _ _ => replace_from old new 0 s
  end.

(** [sep.join(xs)] *)
Fixpoint join (sep : string) (xs : list string) : string :=
  match xs with
  | [] => EmptyString
  | [x] => x
  | x :: tl => String.append x (String.append sep (join sep tl))
  end.

(** [str(b)] for a bool *)
Definition of_bool (b : bool) : string := if b then "True" else "False".

(** Truthiness of a string: [if s:] *)
Definition truthy (s : string) : bool :=
  match s with EmptyString => false | String _ _ => true end.

End PyStr.

(** A value that is a string or Python's [None]/[False]. *)
Abbreviation pyval := (option string).

Definition truthy (v : pyval) : bool :=
  match v with Some s => PyStr.truthy s | None => false end.

(** [f"{v}"] of an id that may still be [False]. *)
Definition str_of (v : pyval) : string :=
  match v with Some s => s | None => "False" end.

(** ** Constants *)

Module constants.
(** Modelled from the spec: [servicecatalog_puppet/constants.py] is not
    part of the sources at hand.  The section name is the key that
    [LaunchSectionTask.run] reads ("launches"); the dependency types are
    the ones the spec lists (launch, spoke-local-portfolio, assertion,
    code-build-run, lambda-invocation); statuses, execution modes and
    effects are the values of the spec's data model. *)
Definition LAUNCHES := "launches".
Definition LAUNCH := "launch".
Definition SPOKE_LOCAL_PORTFOLIO := "spoke-local-portfolio".
Definition ASSERTION := "assertion".
Definition CODE_BUILD_RUN := "code-build-run".
Definition LAMBDA_INVOCATION := "lambda-invocation".
Definition PROVISIONED := "provisioned".
Definition TERMINATED := "terminated".
Definition EXECUTION_MODE_HUB := "hub".
Definition EXECUTION_MODE_SPOKE := "spoke".
Definition CHANGE := "CHANGE".
Definition NO_CHANGE := "NO_CHANGE".
Definition EXECUTION_SPOKE_CODEBUILD_PROJECT_NAME := "servicecatalog-puppet-deploy-in-spoke".
End constants.

(** ** Exceptions *)

Inductive exn : Type :=
| ClientError (msg : string)        (* botocore ClientError; [str(ex)] is [msg] *)
| ParameterNotFound (msg : string)  (* ssm.exceptions.ParameterNotFound, a ClientError *)
| Exception_ (msg : string)         (* [raise Exception(msg)] in the task bodies *)
| OtherError (msg : string)         (* TypeError, AttributeError, ... *)
| UnknownParameterException (task_family param_name : string)   (* luigi.parameter *)
| MissingParameterException (task_family param_name : string).  (* luigi.parameter *)

Definition is_client_error (e : exn) : bool :=
  match e with ClientError _ | ParameterNotFound _ => true | _ => false end.

(** [str(ex)]; for the two exceptions of luigi, without the description of
    the call that luigi puts between the family and the colon. *)
Definition str_exn (e : exn) : string :=
  match e with
  | ClientError m | ParameterNotFound m | Exception_ m | OtherError m => m
  | UnknownParameterException task_family param_name =>
      task_family +:+ ": unknown parameter " +:+ param_name
  | MissingParameterException task_family param_name =>
      task_family +:+ ": requires the '" +:+ param_name +:+ "' parameter to be set"
  end.

(** ** Data exchanged with the clients *)

Record LaunchPathSummary := {
  lps_Id : pyval;
  lps_Name : pyval }.

Record ArtifactParameter := {
  ParameterKey : string;
  DefaultValue : pyval }.

Record ProvisionedProduct := {
  pp_Name : string;
  pp_Status : string;
  pp_Id : string;
  pp_ProvisioningArtifactId : string }.

Record StackOutput := {
  OutputKey : string;
  OutputValue : string }.

Record StackDetails := {
  StackStatus : pyval;
  Outputs : list StackOutput }.

Record ArtifactDetail := {
  ad_Name : string;
  ad_Active : bool }.

Record EnvVar := {
  ev_name : string;
  ev_value : string;
  ev_type : string }.

Record BuildResponse := {
  build_id : string;
  build_status : string }.

Record SsmParamOutput := {
  param_name : string;
  stack_output : string;
  param_type : pyval }.

(** Arguments shared by [aws.provision_product], [aws.update_provisioned_product]
    and [aws.provision_product_with_plan]. *)
Record ProvisionArgs := {
  pa_launch_name : string;
  pa_account_id : string;
  pa_region : string;
  pa_product_id : string;
  pa_version_id : string;
  pa_puppet_account_id : string;
  pa_path : string;                (* path_name, or path_id for a plan *)
  pa_params : gmap string pyval;
  pa_version : string }.

(** The [active] column of a dry-run result: "N/A", or the flag of the
    live version. *)
Inductive Active := NotApplicable | IsActive (b : bool).

Record DiffResult := {
  current_version : string;
  new_version : string;
  effect : string;
  current_status : string;
  active : Active;
  notes : string }.

(** [params_for_results_display()]: the identity of the unit of work.  The
    cache invalidator and the parameter dictionaries a task copies into its
    output unchanged are not carried. *)
Record TaskOutput := {
  to_puppet_account_id : string;
  to_launch_name : string;
  to_account_id : string;
  to_region : string }.

Inductive Output : Type :=
| OutLaunchPath (s : LaunchPathSummary)
| OutArtifactParameters (l : list (option ArtifactParameter))
| OutProvision (o : TaskOutput)
| OutDiff (d : DiffResult)
| OutTerminate (o : TaskOutput) (provisioned_product_id : pyval)
| OutSpokeDeploy (account_id : string) (response : BuildResponse)
| OutCodeBuildRun (o : TaskOutput).

Inductive level := INFO | WARNING.

(** ** Effects *)

Inductive Call : Type :=
(* servicecatalog *)
| ListLaunchPaths (product_id : string)
| DescribeProvisioningParameters (product_id version_id path_name : string)
| ScanProvisionedProductsSinglePage
| DescribeProvisioningArtifact (artifact_id product_id : string)
| TerminateProvisionedProduct (provisioned_product_id : string)
(* the helpers of the aws module *)
| GetParametersForStack (stack_name : string)
| GetStackOutputFor (stack_name : string)
| GetPathForProduct (product_id portfolio : string)
| ProvisionProductWithPlan (a : ProvisionArgs) (should_use_sns : bool)
| UpdateProvisionedProduct (a : ProvisionArgs) (execution : string)
| ProvisionProduct (a : ProvisionArgs) (should_use_sns : bool) (execution : string)
(* ssm *)
| PutParameterAndWait (name value type : string) (overwrite : bool)
| DeleteParameter (name : string)
| GetParameter (name : string)
(* s3 *)
| PutObject (body bucket key : string)
| GeneratePresignedUrl (method bucket key : string) (expires_in : N)
(* codebuild *)
| BatchGetProjects (names : list string)
| StartBuild (project : string) (env : list EnvVar)
| StartBuildAndWaitForCompletion (project : string) (env : list EnvVar)
(* local effects *)
| Sleep (seconds : nat)
| Log (l : level) (msg : string)
| WriteOutput (o : Output).

Inductive Response : Type :=
| RUnit
| RStr (s : string)
| RLaunchPaths (summaries : option (list LaunchPathSummary))
| RArtifactParameters (l : list ArtifactParameter)
| RProvisionedProducts (l : list ProvisionedProduct)
| RArtifactDetail (d : ArtifactDetail)
| RParams (m : gmap string pyval)
| RStack (s : StackDetails)
| RProjects (l : list (string * list EnvVar))
| RBuild (b : BuildResponse).

(** The calls that change something outside the process. *)
Definition mutating (c : Call) : bool :=
  match c with
  | TerminateProvisionedProduct _
  | ProvisionProductWithPlan _ _
  | UpdateProvisionedProduct _ _
  | ProvisionProduct _ _ _
  | PutParameterAndWait _ _ _ _
  | DeleteParameter _
  | PutObject _ _ _
  | StartBuild _ _
  | StartBuildAndWaitForCompletion _ _ => true
  | _ => false
  end.

(** The remote side: what a call answers after a given history. *)
Definition World := list Call -> Call -> exn + Response.

(** ** The task monad *)

Definition M (A : Type) : Type := World -> list Call -> list Call * (exn + A).

#[export] Instance M_ret : MRet M := fun A a _ h => (h, inr a).

#[export] Instance M_bind : MBind M := fun A B f m w h =>
  match m w h with
  | (h', inr a) => f a w h'
  | (h', inl e) => (h', inl e)
  end.

Definition raise {A} (e : exn) : M A := fun _ h => (h, inl e).

(** A remote call: recorded, then answered by the world. *)
Definition perform (c : Call) : M Response := fun w h => (h ++ [c], w h c).

(** A local effect: recorded, never fails. *)
Definition emit (c : Call) : M unit := fun _ h => (h ++ [c], inr tt).

(** [try: m except: handler] *)
Definition try_catch {A} (m : M A) (handler : exn -> M A) : M A := fun w h =>
  match m w h with
  | (h', inr a) => (h', inr a)
  | (h', inl e) => handler e w h'
  end.

(** [for x in xs: body x] *)
Fixpoint for_each {A} (xs : list A) (body : A -> M unit) : M unit :=
  match xs with
  | [] => mret tt
  | x :: tl => _ ← body x; for_each tl body
  end.

Definition bad_response {A} : M A := raise (OtherError "unexpected response shape").

Definition write_output (o : Output) : M unit := emit (WriteOutput o).
Definition info (msg : string) : M unit := emit (Log INFO msg).
Definition warning (msg : string) : M unit := emit (Log WARNING msg).

(** [spec P Q m]: whatever the world and the history, [m] only appends
    events that satisfy [P], and a value it returns satisfies [Q]. *)
Definition spec {A} (P : Call -> Prop) (Q : A -> Prop) (m : M A) : Prop :=
  forall w h, exists new,
    fst (m w h) = h ++ new
    /\ Forall P new
    /\ forall a, snd (m w h) = inr a -> Q a.

(** [emits P m]: [m] only appends events that satisfy [P]. *)
Definition emits {A} (P : Call -> Prop) (m : M A) : Prop := spec P (fun _ => True) m.

(** Run a task body from an empty history. *)
Definition exec {A} (m : M A) (w : World) : list Call * (exn + A) := m w [].

Definition calls {A} (r : list Call * (exn + A)) : list Call := fst r.
Definition outcome {A} (r : list Call * (exn + A)) : exn + A := snd r.

(** ** ListLaunchPathsTask *)

Module ListLaunchPathsTask.

Record t := {
  puppet_account_id : string;
  portfolio : string;
  product_id : string;
  account_id : string;
  region : string }.

Definition list_launch_paths (product_id : string) : M (option (list LaunchPathSummary)) :=
  r ← perform (ListLaunchPaths product_id);
  match r with RLaunchPaths o => mret o | _ => bad_response end.

(** The summaries that reach [write_output]. *)
Definition selected (self : t) (l : list LaunchPathSummary) : list LaunchPathSummary :=
  if Nat.eqb (length l) 1 then l
  else filter (fun s => lps_Name s = Some (portfolio self)) l.

Definition not_found : exn := Exception_ "Could not find a launch path".

Definition run (self : t) : M unit :=
  response ← list_launch_paths (product_id self);
  match response with
  | None => raise (OtherError "object of type 'NoneType' has no len()")
  | Some summaries =>
      _ ← (if Nat.eqb (length summaries) 1
           then match summaries with
                | s :: _ => write_output (OutLaunchPath s)
                | [] => mret tt
                end
           else for_each summaries (fun launch_path_summary =>
                  if decide (lps_Name launch_path_summary = Some (portfolio self))
                  then write_output (OutLaunchPath launch_path_summary)
                  else mret tt));
      raise not_found
  end.

End ListLaunchPathsTask.

(** ** DoDescribeProvisioningParameters *)

Module DoDescribeProvisioningParameters.

Record t := {
  puppet_account_id : string;
  region : string;
  product_id : string;
  version_id : string;
  portfolio : string }.

Definition describe_call (self : t) : Call :=
  DescribeProvisioningParameters (product_id self) (version_id self) (portfolio self).

Definition describe_provisioning_parameters (self : t) : M (list ArtifactParameter) :=
  r ← perform (describe_call self);
  match r with RArtifactParameters l => mret l | _ => bad_response end.

(** The error the loop retries on. *)
Definition transient (e : exn) : bool :=
  is_client_error e && PyStr.contains "S3 error: Access Denied" (str_exn e).

(** [while retries > 0: ...]; the result is [provisioning_artifact_parameters],
    [None] while no attempt has succeeded. *)
Fixpoint retry_loop (self : t) (retries : nat) : M (option (list ArtifactParameter)) :=
  match retries with
  | O => mret None
  | S retries' =>
      try_catch
        (l ← describe_provisioning_parameters self; mret (Some l))
        (fun ex =>
           if is_client_error ex then
             if PyStr.contains "S3 error: Access Denied" (str_exn ex)
             then _ ← info "Swallowing S3 error: Access Denied";
                  _ ← emit (Sleep 3);
                  retry_loop self retries'
             else raise ex
           else raise ex)
  end.

(** What a swallowed attempt leaves in the history after the call. *)
Definition swallowed : list Call :=
  [Log INFO "Swallowing S3 error: Access Denied"; Sleep 3].

Definition is_describe (c : Call) : bool :=
  match c with DescribeProvisioningParameters _ _ _ => true | _ => false end.

(** The number of describe-provisioning-parameters calls in a history. *)
Definition attempts (h : list Call) : nat := length (List.filter is_describe h).

Definition run (self : t) : M unit :=
  provisioning_artifact_parameters ← retry_loop self 3;
  write_output
    (OutArtifactParameters
       match provisioning_artifact_parameters with
       | Some l => map Some l
       | None => [None]
       end).

End DoDescribeProvisioningParameters.

(** ** The helpers of the aws module *)

Module aws.

Definition get_parameters_for_stack (stack_name : string) : M (gmap string pyval) :=
  r ← perform (GetParametersForStack stack_name);
  match r with RParams m => mret m | _ => bad_response end.

Definition get_stack_output_for (stack_name : string) : M StackDetails :=
  r ← perform (GetStackOutputFor stack_name);
  match r with RStack s => mret s | _ => bad_response end.

Definition get_path_for_product (product_id portfolio : string) : M string :=
  r ← perform (GetPathForProduct product_id portfolio);
  match r with RStr s => mret s | _ => bad_response end.

Definition provision_product_with_plan (a : ProvisionArgs) (should_use_sns : bool) : M string :=
  r ← perform (ProvisionProductWithPlan a should_use_sns);
  match r with RStr s => mret s | _ => bad_response end.

Definition update_provisioned_product (a : ProvisionArgs) (execution : string) : M string :=
  r ← perform (UpdateProvisionedProduct a execution);
  match r with RStr s => mret s | _ => bad_response end.

Definition provision_product (a : ProvisionArgs) (should_use_sns : bool) (execution : string)
  : M string :=
  r ← perform (ProvisionProduct a should_use_sns execution);
  match r with RStr s => mret s | _ => bad_response end.

Definition scan_provisioned_products_single_page : M (list ProvisionedProduct) :=
  r ← perform ScanProvisionedProductsSinglePage;
  match r with RProvisionedProducts l => mret l | _ => bad_response end.

Definition available_like (status : string) : bool :=
  bool_decide (status ∈ ["AVAILABLE"; "TAINTED"]).

Definition named (name : string) (l : list ProvisionedProduct) : option ProvisionedProduct :=
  List.find (fun r => bool_decide (pp_Name r = name)) l.

(** Modelled from the spec: the body of [aws.terminate_if_status_is_not_available]
    is not part of the sources at hand.  Spec 4.3, step 1: if a prior
    provisioned resource exists but is not in an available-like status,
    it is terminated first; the live state handed back is
    (provisioned resource id, provisioning artifact id, status), the two
    ids being [False] when no usable resource is left. *)
Definition terminate_if_status_is_not_available
    (launch_name product_id account_id region : string) : M (pyval * pyval * pyval) :=
  products ← scan_provisioned_products_single_page;
  match named launch_name products with
  | None => mret (None, None, None)
  | Some r =>
      if available_like (pp_Status r)
      then mret (Some (pp_Id r), Some (pp_ProvisioningArtifactId r), Some (pp_Status r))
      else _ ← perform (TerminateProvisionedProduct (pp_Id r));
           mret (None, None, Some (pp_Status r))
  end.

(** Modelled from the spec: the body of [aws.ensure_is_terminated] is not
    part of the sources at hand.  Spec 4.3: ensure-terminated is
    idempotent, an already-terminated resource is a success and is not
    terminated again.  It hands back (provisioned resource id,
    provisioning artifact id). *)
Definition ensure_is_terminated (launch_name product_id : string) : M (pyval * pyval) :=
  products ← scan_provisioned_products_single_page;
  match named launch_name products with
  | None => mret (None, None)
  | Some r =>
      if bool_decide (pp_Status r = "TERMINATED")
      then mret (Some (pp_Id r), None)
      else _ ← perform (TerminateProvisionedProduct (pp_Id r));
           mret (Some (pp_Id r), None)
  end.

End aws.

(** ** ProvisionProductTask *)

Module ProvisionProductTask.

Record t := {
  launch_name : string;
  puppet_account_id : string;
  region : string;
  account_id : string;
  portfolio : string;
  product : string;
  version : string;
  ssm_param_outputs : list SsmParamOutput;
  execution : string;
  (* inherited from the task base class *)
  uid : string;
  should_use_product_plans : bool;
  should_use_sns : bool }.

(** What the dependencies of the task hand to [run]:
    [load_from_input("details")], [get_parameter_values()] and the
    output of ProvisioningArtifactParametersTask. *)
Record inputs := {
  product_id : string;
  version_id : string;
  all_params : gmap string pyval;
  provisioning_artifact_parameters : list ArtifactParameter }.

(** The local variables of [run] when it reaches [if need_to_provision:]. *)
Record locals := {
  provisioned_product_id : pyval;
  provisioning_artifact_id : pyval;
  provisioned_product_status : pyval;
  resolved : gmap string pyval;
  need_to_provision : bool }.

Definition params_for_results_display (self : t) : TaskOutput :=
  {| to_puppet_account_id := puppet_account_id self;
     to_launch_name := launch_name self;
     to_account_id := account_id self;
     to_region := region self |}.

(** [f"SC-{self.account_id}-{provisioned_product_id}"] *)
Definition stack_name (self : t) (provisioned_product_id : pyval) : string :=
  "SC-" +:+ account_id self +:+ "-" +:+ str_of provisioned_product_id.

(** [all_params.get(param_name, p.get("DefaultValue"))] *)
Definition resolve (all_params : gmap string pyval) (p : ArtifactParameter) : pyval :=
  match all_params !! ParameterKey p with
  | Some v => v
  | None => DefaultValue p
  end.

(** The loop that fills [params_to_use]. *)
Definition params_to_use (provisioning_artifact_parameters : list ArtifactParameter)
    (all_params : gmap string pyval) : gmap string pyval :=
  foldl (fun acc p => <[ParameterKey p := resolve all_params p]> acc)
        ∅ provisioning_artifact_parameters.

Definition healthy : list string :=
  ["UPDATE_COMPLETE"; "CREATE_COMPLETE"; "UPDATE_ROLLBACK_COMPLETE"].

(** [stack_status in [...]]; a missing status is in no list. *)
Definition is_healthy (stack_status : pyval) : bool :=
  match stack_status with
  | Some s => bool_decide (s ∈ healthy)
  | None => false
  end.

Definition str_status (v : pyval) : string :=
  match v with Some s => s | None => "None" end.

Definition provision_args (self : t) (i : inputs) (path : string)
    (params : gmap string pyval) : ProvisionArgs :=
  {| pa_launch_name := launch_name self;
     pa_account_id := account_id self;
     pa_region := region self;
     pa_product_id := product_id i;
     pa_version_id := version_id i;
     pa_puppet_account_id := puppet_account_id self;
     pa_path := path;
     pa_params := params;
     pa_version := version self |}.

(** From the pre-check down to the TAINTED override. *)
Definition classify (self : t) (i : inputs) : M locals :=
  '(provisioned_product_id, provisioning_artifact_id, provisioned_product_status) ←
    aws.terminate_if_status_is_not_available
      (launch_name self) (product_id i) (account_id self) (region self);
  let params_to_use :=
    params_to_use (provisioning_artifact_parameters i) (all_params i) in
  need_to_provision ←
    (if decide (provisioning_artifact_id = Some (version_id i)) then
       if truthy provisioned_product_id then
         provisioned_parameters ←
           aws.get_parameters_for_stack (stack_name self provisioned_product_id);
         if decide (provisioned_parameters = params_to_use)
         then mret false
         else mret true
       else mret true
     else mret true);
  let need_to_provision :=
    if decide (provisioned_product_status = Some "TAINTED") then true
    else need_to_provision in
  mret {| provisioned_product_id := provisioned_product_id;
          provisioning_artifact_id := provisioning_artifact_id;
          provisioned_product_status := provisioned_product_status;
          resolved := params_to_use;
          need_to_provision := need_to_provision |}.

Definition unhealthy_error (self : t) (stack_status : pyval) : exn :=
  Exception_ ("[" +:+ uid self +:+ "] current cfn stack_status is "
              +:+ str_status stack_status).

Definition rollback_warning (self : t) (provisioned_product_id stack_status : pyval) : string :=
  "[" +:+ uid self +:+ "] " +:+ stack_name self provisioned_product_id
  +:+ " has a status of " +:+ str_status stack_status
  +:+ ".  This may need manual resolution.".

(** The stack status gate in front of an update. *)
Definition check_stack_status (self : t) (provisioned_product_id : pyval) : M unit :=
  stack ← aws.get_stack_output_for (stack_name self provisioned_product_id);
  let stack_status := StackStatus stack in
  if is_healthy stack_status
  then
    if decide (stack_status = Some "UPDATE_ROLLBACK_COMPLETE")
    then warning (rollback_warning self provisioned_product_id stack_status)
    else mret tt
  else raise (unhealthy_error self stack_status).

(** The update of a live resource: through a plan, or directly. *)
Definition update_existing (self : t) (i : inputs) (l : locals) : M pyval :=
  if should_use_product_plans self then
    path_id ← aws.get_path_for_product (product_id i) (portfolio self);
    id ← aws.provision_product_with_plan
           (provision_args self i path_id (resolved l)) (should_use_sns self);
    mret (Some id)
  else
    id ← aws.update_provisioned_product
           (provision_args self i (portfolio self) (resolved l)) (execution self);
    mret (Some id).

Definition provision_new (self : t) (i : inputs) (l : locals) : M pyval :=
  id ← aws.provision_product
         (provision_args self i (portfolio self) (resolved l))
         (should_use_sns self) (execution self);
  mret (Some id).

(** The body of [if need_to_provision:]; the result is the new
    [provisioned_product_id]. *)
Definition provision (self : t) (i : inputs) (l : locals) : M pyval :=
  _ ← (if truthy (provisioned_product_id l)
       then check_stack_status self (provisioned_product_id l)
       else mret tt);
  if truthy (provisioned_product_id l)
  then update_existing self i l
  else provision_new self i l.

Definition ssm_parameter_name (self : t) (b : SsmParamOutput) : string :=
  PyStr.replace "${AWS::AccountId}" (account_id self)
    (PyStr.replace "${AWS::Region}" (region self) (param_name b)).

Definition put_call (self : t) (b : SsmParamOutput) (output : StackOutput) : Call :=
  PutParameterAndWait (ssm_parameter_name self b) (OutputValue output)
    (default "String" (param_type b)) true.

(** [for output in stack_details.get("Outputs", []): ...], threading [found_match]. *)
Fixpoint put_matching (self : t) (b : SsmParamOutput) (outputs : list StackOutput)
    (found_match : bool) : M bool :=
  match outputs with
  | [] => mret found_match
  | output :: tl =>
      if decide (OutputKey output = stack_output b)
      then _ ← perform (put_call self b output);
           put_matching self b tl true
      else put_matching self b tl found_match
  end.

Definition no_match_error (self : t) (ssm_param_output : SsmParamOutput) : exn :=
  Exception_ ("[" +:+ uid self +:+ "] Could not find match for "
              +:+ stack_output ssm_param_output).

(** The body of [for ssm_param_output in self.ssm_param_outputs:]. *)
Definition write_ssm_param_output (self : t) (stack_details : StackDetails)
    (ssm_param_output : SsmParamOutput) : M unit :=
  put_matching self ssm_param_output (Outputs stack_details) false ≫=
  fun found_match : bool =>
    if found_match then mret tt
    else raise (no_match_error self ssm_param_output).

(** From [if self.execution == constants.EXECUTION_MODE_HUB:] to the end. *)
Definition publish (self : t) (provisioned_product_id : pyval) : M unit :=
  if decide (execution self = constants.EXECUTION_MODE_HUB) then
    stack_details ← aws.get_stack_output_for (stack_name self provisioned_product_id);
    _ ← for_each (ssm_param_outputs self) (write_ssm_param_output self stack_details);
    write_output (OutProvision (params_for_results_display self))
  else
    write_output (OutProvision (params_for_results_display self)).

Definition run (self : t) (i : inputs) : M unit :=
  l ← classify self i;
  provisioned_product_id ←
    (if need_to_provision l then provision self i l
     else mret (provisioned_product_id l));
  publish self provisioned_product_id.

(** The parameter map a provision, update or plan call carries. *)
Definition sent_params (c : Call) : option (gmap string pyval) :=
  match c with
  | ProvisionProductWithPlan a _
  | UpdateProvisionedProduct a _
  | ProvisionProduct a _ _ => Some (pa_params a)
  | _ => None
  end.

Definition is_put (c : Call) : bool :=
  match c with PutParameterAndWait _ _ _ _ => true | _ => false end.

(** Nothing but a parameter-store put changes anything. *)
Definition only_puts (c : Call) : Prop := mutating c = true -> is_put c = true.

(** A provision, update or plan call carries the map [m]. *)
Definition sends (m : gmap string pyval) (c : Call) : Prop :=
  forall m', sent_params c = Some m' -> m' = m.

(** The live state queried at the start of a run from an empty history
    matches the desired state: the pre-check hands back a live resource
    whose provisioning artifact is the desired version, in status
    [status], and the parameters of its stack are the resolved parameters. *)
Definition live_matches_desired (self : t) (i : inputs) (w : World) (status : pyval) : Prop :=
  exists h1 id,
    aws.terminate_if_status_is_not_available
      (launch_name self) (product_id i) (account_id self) (region self) w []
    = (h1, inr (id, Some (version_id i), status))
    /\ truthy id = true
    /\ w h1 (GetParametersForStack (stack_name self id))
       = inr (RParams (params_to_use (provisioning_artifact_parameters i) (all_params i))).

(** The run up to the publishing phase: the pre-check, the comparison
    and, when it is needed, the provisioning.  The result is the
    [provisioned_product_id] the publishing phase works with. *)
Definition before_publish (self : t) (i : inputs) : M pyval :=
  l ← classify self i;
  if need_to_provision l then provision self i l
  else mret (provisioned_product_id l).

(** [output.get("OutputKey") == ssm_param_output.get("stack_output")] *)
Definition matches (b : SsmParamOutput) (output : StackOutput) : bool :=
  bool_decide (OutputKey output = stack_output b).

(** The puts of one declared output: one per stack output of its key. *)
Definition puts_for (self : t) (stack_details : StackDetails) (b : SsmParamOutput)
  : list Call :=
  put_call self b <$> List.filter (matches b) (Outputs stack_details).

(** A parameter store that accepts every put. *)
Definition accepts_puts (w : World) : Prop :=
  forall h c, is_put c = true -> exists r, w h c = inr r.

End ProvisionProductTask.

(** ** ProvisionProductDryRunTask *)

Module ProvisionProductDryRunTask.

Import ProvisionProductTask.

(** One turn of [for r in response.get("ProvisionedProducts", []):] over
    (provisioned_product_id, provisioning_artifact_id, current_status). *)
Definition scan_step (self : t) (st : pyval * pyval * string) (r : ProvisionedProduct)
  : pyval * pyval * string :=
  let '(provisioned_product_id, provisioning_artifact_id, _) := st in
  if decide (pp_Name r = launch_name self) then
    if bool_decide (pp_Status r ∈ ["AVAILABLE"; "TAINTED"])
    then (Some (pp_Id r), Some (pp_ProvisioningArtifactId r), pp_Status r)
    else (provisioned_product_id, provisioning_artifact_id, pp_Status r)
  else st.

Definition live_state (self : t) (products : list ProvisionedProduct)
  : pyval * pyval * string :=
  foldl (scan_step self) (None, None, "NOT_PROVISIONED") products.

Definition get_current_version (provisioning_artifact_id product_id : string)
  : M ArtifactDetail :=
  r ← perform (DescribeProvisioningArtifact provisioning_artifact_id product_id);
  match r with RArtifactDetail d => mret d | _ => bad_response end.

Definition result (current_version new_version effect current_status : string)
    (active : Active) (notes : string) : DiffResult :=
  {| current_version := current_version;
     new_version := new_version;
     effect := effect;
     current_status := current_status;
     active := active;
     notes := notes |}.

Definition write_result (current_version new_version effect current_status : string)
    (active : Active) (notes : string) : M unit :=
  write_output
    (OutDiff (result current_version new_version effect current_status active notes)).

Definition run (self : t) (i : inputs) : M unit :=
  products ← aws.scan_provisioned_products_single_page;
  let '(provisioned_product_id, provisioning_artifact_id, current_status) :=
    live_state self products in
  match provisioning_artifact_id with
  | None =>
      write_result "-" (version self) constants.CHANGE "NOT_PROVISIONED"
        NotApplicable "New provisioning"
  | Some artifact_id =>
      current_version_details ← get_current_version artifact_id (product_id i);
      let params_to_use :=
        params_to_use (provisioning_artifact_parameters i) (all_params i) in
      if decide (artifact_id = version_id i) then
        if truthy provisioned_product_id then
          provisioned_parameters ←
            aws.get_parameters_for_stack (stack_name self provisioned_product_id);
          if decide (provisioned_parameters = params_to_use)
          then write_result (version self) (version self) constants.NO_CHANGE
                 current_status (IsActive (ad_Active current_version_details))
                 "Versions and params are the same"
          else write_result (version self) (version self) constants.CHANGE
                 current_status (IsActive (ad_Active current_version_details))
                 "Versions are the same but the params are different"
        else mret tt
      else
        let '(current_version, active) :=
          if PyStr.truthy artifact_id
          then (ad_Name current_version_details, ad_Active current_version_details)
          else (EmptyString, false) in
        write_result current_version (version self) constants.CHANGE
          current_status (IsActive active) "Version change"
  end.

End ProvisionProductDryRunTask.

(** ** DoTerminateProductTask *)

Module DoTerminateProductTask.

Record t := {
  launch_name : string;
  puppet_account_id : string;
  region : string;
  account_id : string;
  ssm_param_outputs : list SsmParamOutput }.

Definition params_for_results_display (self : t) : TaskOutput :=
  {| to_puppet_account_id := puppet_account_id self;
     to_launch_name := launch_name self;
     to_account_id := account_id self;
     to_region := region self |}.

Definition where_ (self : t) : string :=
  "[" +:+ launch_name self +:+ "] " +:+ account_id self +:+ ":" +:+ region self +:+ " :: ".

Definition deleting_msg (self : t) (param_name : string) : string :=
  where_ self +:+ "deleting SSM Param: " +:+ param_name.

Definition not_found_msg (self : t) (param_name : string) : string :=
  where_ self +:+ "SSM Param: " +:+ param_name +:+ " not found".

(** The body of [for ssm_param_output in self.ssm_param_outputs:]. *)
Definition delete_ssm_param_output (self : t) (ssm_param_output : SsmParamOutput) : M unit :=
  let param_name := param_name ssm_param_output in
  _ ← info (deleting_msg self param_name);
  try_catch
    (_ ← perform (DeleteParameter param_name);
     info (deleting_msg self param_name))
    (fun ex =>
       match ex with
       | ParameterNotFound _ => info (not_found_msg self param_name)
       | _ => raise ex
       end).

Definition run (self : t) (product_id : string) : M unit :=
  '(provisioned_product_id, provisioning_artifact_id) ←
    aws.ensure_is_terminated (launch_name self) product_id;
  _ ← for_each (ssm_param_outputs self) (delete_ssm_param_output self);
  write_output (OutTerminate (params_for_results_display self) provisioned_product_id).

End DoTerminateProductTask.

(** ** RunDeployInSpokeTask *)

Module RunDeployInSpokeTask.

Record t := {
  manifest_file_path : string;
  puppet_account_id : string;
  account_id : string;
  should_use_sns : bool }.

(** What [run] reads besides the clients: the configuration of the
    puppet account, the manifest produced by GenerateManifestWithIdsTask
    and the CODEBUILD_BUILD_NUMBER environment variable. *)
Record inputs := {
  home_region : string;
  regions : list string;
  should_use_eventbridge : bool;
  should_forward_failures_to_opscenter : bool;
  new_manifest : string;
  build_number : option string }.

Definition plaintext (name value : string) : EnvVar :=
  {| ev_name := name; ev_value := value; ev_type := "PLAINTEXT" |}.

Definition environment (self : t) (i : inputs) (version signed_url : string) : list EnvVar :=
  [ plaintext "VERSION" version;
    plaintext "MANIFEST_URL" signed_url;
    plaintext "PUPPET_ACCOUNT_ID" (puppet_account_id self);
    plaintext "HOME_REGION" (home_region i);
    plaintext "REGIONS" (PyStr.join "," (regions i));
    plaintext "SHOULD_COLLECT_CLOUDFORMATION_EVENTS" (PyStr.of_bool (should_use_sns self));
    plaintext "SHOULD_FORWARD_EVENTS_TO_EVENTBRIDGE" (PyStr.of_bool (should_use_eventbridge i));
    plaintext "SHOULD_FORWARD_FAILURES_TO_OPSCENTER"
      (PyStr.of_bool (should_forward_failures_to_opscenter i)) ].

Definition bucket (self : t) : string := "sc-puppet-spoke-deploy-" +:+ puppet_account_id self.
Definition key (i : inputs) : string := default "0" (build_number i) +:+ ".yaml".

Definition expect_str (c : Call) : M string :=
  r ← perform c;
  match r with RStr s => mret s | _ => bad_response end.

Definition start_build (project : string) (env : list EnvVar) : M BuildResponse :=
  r ← perform (StartBuild project env);
  match r with RBuild b => mret b | _ => bad_response end.

(** The lifetime of the signed URL, in seconds. *)
Definition expires_in : N := (60 * 60 * 24)%N.

(** The build statuses after which a build no longer changes. *)
Definition terminal (status : string) : bool :=
  bool_decide (status ∈ ["SUCCEEDED"; "FAILED"; "FAULT"; "STOPPED"; "TIMED_OUT"]).

Definition is_wait (c : Call) : bool :=
  match c with StartBuildAndWaitForCompletion _ _ => true | _ => false end.

Definition run (self : t) (i : inputs) : M unit :=
  _ ← perform (PutObject (new_manifest i) (bucket self) (key i));
  signed_url ← expect_str (GeneratePresignedUrl "get_object" (bucket self) (key i)
                             expires_in);
  version ← expect_str (GetParameter "service-catalog-puppet-version");
  response ← start_build constants.EXECUTION_SPOKE_CODEBUILD_PROJECT_NAME
               (environment self i version signed_url);
  write_output (OutSpokeDeploy (account_id self) response).

End RunDeployInSpokeTask.

(** ** DoExecuteCodeBuildRunTask (codebuild_runs.py) *)

Module DoExecuteCodeBuildRunTask.

Record t := {
  code_build_run_name : string;
  puppet_account_id : string;
  region : string;
  account_id : string;
  project_name : string }.

Definition params_for_results_display (self : t) : TaskOutput :=
  {| to_puppet_account_id := puppet_account_id self;
     to_launch_name := code_build_run_name self;
     to_account_id := account_id self;
     to_region := region self |}.

Definition batch_get_projects (names : list string) : M (list (string * list EnvVar)) :=
  r ← perform (BatchGetProjects names);
  match r with RProjects l => mret l | _ => bad_response end.

(** The PLAINTEXT variables of the project for which a value is provided. *)
Definition overrides (provided_parameters : gmap string pyval) (vars : list EnvVar)
  : list EnvVar :=
  flat_map (fun environment_variable =>
    if decide (ev_type environment_variable = "PLAINTEXT") then
      let n := ev_name environment_variable in
      match provided_parameters !! n with
      | Some (Some v) =>
          if PyStr.truthy v
          then [RunDeployInSpokeTask.plaintext n v]
          else []
      | _ => []
      end
    else []) vars.

Definition parameters_to_use (self : t) (provided_parameters : gmap string pyval)
    (projects : list (string * list EnvVar)) : list EnvVar :=
  flat_map (fun project =>
    if decide (fst project = project_name self)
    then overrides provided_parameters (snd project)
    else []) projects
  ++ [ RunDeployInSpokeTask.plaintext "TARGET_ACCOUNT_ID" (account_id self);
       RunDeployInSpokeTask.plaintext "TARGET_REGION" (region self) ].

Definition run (self : t) (provided_parameters : gmap string pyval) : M unit :=
  projects ← batch_get_projects [project_name self];
  _ ← perform (StartBuildAndWaitForCompletion (project_name self)
                 (parameters_to_use self provided_parameters projects));
  write_output (OutCodeBuildRun (params_for_results_display self)).

End DoExecuteCodeBuildRunTask.

(** ** Graph construction *)

(** [requires] runs before any task body: no client is at hand, only
    exceptions. *)
#[export] Instance exn_bind : MBind (sum exn) := fun A B f m =>
  match m with
  | inl e => inl e
  | inr a => f a
  end.

Record DependsOn := {
  dep_type : pyval;
  dep_affinity : pyval;
  dep_name : string }.

Record Launch := {
  l_status : pyval;
  l_execution : pyval;
  l_depends_on : list DependsOn }.

(** A value of a manifest: what JSON and YAML can hold. *)
#[local] Unset Elimination Schemes.
Inductive value : Type :=
| VNone
| VBool (b : bool)
| VInt (n : Z)
| VStr (s : string)
| VList (l : list value)
| VDict (d : list (string * value)).
#[local] Set Elimination Schemes.

(** The dict the manifest accessors hand out for one concrete
    (account, region) unit of a launch: the keyword arguments of the task
    to build, in the order of the dict. *)
Definition TaskParams := list (string * value).

(** The manifest: its launches section, and the per-region expansion that
    [get_tasks_for_launch_and_region] computes from it. *)
Record Manifest := {
  launches : gmap string Launch;
  get_tasks_for_launch_and_region : string -> string -> list TaskParams }.

Inductive Klass :=
| KProvisionProductTask
| KProvisionProductDryRunTask
| KTerminateProductTask
| KTerminateProductDryRunTask.

Inductive Task : Type :=
| LaunchForSpokeExecutionTask_ (launch_name : string)
| LaunchTask_ (launch_name : string)
| SpokeLocalPortfolioTask_ (spoke_local_portfolio_name : string)
| AssertionTask_ (assertion_name : string)
| CodeBuildRunTask_ (code_build_run_name : string)
| LambdaInvocationTask_ (lambda_invocation_name : string)
| LaunchForRegionTask_ (launch_name region : string)
| Provisioning_ (klass : Klass) (task : TaskParams).

(** *** Building a task

    The tasks are luigi tasks, and a task is built by calling its class
    with keyword arguments.  luigi ([Task.get_param_values]) takes the
    keyword arguments in the order given and raises
    UnknownParameterException at the first one that names no parameter of
    the class; it then raises MissingParameterException at the first
    parameter of the class, in the order of declaration, that has neither
    an argument nor a default.  No parameter is taken to have a value in
    the configuration of luigi. *)
Module luigi.

Record Parameter_ := {
  name : string;
  has_default : bool }.

(** [luigi.Parameter()] and [luigi.Parameter(default=...)] under [name]. *)
Definition required (name : string) : Parameter_ := {| name := name; has_default := false |}.
Definition optional (name : string) : Parameter_ := {| name := name; has_default := true |}.

Definition declares (params : list Parameter_) (param_name : string) : bool :=
  bool_decide (param_name ∈ name <$> params).

Definition missing (kwargs : list string) (p : Parameter_) : bool :=
  negb (has_default p) && negb (bool_decide (name p ∈ kwargs)).

(** [cls.get_param_values(params, (), kwargs)], over the names of the
    keyword arguments: the values are stored as they come. *)
Definition get_param_values (task_family : string) (params : list Parameter_)
    (kwargs : list string) : exn + unit :=
  match List.find (fun param_name => negb (declares params param_name)) kwargs with
  | Some param_name => inl (UnknownParameterException task_family param_name)
  | None =>
      match List.find (missing kwargs) params with
      | Some p => inl (MissingParameterException task_family (name p))
      | None => inr tt
      end
  end.

End luigi.

(** The parameters ProvisionProductTask declares (launch.py 261-282), after
    [manifest_file_path] of ProvisioningTask (launch.py 85).  The base
    classes of ProvisioningTask are not part of the sources at hand; every
    task built in launch.py is given parameters declared in launch.py
    only, and the base classes are taken to declare none. *)
Definition provision_parameters : list luigi.Parameter_ :=
  [ luigi.required "manifest_file_path";
    luigi.required "launch_name"; luigi.required "puppet_account_id";
    luigi.required "region"; luigi.required "account_id";
    luigi.required "portfolio"; luigi.required "product"; luigi.required "version";
    luigi.optional "ssm_param_inputs";
    luigi.optional "launch_parameters"; luigi.optional "manifest_parameters";
    luigi.optional "account_parameters";
    luigi.optional "retry_count"; luigi.optional "worker_timeout";
    luigi.optional "ssm_param_outputs"; luigi.optional "requested_priority";
    luigi.required "execution" ].

(** The parameters TerminateProductDryRunTask declares (launch.py 869-888). *)
Definition terminate_dry_run_parameters : list luigi.Parameter_ :=
  [ luigi.required "manifest_file_path";
    luigi.required "launch_name";
    luigi.required "portfolio"; luigi.required "portfolio_id";
    luigi.required "product"; luigi.required "product_id";
    luigi.required "version"; luigi.required "version_id";
    luigi.required "account_id"; luigi.required "region";
    luigi.required "puppet_account_id";
    luigi.optional "retry_count"; luigi.optional "ssm_param_outputs";
    luigi.optional "worker_timeout";
    luigi.optional "parameters"; luigi.optional "ssm_param_inputs" ].

(** ProvisionProductDryRunTask inherits the parameters of
    ProvisionProductTask; TerminateProductTask (launch.py 704-725) declares
    the same ones again. *)
Definition parameters (klass : Klass) : list luigi.Parameter_ :=
  match klass with
  | KProvisionProductTask | KProvisionProductDryRunTask | KTerminateProductTask =>
      provision_parameters
  | KTerminateProductDryRunTask => terminate_dry_run_parameters
  end.

Definition task_family (klass : Klass) : string :=
  match klass with
  | KProvisionProductTask => "ProvisionProductTask"
  | KProvisionProductDryRunTask => "ProvisionProductDryRunTask"
  | KTerminateProductTask => "TerminateProductTask"
  | KTerminateProductDryRunTask => "TerminateProductDryRunTask"
  end.

(** [klass( **task, manifest_file_path=self.manifest_file_path)]: Python
    refuses a keyword that is given twice, then luigi checks the rest. *)
Definition instantiate (klass : Klass) (task : TaskParams) : exn + Task :=
  if bool_decide ("manifest_file_path" ∈ task.*1)
  then inl (OtherError "got multiple values for keyword argument 'manifest_file_path'")
  else
    _ ← luigi.get_param_values (task_family klass) (parameters klass)
          (task.*1 ++ ["manifest_file_path"]);
    inr (Provisioning_ klass task).

(** [for task in tasks: dependencies.append(klass( **task, ...))]; the
    first exception ends the loop. *)
Fixpoint instantiate_all (klass : Klass) (tasks : list TaskParams) : exn + list Task :=
  match tasks with
  | [] => inr []
  | task :: tl =>
      dependency ← instantiate klass task;
      rest ← instantiate_all klass tl;
      inr (dependency :: rest)
  end.

(** [manifest.get_launch(name)]; using a launch that is not there fails
    on the first [.get] applied to it. *)
Definition get_launch (manifest : Manifest) (name : string) : exn + Launch :=
  match launches manifest !! name with
  | Some l => inr l
  | None => inl (OtherError "'NoneType' object has no attribute 'get'")
  end.

Module LaunchForSpokeExecutionTask.

Record t := {
  launch_name : string;
  puppet_account_id : string }.

Definition affinity_error (what : string) : exn :=
  Exception_ ("Could can only depend on " +:+ what +:+ " when using spoke execution mode").

(** The dependency types the loop knows. *)
Definition supported : list pyval :=
  [ Some constants.LAUNCH; Some constants.SPOKE_LOCAL_PORTFOLIO; Some constants.ASSERTION;
    Some constants.CODE_BUILD_RUN; Some constants.LAMBDA_INVOCATION ].

(** One turn of [for depends_on in dependencies:]: the tasks it appends. *)
Definition edge (manifest : Manifest) (depends_on : DependsOn) : exn + list Task :=
  let depends_on_affinity := dep_affinity depends_on in
  let depends_on_type := dep_type depends_on in
  if decide (depends_on_type = Some constants.LAUNCH) then
    if decide (depends_on_affinity = Some constants.LAUNCH) then
      dep ← get_launch manifest (dep_name depends_on);
      if decide (l_execution dep = Some constants.EXECUTION_MODE_SPOKE)
      then inr [LaunchForSpokeExecutionTask_ (dep_name depends_on)]
      else inr [LaunchTask_ (dep_name depends_on)]
    else inl (affinity_error "a launch using affinity launch")
  else if decide (depends_on_type = Some constants.SPOKE_LOCAL_PORTFOLIO) then
    if decide (depends_on_affinity = Some constants.SPOKE_LOCAL_PORTFOLIO)
    then inr [SpokeLocalPortfolioTask_ (dep_name depends_on)]
    else inl (affinity_error
                "a spoke_local_portfolio using affinity spoke_local_portfolios")
  else if decide (depends_on_type = Some constants.ASSERTION) then
    if decide (depends_on_affinity = Some constants.ASSERTION)
    then inr [AssertionTask_ (dep_name depends_on)]
    else inl (affinity_error "an assertion using affinity assertion")
  else if decide (depends_on_type = Some constants.CODE_BUILD_RUN) then
    if decide (depends_on_affinity = Some constants.CODE_BUILD_RUN)
    then inr [CodeBuildRunTask_ (dep_name depends_on)]
    else inl (affinity_error "a code_build_run using affinity code_build_run")
  else if decide (depends_on_type = Some constants.LAMBDA_INVOCATION) then
    if decide (depends_on_affinity = Some constants.LAMBDA_INVOCATION)
    then inr [LambdaInvocationTask_ (dep_name depends_on)]
    else inl (affinity_error "a lambda_invocation using affinity lambda_invocation")
  else inr [].

(** The loop over the edges; the first exception ends it. *)
Fixpoint edges (manifest : Manifest) (dependencies : list DependsOn) : exn + list Task :=
  match dependencies with
  | [] => inr []
  | depends_on :: tl =>
      these ← edge manifest depends_on;
      rest ← edges manifest tl;
      inr (these ++ rest)
  end.

Definition requires (self : t) (manifest : Manifest) : exn + list Task :=
  launch ← get_launch manifest (launch_name self);
  edges manifest (l_depends_on launch).

End LaunchForSpokeExecutionTask.

Module LaunchForRegionTask.

Record t := {
  launch_name : string;
  puppet_account_id : string;
  region : string;
  is_dry_run : bool }.

Definition section_name : string := constants.LAUNCHES.

(** The [status] property of ProvisioningTask. *)
Definition status (self : t) (manifest : Manifest) : exn + pyval :=
  launch ← get_launch manifest (launch_name self);
  inr (Some (default constants.PROVISIONED (l_status launch))).

Definition get_klass_for_provisioning (self : t) (manifest : Manifest) : exn + Klass :=
  st ← status self manifest;
  if is_dry_run self then
    if decide (st = Some constants.PROVISIONED) then inr KProvisionProductDryRunTask
    else if decide (st = Some constants.TERMINATED) then inr KTerminateProductDryRunTask
    else inl (Exception_ ("Unknown status: " +:+ str_of st))
  else
    if decide (st = Some constants.PROVISIONED) then inr KProvisionProductTask
    else if decide (st = Some constants.TERMINATED) then inr KTerminateProductTask
    else inl (Exception_ ("Unknown status: " +:+ str_of st)).

(** The edges that become region-scoped dependencies. *)
Definition these_dependencies (self : t) (depends_on : list DependsOn) : list Task :=
  flat_map (fun d =>
    if decide (dep_type d = Some section_name) then
      if decide (dep_affinity d = Some "region")
      then [LaunchForRegionTask_ (dep_name d) (region self)]
      else []
    else []) depends_on.

(** The result is (dependencies, these_dependencies). *)
Definition requires (self : t) (manifest : Manifest) : exn + (list Task * list Task) :=
  klass ← get_klass_for_provisioning self manifest;
  dependencies ←
    instantiate_all klass
      (get_tasks_for_launch_and_region manifest (launch_name self) (region self));
  launch ← get_launch manifest (launch_name self);
  inr (dependencies, these_dependencies self (l_depends_on launch)).

End LaunchForRegionTask.


(** ** Writing the task output *)

Definition is_write (c : Call) : bool :=
  match c with WriteOutput _ => true | _ => false end.

(** [writes_last o m]: [m] writes the output [o] as its very last event
    when it completes, and writes no output at all when it raises. *)
Definition writes_last (o : Output) (m : M unit) : Prop :=
  forall w h, exists new,
    Forall (fun c => is_write c = false) new
    /\ (m w h = (h ++ new ++ [WriteOutput o], inr tt)
        \/ exists e, m w h = (h ++ new, inl e)).

(** ** Names in the parameter store *)

(** [c in s] for a single character. *)
Fixpoint char_in (c : ascii) (s : string) : bool :=
  match s with
  | EmptyString => false
  | String c' tl => bool_decide (c = c') || char_in c tl
  end.

Definition is_delete (c : Call) : bool :=
  match c with DeleteParameter _ => true | _ => false end.

(** The put of a binding: the one for the stack output of its key. *)
Definition put_of (self : ProvisionProductTask.t) (sd : StackDetails)
    (b : SsmParamOutput) (c : Call) : Prop :=
  exists o, o ∈ Outputs sd /\ OutputKey o = stack_output b
            /\ c = ProvisionProductTask.put_call self b o.

(** The parameter-store error a delete may be answered with and survive. *)
Definition is_not_found (e : exn) : bool :=
  match e with ParameterNotFound _ => true | _ => false end.

(** A delete that is answered, or answered with ParameterNotFound. *)
Definition tolerated (w : World) (b : SsmParamOutput) : Prop :=
  forall h, (exists r, w h (DeleteParameter (param_name b)) = inr r)
            \/ (exists m, w h (DeleteParameter (param_name b)) = inl (ParameterNotFound m)).

(** The statuses in which the dry run takes the ids of a product. *)
Definition usable (r : ProvisionedProduct) : Prop :=
  pp_Status r ∈ ["AVAILABLE"; "TAINTED"].

(** ** More of graph construction *)

Definition is_dry_run_klass (k : Klass) : bool :=
  match k with
  | KProvisionProductDryRunTask | KTerminateProductDryRunTask => true
  | _ => false
  end.

Definition is_terminate_klass (k : Klass) : bool :=
  match k with
  | KTerminateProductTask | KTerminateProductDryRunTask => true
  | _ => false
  end.

(** An edge that [LaunchForSpokeExecutionTask.requires] accepts: of a type
    it does not know, or of a known type with that type as affinity and,
    for a launch, naming a launch of the manifest. *)
Definition accepted (manifest : Manifest) (d : DependsOn) : Prop :=
  dep_type d ∈ LaunchForSpokeExecutionTask.supported ->
  dep_affinity d = dep_type d
  /\ (dep_type d = Some constants.LAUNCH -> is_Some (launches manifest !! dep_name d)).

Definition is_supported (d : DependsOn) : bool :=
  bool_decide (dep_type d ∈ LaunchForSpokeExecutionTask.supported).

Module LaunchSectionTask.

(** [requires], over the items of the launches section in the order of the
    manifest.  [is_running_in_spoke] and [handle_requirements_for] belong
    to the section task base class, which is not part of the sources at
    hand: the first is taken as a flag, the second as the function from the
    name of a launch to the tasks it contributes. *)
Definition requires (is_running_in_spoke : bool)
    (handle_requirements_for : string -> list Task)
    (items : list (string * Launch)) : list Task :=
  flat_map (fun item =>
    let name := fst item in
    let execution := l_execution (snd item) in
    if is_running_in_spoke then
      if decide (execution = Some constants.EXECUTION_MODE_SPOKE)
      then handle_requirements_for name
      else []
    else
      if decide (execution <> Some constants.EXECUTION_MODE_SPOKE)
      then handle_requirements_for name
      else [LaunchForSpokeExecutionTask_ name]) items.

Definition is_spoke (item : string * Launch) : bool :=
  bool_decide (l_execution (snd item) = Some constants.EXECUTION_MODE_SPOKE).

End LaunchSectionTask.

Module LaunchForAccountAndRegionTask.

Record t := {
  launch_name : string;
  puppet_account_id : string;
  account_id : string;
  region : string;
  is_dry_run : bool }.

Definition as_launch (self : t) : LaunchForRegionTask.t :=
  {| LaunchForRegionTask.launch_name := launch_name self;
     LaunchForRegionTask.puppet_account_id := puppet_account_id self;
     LaunchForRegionTask.region := region self;
     LaunchForRegionTask.is_dry_run := is_dry_run self |}.

(** [get_tasks_for_launch_and_account_and_region] is a manifest accessor
    taken as a function of (launch, account, region); each task it hands
    out is built with the class chosen. *)
Definition requires (self : t) (manifest : Manifest)
    (get_tasks_for_launch_and_account_and_region : string -> string -> string -> list TaskParams)
  : exn + list Task :=
  klass ← LaunchForRegionTask.get_klass_for_provisioning (as_launch self) manifest;
  instantiate_all klass
    (get_tasks_for_launch_and_account_and_region
       (launch_name self) (account_id self) (region self)).

End LaunchForAccountAndRegionTask.

Module LaunchTask.

Record t := {
  launch_name : string;
  puppet_account_id : string;
  is_dry_run : bool }.

Definition as_launch (self : t) : LaunchForRegionTask.t :=
  {| LaunchForRegionTask.launch_name := launch_name self;
     LaunchForRegionTask.puppet_account_id := puppet_account_id self;
     LaunchForRegionTask.region := EmptyString;
     LaunchForRegionTask.is_dry_run := is_dry_run self |}.

(** [requires]: the accounts with their regions come from
    [get_account_ids_and_regions_used_for_section_item], taken as the
    list of its items.  The three nested loops build the tasks of every
    account and region in order; the first constructor that raises ends
    them all. *)
Definition requires (self : t) (manifest : Manifest)
    (account_ids_and_regions : list (string * list string))
    (get_tasks_for_launch_and_account_and_region : string -> string -> string -> list TaskParams)
  : exn + list Task :=
  klass ← LaunchForRegionTask.get_klass_for_provisioning (as_launch self) manifest;
  instantiate_all klass
    (flat_map (fun item =>
       flat_map (fun region =>
         get_tasks_for_launch_and_account_and_region (launch_name self) (fst item) region)
         (snd item))
       account_ids_and_regions).

(** The task of the innermost tier for one account and region. *)
Definition tier (self : t) (account_id region : string) : LaunchForAccountAndRegionTask.t :=
  {| LaunchForAccountAndRegionTask.launch_name := launch_name self;
     LaunchForAccountAndRegionTask.puppet_account_id := puppet_account_id self;
     LaunchForAccountAndRegionTask.account_id := account_id;
     LaunchForAccountAndRegionTask.region := region;
     LaunchForAccountAndRegionTask.is_dry_run := is_dry_run self |}.

End LaunchTask.

(** ** Tasks in general *)

(** [output_last m]: when [m] completes it has written one output, as its
    last event; when it raises it has written none. *)
Definition output_last (m : M unit) : Prop :=
  forall w h, exists new,
    Forall (fun c => is_write c = false) new
    /\ ((exists o, m w h = (h ++ new ++ [WriteOutput o], inr tt))
        \/ exists e, m w h = (h ++ new, inl e)).

(** A variable that DoExecuteCodeBuildRunTask overrides: declared
    PLAINTEXT by the project of the task and provided with a value that
    is not empty. *)
Definition overridable (self : DoExecuteCodeBuildRunTask.t)
    (provided_parameters : gmap string pyval) (projects : list (string * list EnvVar))
    (name value : string) : Prop :=
  exists project var,
    project ∈ projects /\ fst project = DoExecuteCodeBuildRunTask.project_name self
    /\ var ∈ snd project /\ ev_type var = "PLAINTEXT" /\ ev_name var = name
    /\ provided_parameters !! name = Some (Some value)
    /\ PyStr.truthy value = true.

(** ** Tasks with clients of their own

    The two tasks below talk to operations the tasks above do not use.
    Their bodies run in the same kind of monad, over the history of their
    own calls. *)

Module Eff.
Section monad.
Context {C R : Type}.

Definition world : Type := list C -> C -> exn + R.

Definition T (A : Type) : Type := world -> list C -> list C * (exn + A).

Definition ret {A} (a : A) : T A := fun _ h => (h, inr a).

Definition bind {A B} (m : T A) (f : A -> T B) : T B := fun w h =>
  match m w h with
  | (h', inr a) => f a w h'
  | (h', inl e) => (h', inl e)
  end.

Definition raise {A} (e : exn) : T A := fun _ h => (h, inl e).

Definition perform (c : C) : T R := fun w h => (h ++ [c], w h c).

Definition emit (c : C) : T unit := fun _ h => (h ++ [c], inr tt).

End monad.
Arguments world : clear implicits.
Arguments T : clear implicits.
End Eff.

Notation "x <~ m ; k" := (Eff.bind m (fun x => k))
  (at level 20, m at level 100, k at level 200, only parsing).

(** ** TerminateProductDryRunTask *)

Module TerminateProductDryRunTask.

Record t := {
  launch_name : string;
  product_id : string;
  account_id : string;
  region : string }.

(** The result of a terminate dry run. *)
Record Diff := {
  current_version : string;
  new_version : string;
  effect : string;
  notes : string }.

Inductive call : Type :=
| GetProvisionedProductDetails (product_id launch_name : string)
| DescribeProvisioningArtifact (artifact_id product_id : string)
| WriteResult (d : Diff).

Inductive response : Type :=
| Details (r : option ProvisionedProduct)
| Artifact (d : ArtifactDetail).

Definition M := Eff.T call response.

Definition bad {A} : M A := Eff.raise (OtherError "unexpected response shape").

(** [aws.get_provisioned_product_details] belongs to the aws module, which
    is not part of the sources at hand: it is taken as one operation that
    answers with a provisioned product or with None, or raises. *)
Definition get_provisioned_product_details (product_id launch_name : string)
  : M (option ProvisionedProduct) :=
  r <~ Eff.perform (GetProvisionedProductDetails product_id launch_name);
  match r with Details r => Eff.ret r | _ => bad end.

Definition describe_provisioning_artifact (artifact_id product_id : string)
  : M ArtifactDetail :=
  r <~ Eff.perform (DescribeProvisioningArtifact artifact_id product_id);
  match r with Artifact d => Eff.ret d | _ => bad end.

Definition diff (current_version new_version effect notes : string) : Diff :=
  {| current_version := current_version; new_version := new_version;
     effect := effect; notes := notes |}.

Definition write_result (current_version new_version effect notes : string) : M unit :=
  Eff.emit (WriteResult (diff current_version new_version effect notes)).

Definition run (self : t) : M unit :=
  r <~ get_provisioned_product_details (product_id self) (launch_name self);
  match r with
  | None =>
      write_result "-" "-" constants.NO_CHANGE "There is nothing to terminate"
  | Some r =>
      detail <~ describe_provisioning_artifact (pp_ProvisioningArtifactId r)
                 (product_id self);
      let provisioned_product_name := ad_Name detail in
      if decide (pp_Status r <> "TERMINATED")
      then write_result provisioned_product_name "-" constants.CHANGE
             "The product would be terminated"
      else write_result "-" "-" constants.CHANGE "The product is already terminated"
  end.

Definition is_result (c : call) : bool :=
  match c with WriteResult _ => true | _ => false end.

End TerminateProductDryRunTask.

(** ** ResetProvisionedProductOwnerTask *)

Module ResetProvisionedProductOwnerTask.

Record t := {
  launch_name : string;
  account_id : string;
  region : string }.

Inductive call : Type :=
| ScanProvisionedProducts
| UpdateProvisionedProductProperties (provisioned_product_id owner : string)
| WriteChanges (changes_made : list ProvisionedProduct).

Inductive response : Type :=
| Products (l : list ProvisionedProduct)
| Updated.

Definition M := Eff.T call response.

Definition scan : M (list ProvisionedProduct) :=
  r <~ Eff.perform ScanProvisionedProducts;
  match r with
  | Products l => Eff.ret l
  | _ => Eff.raise (OtherError "unexpected response shape")
  end.

(** [for result in all_results: ...], threading [changes_made].
    [puppet_role_arn] is [config.get_puppet_role_arn]. *)
Fixpoint reset_owners (self : t) (puppet_role_arn : string -> string)
    (all_results changes_made : list ProvisionedProduct) : M (list ProvisionedProduct) :=
  match all_results with
  | [] => Eff.ret changes_made
  | result :: tl =>
      if decide (pp_Name result = launch_name self) then
        let changes_made := changes_made ++ [result] in
        _ <~ Eff.perform (UpdateProvisionedProductProperties (pp_Id result)
                           (puppet_role_arn (account_id self)));
        reset_owners self puppet_role_arn tl changes_made
      else reset_owners self puppet_role_arn tl changes_made
  end.

Definition run (self : t) (puppet_role_arn : string -> string) : M unit :=
  all_results <~ scan;
  changes_made <~ reset_owners self puppet_role_arn all_results [];
  Eff.emit (WriteChanges changes_made).

(** The update of one product. *)
Definition update_of (self : t) (puppet_role_arn : string -> string)
    (r : ProvisionedProduct) : call :=
  UpdateProvisionedProductProperties (pp_Id r) (puppet_role_arn (account_id self)).

Definition named (self : t) (r : ProvisionedProduct) : bool :=
  bool_decide (pp_Name r = launch_name self).

Definition is_update (c : call) : bool :=
  match c with UpdateProvisionedProductProperties _ _ => true | _ => false end.

End ResetProvisionedProductOwnerTask.

(** * Example inputs *)

Module ListLaunchPathsExample.
Import ListLaunchPathsTask.

(** A world with one launch path, and one with two of which the second
    is named after the portfolio. *)
Definition task : t :=
  {| puppet_account_id := "000000000000"; portfolio := "networking";
     product_id := "prod-1"; account_id := "111111111111"; region := "eu-west-1" |}.
Definition path_a := {| lps_Id := Some "lp-a"; lps_Name := Some "other" |}.
Definition path_b := {| lps_Id := Some "lp-b"; lps_Name := Some "networking" |}.
Definition one_path : World := fun _ _ => inr (RLaunchPaths (Some [path_a])).
Definition two_paths : World := fun _ _ => inr (RLaunchPaths (Some [path_a; path_b])).

(** A world whose client refuses the call, and one whose response has no
    LaunchPathSummaries. *)
Definition denied : World := fun _ _ =>
  inl (ClientError "An error occurred (AccessDeniedException) when calling the ListLaunchPaths operation").
Definition no_summaries : World := fun _ _ => inr (RLaunchPaths None).

End ListLaunchPathsExample.

Module DescribeExample.
Import DoDescribeProvisioningParameters.

Definition task : t :=
  {| puppet_account_id := "000000000000"; region := "eu-west-1";
     product_id := "prod-1"; version_id := "pa-2"; portfolio := "networking" |}.

Definition denied : exn :=
  ClientError "An error occurred (InvalidParametersException): S3 error: Access Denied".

(** The storage race never clears. *)
Definition always_denied : World := fun _ _ => inl denied.

(** The storage race clears after the first attempt. *)
Definition denied_once : World := fun h _ =>
  match h with
  | [] => inl denied
  | _ => inr (RArtifactParameters [{| ParameterKey := "Cidr"; DefaultValue := Some "10.0.0.0/16" |}])
  end.

(** The product is not there at all. *)
Definition missing : World := fun _ _ => inl (ClientError "ResourceNotFoundException").

End DescribeExample.

Module ProvisionExample.
Import ProvisionProductTask.

Definition vpc_id_output : SsmParamOutput :=
  {| param_name := "/networking/${AWS::Region}/${AWS::AccountId}/vpc-id";
     stack_output := "VpcId";
     param_type := None |}.

Definition subnet_output : SsmParamOutput :=
  {| param_name := "/networking/subnet-id";
     stack_output := "SubnetId";
     param_type := Some "StringList" |}.

(** A launch run in the spoke itself, and the same launch run from the hub
    with one declared output. *)
Definition spoke_task : t :=
  {| launch_name := "L1"; puppet_account_id := "000000000000";
     region := "us-east-1"; account_id := "111111111111";
     portfolio := "networking"; product := "vpc"; version := "v2";
     ssm_param_outputs := []; execution := "spoke";
     uid := "L1-111111111111-us-east-1";
     should_use_product_plans := false; should_use_sns := false |}.

Definition hub_task : t :=
  {| launch_name := "L1"; puppet_account_id := "000000000000";
     region := "us-east-1"; account_id := "111111111111";
     portfolio := "networking"; product := "vpc"; version := "v2";
     ssm_param_outputs := [vpc_id_output]; execution := "hub";
     uid := "L1-111111111111-us-east-1";
     should_use_product_plans := false; should_use_sns := false |}.

Definition inp : inputs :=
  {| product_id := "prod-1"; version_id := "pa-2";
     all_params := {[ "Foo" := Some "new"; "Undeclared" := Some "x" ]};
     provisioning_artifact_parameters :=
       [ {| ParameterKey := "Foo"; DefaultValue := Some "dflt" |};
         {| ParameterKey := "Bar"; DefaultValue := Some "bar-default" |} ] |}.

Definition desired : gmap string pyval :=
  {[ "Foo" := Some "new"; "Bar" := Some "bar-default" ]}.

Definition live (status : string) : ProvisionedProduct :=
  {| pp_Name := "L1"; pp_Status := status; pp_Id := "pp-9";
     pp_ProvisioningArtifactId := "pa-2" |}.

Definition stack (status : string) : StackDetails :=
  {| StackStatus := Some status;
     Outputs := [ {| OutputKey := "VpcId"; OutputValue := "vpc-0abc" |};
                  {| OutputKey := "Other"; OutputValue := "o" |} ] |}.

(** The live resource is at the desired version with the desired
    parameters, in status [status], on a stack in status [stack_status]. *)
Definition converged (status stack_status : string) : World := fun _ c =>
  match c with
  | ScanProvisionedProductsSinglePage => inr (RProvisionedProducts [live status])
  | GetParametersForStack _ => inr (RParams desired)
  | GetStackOutputFor _ => inr (RStack (stack stack_status))
  | UpdateProvisionedProduct _ _ => inr (RStr "pp-9")
  | _ => inr RUnit
  end.



(** The live resource is at the desired version but one parameter still
    has its old value. *)
Definition drifted (stack_status : string) : World := fun _ c =>
  match c with
  | ScanProvisionedProductsSinglePage => inr (RProvisionedProducts [live "AVAILABLE"])
  | GetParametersForStack _ => inr (RParams {[ "Foo" := Some "old"; "Bar" := Some "bar-default" ]})
  | GetStackOutputFor _ => inr (RStack (stack stack_status))
  | UpdateProvisionedProduct _ _ => inr (RStr "pp-9")
  | _ => inr RUnit
  end.

End ProvisionExample.

Module DryRunExample.
Import ProvisionProductTask.

Definition detail : ArtifactDetail := {| ad_Name := "v1"; ad_Active := true |}.



End DryRunExample.

Module GraphExample.

Definition on_launch_by_region : DependsOn :=
  {| dep_type := Some "launch"; dep_affinity := Some "region"; dep_name := "L0" |}.

Definition on_launches_by_region : DependsOn :=
  {| dep_type := Some "launches"; dep_affinity := Some "region"; dep_name := "L0" |}.

Definition on_stack : DependsOn :=
  {| dep_type := Some "stack"; dep_affinity := Some "launch"; dep_name := "S0" |}.

Definition launch (execution : string) (depends_on : list DependsOn) : Launch :=
  {| l_status := None; l_execution := Some execution; l_depends_on := depends_on |}.

(** The task of a launch for one account and region, as the manifest
    hands it out. *)
Definition task (name account region : string) : TaskParams :=
  [ ("launch_name", VStr name);
    ("portfolio", VStr "networking"); ("product", VStr "vpc"); ("version", VStr "v2");
    ("execution", VStr "hub");
    ("puppet_account_id", VStr "000000000000");
    ("account_id", VStr account); ("region", VStr region);
    ("ssm_param_inputs", VList []);
    ("launch_parameters", VDict []); ("manifest_parameters", VDict []);
    ("account_parameters", VDict []);
    ("retry_count", VInt 1); ("worker_timeout", VInt 0);
    ("ssm_param_outputs", VList []); ("requested_priority", VInt 0) ].

(** L1 depends on L0 through [depends_on]; each launch has one unit in the region. *)
Definition manifest (execution : string) (depends_on : list DependsOn) : Manifest :=
  {| launches := {[ "L0" := launch execution []; "L1" := launch execution depends_on ]};
     get_tasks_for_launch_and_region := fun name region =>
       [ task name "111111111111" region ] |}.

(** The same manifest with L1 marked as terminated. *)
Definition terminated (execution : string) : Manifest :=
  {| launches :=
       {[ "L0" := launch execution [];
          "L1" := {| l_status := Some "terminated"; l_execution := Some execution;
                     l_depends_on := [] |} ]};
     get_tasks_for_launch_and_region := fun name region =>
       [ task name "111111111111" region ] |}.

Definition spoke_execution : LaunchForSpokeExecutionTask.t :=
  {| LaunchForSpokeExecutionTask.launch_name := "L1";
     LaunchForSpokeExecutionTask.puppet_account_id := "000000000000" |}.

Definition for_region : LaunchForRegionTask.t :=
  {| LaunchForRegionTask.launch_name := "L1";
     LaunchForRegionTask.puppet_account_id := "000000000000";
     LaunchForRegionTask.region := "eu-west-1";
     LaunchForRegionTask.is_dry_run := false |}.

Definition for_region_dry_run : LaunchForRegionTask.t :=
  {| LaunchForRegionTask.launch_name := "L1";
     LaunchForRegionTask.puppet_account_id := "000000000000";
     LaunchForRegionTask.region := "eu-west-1";
     LaunchForRegionTask.is_dry_run := true |}.

End GraphExample.

Module SpokeExample.
Import RunDeployInSpokeTask.

Definition task : t :=
  {| manifest_file_path := "manifest-expanded.yaml";
     puppet_account_id := "000000000000";
     account_id := "111111111111";
     should_use_sns := true |}.

Definition inp : inputs :=
  {| home_region := "eu-west-1";
     regions := ["eu-west-1"; "us-east-1"];
     should_use_eventbridge := false;
     should_forward_failures_to_opscenter := false;
     new_manifest := "launches: {}";
     build_number := Some "42" |}.

Definition started : BuildResponse :=
  {| build_id := "servicecatalog-puppet-deploy-in-spoke:b-1"; build_status := "IN_PROGRESS" |}.

(** The build is accepted and is still running when [start_build] returns. *)
Definition build_in_progress : World := fun _ c =>
  match c with
  | GeneratePresignedUrl _ _ _ _ => inr (RStr "https://signed.example/42.yaml")
  | GetParameter _ => inr (RStr "0.95.0")
  | StartBuild _ _ => inr (RBuild started)
  | BatchGetProjects _ => inr (RProjects [])
  | _ => inr RUnit
  end.

Definition code_build_run : DoExecuteCodeBuildRunTask.t :=
  {| DoExecuteCodeBuildRunTask.code_build_run_name := "cbr";
     DoExecuteCodeBuildRunTask.puppet_account_id := "000000000000";
     DoExecuteCodeBuildRunTask.region := "eu-west-1";
     DoExecuteCodeBuildRunTask.account_id := "111111111111";
     DoExecuteCodeBuildRunTask.project_name := "ping" |}.

End SpokeExample.

Module TerminateExample.
Import DoTerminateProductTask.

Definition task : t :=
  {| launch_name := "L1"; puppet_account_id := "000000000000";
     region := "us-east-1"; account_id := "111111111111";
     ssm_param_outputs := [ProvisionExample.vpc_id_output] |}.

Definition plain_task : t :=
  {| launch_name := "L1"; puppet_account_id := "000000000000";
     region := "us-east-1"; account_id := "111111111111";
     ssm_param_outputs := [ProvisionExample.subnet_output] |}.

Definition no_such (name : string) : exn :=
  ParameterNotFound ("Parameter " +:+ name +:+ " not found.").

(** The launch is live, and the parameter store holds the parameters in
    [stored].  A delete of any other name is answered with ParameterNotFound. *)
Definition after_provision (status : string) (stored : list string) : World := fun _ c =>
  match c with
  | ScanProvisionedProductsSinglePage =>
      inr (RProvisionedProducts [ProvisionExample.live status])
  | DeleteParameter name =>
      if bool_decide (name ∈ stored) then inr RUnit else inl (no_such name)
  | _ => inr RUnit
  end.

End TerminateExample.

Module DecisionExample.

(** The launch is live at an older artifact; its stack is healthy. *)
Definition older_version : World := fun _ c =>
  match c with
  | ScanProvisionedProductsSinglePage =>
      inr (RProvisionedProducts
             [ {| pp_Name := "L1"; pp_Status := "AVAILABLE"; pp_Id := "pp-9";
                  pp_ProvisioningArtifactId := "pa-1" |} ])
  | GetStackOutputFor _ => inr (RStack (ProvisionExample.stack "UPDATE_COMPLETE"))
  | UpdateProvisionedProduct _ _ => inr (RStr "pp-9")
  | _ => inr RUnit
  end.

(** Nothing is provisioned yet; the first provision gives the id pp-1. *)
Definition first_time : World := fun _ c =>
  match c with
  | ScanProvisionedProductsSinglePage => inr (RProvisionedProducts [])
  | ProvisionProduct _ _ _ => inr (RStr "pp-1")
  | GetStackOutputFor _ => inr (RStack (ProvisionExample.stack "CREATE_COMPLETE"))
  | _ => inr RUnit
  end.

End DecisionExample.

Module TerminateMore.

Definition two_outputs : DoTerminateProductTask.t :=
  {| DoTerminateProductTask.launch_name := "L1";
     DoTerminateProductTask.puppet_account_id := "000000000000";
     DoTerminateProductTask.region := "us-east-1";
     DoTerminateProductTask.account_id := "111111111111";
     DoTerminateProductTask.ssm_param_outputs :=
       [ProvisionExample.subnet_output; ProvisionExample.vpc_id_output] |}.

(** The launch is live and the parameter store denies every delete. *)
Definition delete_denied : World := fun _ c =>
  match c with
  | ScanProvisionedProductsSinglePage =>
      inr (RProvisionedProducts [ProvisionExample.live "AVAILABLE"])
  | DeleteParameter _ => inl (ClientError "AccessDeniedException")
  | _ => inr RUnit
  end.

End TerminateMore.

Module ScanExample.

Definition product (name status id artifact : string) : ProvisionedProduct :=
  {| pp_Name := name; pp_Status := status; pp_Id := id;
     pp_ProvisioningArtifactId := artifact |}.

(** Two products carry the name of the launch: the first is usable, the
    second is in error. *)
Definition shadowed : list ProvisionedProduct :=
  [ product "L1" "AVAILABLE" "pp-1" "pa-1";
    product "other" "AVAILABLE" "pp-2" "pa-7";
    product "L1" "ERROR" "pp-3" "pa-2" ].

(** The launch is live, tainted, at the desired version with the desired
    parameters. *)
Definition tainted : World := fun _ c =>
  match c with
  | ScanProvisionedProductsSinglePage =>
      inr (RProvisionedProducts [product "L1" "TAINTED" "pp-9" "pa-2"])
  | DescribeProvisioningArtifact _ _ => inr (RArtifactDetail DryRunExample.detail)
  | GetParametersForStack _ => inr (RParams ProvisionExample.desired)
  | GetStackOutputFor _ => inr (RStack (ProvisionExample.stack "CREATE_COMPLETE"))
  | UpdateProvisionedProduct _ _ => inr (RStr "pp-9")
  | _ => inr RUnit
  end.

End ScanExample.

Module GraphMore.

Definition on_launch : DependsOn :=
  {| dep_type := Some "launch"; dep_affinity := Some "launch"; dep_name := "L0" |}.

(** The launches section in the order of the manifest: one launch run from
    the hub, two run in the spokes. *)
Definition items : list (string * Launch) :=
  [ ("base", GraphExample.launch "hub" []);
    ("L0", GraphExample.launch "spoke" []);
    ("L1", GraphExample.launch "spoke" [on_launch]) ].

(** Every launch expands to one task of its own name. *)
Definition handle (name : string) : list Task := [LaunchTask_ name].

Definition launch_task : LaunchTask.t :=
  {| LaunchTask.launch_name := "L1";
     LaunchTask.puppet_account_id := "000000000000";
     LaunchTask.is_dry_run := false |}.

Definition tasks_for (name account region : string) : list TaskParams :=
  [ GraphExample.task name account region ].

Definition launch_task_dry_run : LaunchTask.t :=
  {| LaunchTask.launch_name := "L1";
     LaunchTask.puppet_account_id := "000000000000";
     LaunchTask.is_dry_run := true |}.

End GraphMore.

Module OwnerExample.
Import ResetProvisionedProductOwnerTask.

Definition task : t :=
  {| launch_name := "L1"; account_id := "111111111111"; region := "eu-west-1" |}.

Definition role (account_id : string) : string :=
  "arn:aws:iam::" +:+ account_id +:+ ":role/servicecatalog-puppet/PuppetRole".

Definition products : list ProvisionedProduct :=
  [ ScanExample.product "L1" "AVAILABLE" "pp-1" "pa-1";
    ScanExample.product "other" "AVAILABLE" "pp-2" "pa-7";
    ScanExample.product "L1" "ERROR" "pp-3" "pa-2" ].

(** Every update is accepted. *)
Definition accepting : Eff.world call response := fun _ c =>
  match c with
  | ScanProvisionedProducts => inr (Products products)
  | _ => inr Updated
  end.

(** The update of pp-3 is refused. *)
Definition refusing : Eff.world call response := fun _ c =>
  match c with
  | ScanProvisionedProducts => inr (Products products)
  | UpdateProvisionedProductProperties "pp-3" _ => inl (ClientError "AccessDeniedException")
  | _ => inr Updated
  end.

End OwnerExample.

Module TerminateDryRunExample.
Import TerminateProductDryRunTask.

Definition task : t :=
  {| launch_name := "L1"; product_id := "prod-1";
     account_id := "111111111111"; region := "eu-west-1" |}.

(** The product of the launch is found in status [status]. *)
Definition found (status : string) : Eff.world call response := fun _ c =>
  match c with
  | GetProvisionedProductDetails _ _ =>
      inr (Details (Some (ScanExample.product "L1" status "pp-1" "pa-1")))
  | _ => inr (Artifact DryRunExample.detail)
  end.

End TerminateDryRunExample.

Module PublishExample.

(** The hub task of the example with a second declared output, which the
    stack does not have. *)
Definition two_outputs : ProvisionProductTask.t :=
  {| ProvisionProductTask.launch_name := "L1";
     ProvisionProductTask.puppet_account_id := "000000000000";
     ProvisionProductTask.region := "us-east-1";
     ProvisionProductTask.account_id := "111111111111";
     ProvisionProductTask.portfolio := "networking";
     ProvisionProductTask.product := "vpc";
     ProvisionProductTask.version := "v2";
     ProvisionProductTask.ssm_param_outputs :=
       [ProvisionExample.vpc_id_output; ProvisionExample.subnet_output];
     ProvisionProductTask.execution := "hub";
     ProvisionProductTask.uid := "L1-111111111111-us-east-1";
     ProvisionProductTask.should_use_product_plans := false;
     ProvisionProductTask.should_use_sns := false |}.

End PublishExample.

(** * Properties *)

(** ** The monad *)

Section monad_facts.
Context {A B : Type}.

Lemma bind_ok (m : M A) (f : A -> M B) w h h' a :
  m w h = (h', inr a) -> (m ≫= f) w h = f a w h'.
Proof. intros E. unfold mbind, M_bind. now rewrite E. Qed.

Lemma bind_err (m : M A) (f : A -> M B) w h h' e :
  m w h = (h', inl e) -> (m ≫= f) w h = (h', inl e).
Proof. intros E. unfold mbind, M_bind. now rewrite E. Qed.

Lemma perform_eq (c : Call) w h : perform c w h = (h ++ [c], w h c).
Proof. reflexivity. Qed.

Lemma emit_eq (c : Call) w h : emit c w h = (h ++ [c], inr tt).
Proof. reflexivity. Qed.
End monad_facts.

(** Unfolding one layer of monadic plumbing. *)
Ltac unfold_m :=
  unfold write_output, info, warning, bad_response in *;
  unfold mbind, M_bind, mret, M_ret, perform, emit, raise, try_catch in *;
  cbn beta iota.

(** ** What a computation appends to the history *)

Section spec_rules.
Context {A B : Type} (P : Call -> Prop).

Lemma spec_ret (Q : A -> Prop) (a : A) : Q a -> spec P Q (mret a).
Proof.
  intros HQ w h. exists []. unfold_m. cbn [fst snd].
  rewrite app_nil_r. repeat split; [constructor|]. now intros ? [= <-].
Qed.

Lemma spec_raise (Q : A -> Prop) (e : exn) : spec P Q (raise e).
Proof.
  intros w h. exists []. unfold_m. cbn [fst snd].
  rewrite app_nil_r. repeat split; [constructor|]. intros ?; discriminate.
Qed.

Lemma spec_perform (c : Call) : P c -> spec P (fun _ => True) (perform c).
Proof.
  intros HP w h. exists [c]. unfold_m. cbn [fst snd].
  repeat split. now constructor.
Qed.

Lemma spec_emit (c : Call) : P c -> spec P (fun _ => True) (emit c).
Proof.
  intros HP w h. exists [c]. unfold_m. cbn [fst snd].
  repeat split. now constructor.
Qed.

Lemma spec_bind (Q : A -> Prop) (R : B -> Prop) (m : M A) (f : A -> M B) :
  spec P Q m -> (forall a, Q a -> spec P R (f a)) -> spec P R (m ≫= f).
Proof.
  intros Hm Hf w h. destruct (Hm w h) as (n1 & E1 & F1 & Q1).
  unfold mbind, M_bind. destruct (m w h) as [h' [e|a]]; cbn [fst snd] in *.
  - exists n1. split; [exact E1|split; [exact F1|intros ?; discriminate]].
  - subst h'. destruct (Hf a (Q1 a eq_refl) w (h ++ n1)) as (n2 & E2 & F2 & Q2).
    exists (n1 ++ n2). rewrite E2, <- app_assoc.
    split; [reflexivity|split; [now apply Forall_app|exact Q2]].
Qed.

Lemma spec_try_catch (Q : A -> Prop) (m : M A) (handler : exn -> M A) :
  spec P Q m -> (forall e, spec P Q (handler e)) -> spec P Q (try_catch m handler).
Proof.
  intros Hm Hh w h. destruct (Hm w h) as (n1 & E1 & F1 & Q1).
  unfold try_catch. destruct (m w h) as [h' [e|a]]; cbn [fst snd] in *.
  - subst h'. destruct (Hh e w (h ++ n1)) as (n2 & E2 & F2 & Q2).
    exists (n1 ++ n2). rewrite E2, <- app_assoc.
    split; [reflexivity|split; [now apply Forall_app|exact Q2]].
  - exists n1. split; [exact E1|split; [exact F1|exact Q1]].
Qed.

Lemma spec_weaken (Q Q' : A -> Prop) (m : M A) :
  spec P Q m -> (forall a, Q a -> Q' a) -> spec P Q' m.
Proof.
  intros Hm HQ w h. destruct (Hm w h) as (n & E & F & HQ1).
  exists n. split; [exact E|split; [exact F|]]. intros a Ha. apply HQ, HQ1, Ha.
Qed.

End spec_rules.

Lemma spec_for_each {X} (P : Call -> Prop) (xs : list X) (body : X -> M unit) :
  (forall x, x ∈ xs -> emits P (body x)) -> emits P (for_each xs body).
Proof.
  induction xs as [|x xs IH]; intros Hb; cbn [for_each].
  - now apply spec_ret.
  - eapply spec_bind.
    + apply Hb. now left.
    + intros _ _. apply IH. intros y Hy. apply Hb. now right.
Qed.

(** The events of a run from the empty history. *)
Lemma spec_exec {A} (P : Call -> Prop) (Q : A -> Prop) (m : M A) w :
  spec P Q m -> Forall P (calls (exec m w)).
Proof.
  intros Hm. destruct (Hm w []) as (n & E & F & _).
  unfold calls, exec. now rewrite E.
Qed.

(** A loop whose body only ever writes: it appends one event per selected
    element and cannot fail. *)
Lemma for_each_emit {X} (P : X -> Prop) `{!forall x, Decision (P x)}
    (ev : X -> Call) (xs : list X) w h :
  for_each xs (fun x => if decide (P x) then emit (ev x) else mret tt) w h
  = (h ++ map ev (filter P xs), inr tt).
Proof.
  revert h. induction xs as [|x xs IH]; intros h; cbn [for_each].
  - unfold_m. now rewrite app_nil_r.
  - rewrite filter_cons. destruct (decide (P x)); cbn [map].
    + erewrite bind_ok by apply emit_eq. rewrite IH.
      now rewrite <- app_assoc.
    + erewrite bind_ok by reflexivity. apply IH.
Qed.

(** ** ListLaunchPathsTask *)

Module ListLaunchPathsFacts.
Import ListLaunchPathsTask.

Lemma run_on_summaries (self : t) w h l :
  w h (ListLaunchPaths (product_id self)) = inr (RLaunchPaths (Some l)) ->
  run self w h
  = (h ++ ListLaunchPaths (product_id self)
       :: map (fun s => WriteOutput (OutLaunchPath s)) (selected self l),
     inl not_found).
Proof.
  intros E. unfold run, list_launch_paths.
  erewrite bind_ok; cycle 1.
  { unfold_m. rewrite E. reflexivity. }
  cbn beta iota. unfold selected.
  destruct (Nat.eqb (length l) 1) eqn:L.
  - destruct l as [|s [|s' l]]; try discriminate.
    unfold_m. cbn. now rewrite <- app_assoc.
  - erewrite bind_ok; cycle 1.
    { apply (for_each_emit (fun s => lps_Name s = Some (portfolio self))
               (fun s => WriteOutput (OutLaunchPath s))). }
    unfold_m. f_equal. now rewrite <- app_assoc.
Qed.

End ListLaunchPathsFacts.

Module ListLaunchPathsTheorems.
Import ListLaunchPathsTask ListLaunchPathsFacts.

(** C10 (as the code has it).  Whatever the client answers,
    [ListLaunchPathsTask.run] ends by raising: the run never completes
    normally.  When the client call returns its list of launch path
    summaries, the exception is "Could not find a launch path", raised
    after the client block even though the single path (when there is
    exactly one) or every path named after the portfolio (otherwise) has
    already been written as the task's output.  When the client call
    itself fails, its error is the error of the run and nothing is
    written; when the response carries no list of summaries the run fails
    on [len] of None, and nothing is written either. *)
Theorem run_always_raises (self : t) (w : World) (h : list Call) :
  (exists e, outcome (run self w h) = inl e)
  /\ (forall l,
        w h (ListLaunchPaths (product_id self)) = inr (RLaunchPaths (Some l)) ->
        run self w h
        = (h ++ ListLaunchPaths (product_id self)
             :: map (fun s => WriteOutput (OutLaunchPath s)) (selected self l),
           inl not_found))
  /\ (forall e,
        w h (ListLaunchPaths (product_id self)) = inl e ->
        run self w h = (h ++ [ListLaunchPaths (product_id self)], inl e))
  /\ (w h (ListLaunchPaths (product_id self)) = inr (RLaunchPaths None) ->
      run self w h
      = (h ++ [ListLaunchPaths (product_id self)],
         inl (OtherError "object of type 'NoneType' has no len()"))).
Proof.
  split; [|split; [apply run_on_summaries|split]].
  - destruct (w h (ListLaunchPaths (product_id self))) as [e|r] eqn:E.
    + exists e. unfold run, list_launch_paths. unfold_m. now rewrite E.
    + destruct r as [| |[l|]| | | | | | |];
        try (eexists; unfold run, list_launch_paths; unfold_m; rewrite E; reflexivity).
      exists not_found. now rewrite (run_on_summaries _ _ _ _ E).
  - intros e E. unfold run, list_launch_paths. unfold_m. now rewrite E.
  - intros E. unfold run, list_launch_paths. unfold_m. now rewrite E.
Qed.

(** With exactly one launch path the path is written and the run raises;
    with two paths the one named after the portfolio is written and the
    run raises all the same. *)
Lemma run_always_raises_witness :
  exec (run ListLaunchPathsExample.task) ListLaunchPathsExample.one_path
  = ([ListLaunchPaths "prod-1"; WriteOutput (OutLaunchPath ListLaunchPathsExample.path_a)],
     inl not_found)
  /\ exec (run ListLaunchPathsExample.task) ListLaunchPathsExample.two_paths
  = ([ListLaunchPaths "prod-1"; WriteOutput (OutLaunchPath ListLaunchPathsExample.path_b)],
     inl not_found).
Proof.
  split.
  - exact (proj1 (proj2 (run_always_raises ListLaunchPathsExample.task
                           ListLaunchPathsExample.one_path [])) _ eq_refl).
  - exact (proj1 (proj2 (run_always_raises ListLaunchPathsExample.task
                           ListLaunchPathsExample.two_paths [])) _ eq_refl).
Defined.

(** The claim as the spec has it fails: not every input ends in "Could not
    find a launch path".  When the client refuses the call the run ends
    with the client's error, and when the response has no list of
    summaries it ends with a TypeError. *)
Lemma run_always_raises_counterexample :
  exec (run ListLaunchPathsExample.task) ListLaunchPathsExample.denied
  = ([ListLaunchPaths "prod-1"],
     inl (ClientError "An error occurred (AccessDeniedException) when calling the ListLaunchPaths operation"))
  /\ outcome (exec (run ListLaunchPathsExample.task) ListLaunchPathsExample.denied)
     <> inl not_found
  /\ exec (run ListLaunchPathsExample.task) ListLaunchPathsExample.no_summaries
     = ([ListLaunchPaths "prod-1"],
        inl (OtherError "object of type 'NoneType' has no len()"))
  /\ outcome (exec (run ListLaunchPathsExample.task) ListLaunchPathsExample.no_summaries)
     <> inl not_found.
Proof.
  repeat split; try reflexivity; vm_compute; discriminate.
Qed.

End ListLaunchPathsTheorems.

(** ** DoDescribeProvisioningParameters *)

Module DescribeFacts.
Import DoDescribeProvisioningParameters.

Lemma retry_success (self : t) w h n l :
  w h (describe_call self) = inr (RArtifactParameters l) ->
  retry_loop self (S n) w h = (h ++ [describe_call self], inr (Some l)).
Proof.
  intros E. cbn [retry_loop]. unfold describe_provisioning_parameters.
  unfold_m. now rewrite E.
Qed.

Lemma retry_other (self : t) w h n e :
  w h (describe_call self) = inl e -> transient e = false ->
  retry_loop self (S n) w h = (h ++ [describe_call self], inl e).
Proof.
  intros E T. cbn [retry_loop]. unfold describe_provisioning_parameters.
  unfold_m. rewrite E. unfold transient in T.
  destruct (is_client_error e); [|reflexivity].
  cbn in T. now rewrite T.
Qed.

Lemma retry_transient (self : t) w h n e :
  w h (describe_call self) = inl e -> transient e = true ->
  retry_loop self (S n) w h
  = retry_loop self n w (h ++ describe_call self :: swallowed).
Proof.
  intros E T. cbn [retry_loop]. unfold describe_provisioning_parameters.
  unfold_m. rewrite E. unfold transient in T.
  apply andb_true_iff in T as [-> ->].
  unfold swallowed. cbn. now rewrite <- ?app_assoc.
Qed.

Lemma retry_bad_response (self : t) w h n r :
  w h (describe_call self) = inr r ->
  (forall l, r <> RArtifactParameters l) ->
  retry_loop self (S n) w h
  = (h ++ [describe_call self], inl (OtherError "unexpected response shape")).
Proof.
  intros E N. cbn [retry_loop]. unfold describe_provisioning_parameters.
  unfold_m. rewrite E.
  destruct r; try reflexivity. now destruct (N l).
Qed.

Lemma classic_shape (r : Response) :
  (exists l, r = RArtifactParameters l) \/ (forall l, r <> RArtifactParameters l).
Proof. destruct r; try (right; intros ?; discriminate). left; eauto. Qed.

Lemma attempts_app h1 h2 : attempts (h1 ++ h2) = attempts h1 + attempts h2.
Proof. unfold attempts. now rewrite List.filter_app, length_app. Qed.

Lemma attempts_describe (self : t) : attempts [describe_call self] = 1.
Proof. reflexivity. Qed.

(** What one pass through the loop can do, by what the client answers. *)
Lemma retry_cases (self : t) w h n :
  (exists l, retry_loop self (S n) w h = (h ++ [describe_call self], inr (Some l)))
  \/ (exists e, transient e = false
                /\ retry_loop self (S n) w h = (h ++ [describe_call self], inl e))
  \/ retry_loop self (S n) w h
     = retry_loop self n w (h ++ describe_call self :: swallowed).
Proof.
  destruct (w h (describe_call self)) as [e|r] eqn:E.
  - destruct (transient e) eqn:T.
    + right; right. eapply retry_transient; eauto.
    + right; left. exists e. split; [done|]. now apply retry_other.
  - destruct (classic_shape r) as [[l ->]|N].
    + left. exists l. now apply retry_success.
    + right; left. eexists. split; [|now apply (retry_bad_response _ _ _ _ _ E)].
      reflexivity.
Qed.

Lemma retry_bounded (self : t) w n : forall h,
  attempts (calls (retry_loop self n w h)) <= attempts h + n.
Proof.
  induction n as [|n IH]; intros h.
  - unfold calls. cbn [retry_loop]. unfold_m. cbn [fst]. lia.
  - destruct (retry_cases self w h n) as [[l ->]|[(e & _ & ->)| ->]].
    + unfold calls; cbn [fst]. rewrite attempts_app, attempts_describe. lia.
    + unfold calls; cbn [fst]. rewrite attempts_app, attempts_describe. lia.
    + etransitivity; [apply IH|].
      rewrite (attempts_app h). cbn. lia.
Qed.

(** An error that leaves the loop is never the transient one. *)
Lemma retry_raises_other (self : t) w n : forall h e,
  outcome (retry_loop self n w h) = inl e -> transient e = false.
Proof.
  induction n as [|n IH]; intros h e.
  - discriminate.
  - destruct (retry_cases self w h n) as [[l ->]|[(e' & T & ->)| ->]].
    + discriminate.
    + now intros [= <-].
    + apply IH.
Qed.

Lemma retry_exhausted (self : t) w n : forall h,
  (forall h', exists e, w h' (describe_call self) = inl e /\ transient e = true) ->
  retry_loop self n w h
  = (h ++ concat (replicate n (describe_call self :: swallowed)), inr None).
Proof.
  induction n as [|n IH]; intros h D.
  - cbn. unfold_m. now rewrite app_nil_r.
  - destruct (D h) as (e & E & T).
    rewrite (retry_transient _ _ _ _ _ E T), IH by done.
    cbn [replicate concat]. now rewrite <- !app_assoc.
Qed.

End DescribeFacts.

Module DescribeTheorems.
Import DoDescribeProvisioningParameters DescribeFacts.

(** C2 (as the code has it).  [DoDescribeProvisioningParameters.run] makes
    at most three describe-provisioning-parameters calls.  A pass of the
    loop that succeeds ends the loop; a pass that fails with any error
    other than the transient "S3 error: Access Denied" client error
    propagates that error at once, with no sleep; a pass that fails with
    the transient error logs, sleeps three seconds and goes round with one
    retry less.  The transient error is never raised out of [run]: when all
    three attempts hit it, the run writes the one-element list [None] as
    its output and completes normally. *)
Theorem retry_bounded_and_swallowed (self : t) (w : World) :
  attempts (calls (exec (run self) w)) <= 3
  /\ (forall h n l,
        w h (describe_call self) = inr (RArtifactParameters l) ->
        retry_loop self (S n) w h = (h ++ [describe_call self], inr (Some l)))
  /\ (forall h n e,
        w h (describe_call self) = inl e -> transient e = false ->
        retry_loop self (S n) w h = (h ++ [describe_call self], inl e))
  /\ (forall h n e,
        w h (describe_call self) = inl e -> transient e = true ->
        retry_loop self (S n) w h
        = retry_loop self n w (h ++ describe_call self :: swallowed))
  /\ (forall e, outcome (exec (run self) w) = inl e -> transient e = false)
  /\ ((forall h, exists e, w h (describe_call self) = inl e /\ transient e = true) ->
      exec (run self) w
      = (concat (replicate 3 (describe_call self :: swallowed))
           ++ [WriteOutput (OutArtifactParameters [None])],
         inr tt)).
Proof.
  repeat split.
  - unfold exec, run. unfold mbind, M_bind.
    pose proof (retry_bounded self w 3 []) as B.
    destruct (retry_loop self 3 w []) as [h' [e|o]]; unfold calls in *; cbn [fst] in *.
    + exact B.
    + unfold_m. cbn [fst]. rewrite attempts_app.
      change (attempts []) with 0 in B.
      change (attempts [WriteOutput ?o]) with 0. lia.
  - intros. now apply retry_success.
  - intros. now apply retry_other.
  - intros. now apply (retry_transient _ _ _ _ e).
  - intros e. unfold exec, run. unfold mbind, M_bind.
    pose proof (retry_raises_other self w 3 [] e) as R.
    destruct (retry_loop self 3 w []) as [h' [e'|o]]; unfold outcome in *; cbn [snd] in *.
    + intros [= <-]. now apply R.
    + unfold_m. discriminate.
  - intros D. unfold exec, run.
    erewrite bind_ok by (apply retry_exhausted; exact D).
    reflexivity.
Qed.

(** A storage race that clears after one attempt, one that never clears,
    and an unrelated client error. *)
Lemma retry_bounded_and_swallowed_witness :
  exec (run DescribeExample.task) DescribeExample.always_denied
  = (concat (replicate 3 (describe_call DescribeExample.task :: swallowed))
       ++ [WriteOutput (OutArtifactParameters [None])],
     inr tt)
  /\ retry_loop DescribeExample.task 3 DescribeExample.missing []
     = ([describe_call DescribeExample.task], inl (ClientError "ResourceNotFoundException"))
  /\ retry_loop DescribeExample.task 3 DescribeExample.denied_once []
     = retry_loop DescribeExample.task 2 DescribeExample.denied_once
         (describe_call DescribeExample.task :: swallowed).
Proof.
  pose proof (retry_bounded_and_swallowed DescribeExample.task
                DescribeExample.always_denied) as (_ & _ & _ & _ & _ & X).
  pose proof (retry_bounded_and_swallowed DescribeExample.task
                DescribeExample.missing) as (_ & _ & O & _).
  pose proof (retry_bounded_and_swallowed DescribeExample.task
                DescribeExample.denied_once) as (_ & _ & _ & T & _).
  split; [|split].
  - apply X. intros h. exists DescribeExample.denied. split; reflexivity.
  - apply (O [] 2); reflexivity.
  - apply (T [] 2 DescribeExample.denied); reflexivity.
Defined.

(** The claim as the spec has it fails: with the transient error on every
    attempt the retry bound is exhausted, and the task does not fail; it
    completes with the output [None]. *)
Lemma exhausted_retry_counterexample :
  (forall h, exists e,
      DescribeExample.always_denied h (describe_call DescribeExample.task) = inl e
      /\ transient e = true)
  /\ attempts (calls (exec (run DescribeExample.task) DescribeExample.always_denied)) = 3
  /\ outcome (exec (run DescribeExample.task) DescribeExample.always_denied) = inr tt
  /\ ~ (exists e, outcome (exec (run DescribeExample.task) DescribeExample.always_denied)
                  = inl e).
Proof.
  split; [|split; [|split]].
  - intros h. exists DescribeExample.denied. split; reflexivity.
  - reflexivity.
  - reflexivity.
  - intros [e E]. discriminate E.
Qed.

End DescribeTheorems.

(** ** The helpers of the aws module *)

(** A helper that performs one call and checks the shape of the answer. *)
Ltac one_call :=
  eapply spec_bind;
  [ apply spec_perform
  | intros [] _; first [ now apply spec_ret | apply spec_raise ] ].

Section aws_specs.
Context (P : Call -> Prop).

Lemma get_parameters_for_stack_spec n :
  P (GetParametersForStack n) -> emits P (aws.get_parameters_for_stack n).
Proof. intros. unfold emits, aws.get_parameters_for_stack. now one_call. Qed.

Lemma get_stack_output_for_spec n :
  P (GetStackOutputFor n) -> emits P (aws.get_stack_output_for n).
Proof. intros. unfold emits, aws.get_stack_output_for. now one_call. Qed.

Lemma get_path_for_product_spec p q :
  P (GetPathForProduct p q) -> emits P (aws.get_path_for_product p q).
Proof. intros. unfold emits, aws.get_path_for_product. now one_call. Qed.

Lemma provision_product_with_plan_spec a s :
  P (ProvisionProductWithPlan a s) -> emits P (aws.provision_product_with_plan a s).
Proof. intros. unfold emits, aws.provision_product_with_plan. now one_call. Qed.

Lemma update_provisioned_product_spec a e :
  P (UpdateProvisionedProduct a e) -> emits P (aws.update_provisioned_product a e).
Proof. intros. unfold emits, aws.update_provisioned_product. now one_call. Qed.

Lemma provision_product_spec a s e :
  P (ProvisionProduct a s e) -> emits P (aws.provision_product a s e).
Proof. intros. unfold emits, aws.provision_product. now one_call. Qed.

Lemma scan_spec :
  P ScanProvisionedProductsSinglePage -> emits P aws.scan_provisioned_products_single_page.
Proof. intros. unfold emits, aws.scan_provisioned_products_single_page. now one_call. Qed.

End aws_specs.

(** The pre-check hands back a live resource only when it found one in an
    available-like status, and then it has terminated nothing. *)
Lemma precheck_live ln pid acc reg w h h1 id paid status :
  aws.terminate_if_status_is_not_available ln pid acc reg w h = (h1, inr (id, paid, status)) ->
  truthy id = true ->
  h1 = h ++ [ScanProvisionedProductsSinglePage]
  /\ exists r, w h ScanProvisionedProductsSinglePage = inr (RProvisionedProducts r).
Proof.
  unfold aws.terminate_if_status_is_not_available, aws.scan_provisioned_products_single_page.
  unfold_m. destruct (w h ScanProvisionedProductsSinglePage) as [e|[]]; try discriminate.
  destruct (aws.named ln l) as [r|]; [|intros [= <- <- <- <-]; discriminate].
  destruct (aws.available_like (pp_Status r)).
  - intros [= <- <- <- <-] _. eauto.
  - destruct (w _ (TerminateProvisionedProduct _)) as [e|?]; [discriminate|].
    intros [= <- <- <- <-]. discriminate.
Qed.

(** The pre-check only ever scans and terminates. *)
Lemma precheck_spec (P : Call -> Prop) ln pid acc reg :
  P ScanProvisionedProductsSinglePage ->
  (forall id, P (TerminateProvisionedProduct id)) ->
  emits P (aws.terminate_if_status_is_not_available ln pid acc reg).
Proof.
  intros HS HT. unfold emits, aws.terminate_if_status_is_not_available.
  eapply spec_bind; [now apply scan_spec|]. intros products _.
  destruct (aws.named ln products) as [r|]; [|now apply spec_ret].
  destruct (aws.available_like (pp_Status r)); [now apply spec_ret|].
  eapply spec_bind; [apply spec_perform, HT|]. intros _ _. now apply spec_ret.
Qed.

(** ** ProvisionProductTask: parameter resolution *)

Module ResolutionFacts.
Import ProvisionProductTask.

Lemma params_to_use_snoc l p all :
  params_to_use (l ++ [p]) all
  = <[ParameterKey p := resolve all p]> (params_to_use l all).
Proof. unfold params_to_use. now rewrite foldl_snoc. Qed.

Lemma params_to_use_dom l all :
  dom (params_to_use l all) = list_to_set (ParameterKey <$> l).
Proof.
  induction l as [|p l IH] using rev_ind.
  - unfold params_to_use. cbn. apply dom_empty_L.
  - rewrite params_to_use_snoc, dom_insert_L, IH, fmap_app, list_to_set_app_L.
    cbn. rewrite union_empty_r_L. apply (comm_L (∪)).
Qed.

Lemma params_to_use_undeclared l all k :
  k ∉ ParameterKey <$> l -> params_to_use l all !! k = None.
Proof.
  intros N. apply not_elem_of_dom. rewrite params_to_use_dom.
  now rewrite elem_of_list_to_set.
Qed.

(** The value of a declared key comes from its last declaration. *)
Lemma params_to_use_declared pre p post all :
  ParameterKey p ∉ ParameterKey <$> post ->
  params_to_use (pre ++ p :: post) all !! ParameterKey p = Some (resolve all p).
Proof.
  induction post as [|q post IH] using rev_ind; intros N.
  - now rewrite params_to_use_snoc, lookup_insert_eq.
  - rewrite fmap_app in N. cbn in N.
    apply not_elem_of_app in N as [N1 N2].
    apply not_elem_of_cons in N2 as [N2 _].
    replace (pre ++ p :: post ++ [q]) with ((pre ++ p :: post) ++ [q])
      by now rewrite <- app_assoc.
    rewrite params_to_use_snoc, lookup_insert_ne by done.
    now apply IH.
Qed.

End ResolutionFacts.

(** ** ProvisionProductTask: the run *)

Module ProvisionFacts.
Import ProvisionProductTask ResolutionFacts.

Lemma classify_resolved (P : Call -> Prop) (self : t) (i : inputs) :
  P ScanProvisionedProductsSinglePage ->
  (forall id, P (TerminateProvisionedProduct id)) ->
  (forall n, P (GetParametersForStack n)) ->
  spec P (fun l => resolved l
                   = params_to_use (provisioning_artifact_parameters i) (all_params i))
       (classify self i).
Proof.
  intros HS HT HG. unfold classify.
  eapply spec_bind; [now apply precheck_spec|]. intros [[id paid] status] _.
  eapply spec_bind with (Q := fun _ => True).
  - destruct (decide (paid = Some (version_id i))); [|now apply spec_ret].
    destruct (truthy id); [|now apply spec_ret].
    eapply spec_bind; [now apply get_parameters_for_stack_spec|]. intros m _.
    destruct (decide _); now apply spec_ret.
  - intros n _. now apply spec_ret.
Qed.

Lemma check_stack_status_spec (P : Call -> Prop) (self : t) id :
  (forall n, P (GetStackOutputFor n)) -> (forall m, P (Log WARNING m)) ->
  emits P (check_stack_status self id).
Proof.
  intros HG HW. unfold emits, check_stack_status.
  eapply spec_bind; [now apply get_stack_output_for_spec|]. intros s _.
  destruct (is_healthy (StackStatus s)); [|apply spec_raise].
  destruct (decide _); [now apply spec_emit|now apply spec_ret].
Qed.

Lemma provision_sends (self : t) (i : inputs) (l : locals) :
  emits (sends (resolved l)) (provision self i l).
Proof.
  unfold emits, provision.
  eapply spec_bind with (Q := fun _ => True).
  - destruct (truthy (provisioned_product_id l)); [|now apply spec_ret].
    apply check_stack_status_spec; intros ? ? [=].
  - intros _ _. destruct (truthy (provisioned_product_id l)).
    + unfold update_existing. destruct (should_use_product_plans self).
      * eapply spec_bind; [apply get_path_for_product_spec; intros ? [=]|].
        intros path _.
        eapply spec_bind; [apply provision_product_with_plan_spec|].
        { now intros ? [= <-]. }
        intros ? _. now apply spec_ret.
      * eapply spec_bind; [apply update_provisioned_product_spec|].
        { now intros ? [= <-]. }
        intros ? _. now apply spec_ret.
    + unfold provision_new.
      eapply spec_bind; [apply provision_product_spec|].
      { now intros ? [= <-]. }
      intros ? _. now apply spec_ret.
Qed.

Lemma put_matching_spec (P : Call -> Prop) (self : t) b outputs found :
  (forall n v ty o, P (PutParameterAndWait n v ty o)) ->
  emits P (put_matching self b outputs found).
Proof.
  intros HP. revert found.
  induction outputs as [|o outputs IH]; intros found; cbn [put_matching].
  - now apply spec_ret.
  - destruct (decide _); [|apply IH].
    eapply spec_bind; [apply spec_perform, HP|]. intros _ _. apply IH.
Qed.

Lemma publish_spec (P : Call -> Prop) (self : t) id :
  (forall n, P (GetStackOutputFor n)) ->
  (ssm_param_outputs self <> [] -> forall n v ty o, P (PutParameterAndWait n v ty o)) ->
  (forall o, P (WriteOutput o)) ->
  emits P (publish self id).
Proof.
  intros HG HP HW. unfold emits, publish.
  destruct (decide _); [|now apply spec_emit].
  eapply spec_bind; [now apply get_stack_output_for_spec|]. intros sd _.
  eapply spec_bind with (Q := fun _ => True).
  - apply spec_for_each. intros b Hb. unfold write_ssm_param_output.
    assert (ssm_param_outputs self <> []) as NE
      by (intros E; rewrite E in Hb; now apply elem_of_nil in Hb).
    eapply spec_bind; [apply put_matching_spec, HP, NE|].
    intros [] _; [now apply spec_ret|apply spec_raise].
  - intros _ _. now apply spec_emit.
Qed.

(** Every provision, update or plan call of a run carries the resolved map. *)
Lemma run_sends_resolved (self : t) (i : inputs) :
  emits (sends (params_to_use (provisioning_artifact_parameters i) (all_params i)))
        (run self i).
Proof.
  unfold emits, run.
  eapply spec_bind.
  { apply classify_resolved; intros; intros ? [=]. }
  intros l <-.
  eapply spec_bind with (Q := fun _ => True).
  - destruct (need_to_provision l); [apply provision_sends|now apply spec_ret].
  - intros id _. apply publish_spec; intros; intros ? [=].
Qed.

(** What [classify] compared when it found nothing to do. *)
Lemma classify_no_change (self : t) (i : inputs) w h h' l :
  classify self i w h = (h', inr l) ->
  need_to_provision l = false ->
  truthy (provisioned_product_id l) = true
  /\ provisioning_artifact_id l = Some (version_id i)
  /\ provisioned_product_status l <> Some "TAINTED"
  /\ h' = h ++ [ScanProvisionedProductsSinglePage;
                GetParametersForStack (stack_name self (provisioned_product_id l))]
  /\ w (h ++ [ScanProvisionedProductsSinglePage])
       (GetParametersForStack (stack_name self (provisioned_product_id l)))
     = inr (RParams (resolved l)).
Proof.
  unfold classify. unfold mbind at 1, M_bind at 1.
  destruct (aws.terminate_if_status_is_not_available _ _ _ _ w h)
    as [h1 [e|[[id paid] status]]] eqn:Pre; [discriminate|].
  cbn beta iota.
  destruct (decide (status = Some "TAINTED")) as [->|NT].
  { unfold mbind, M_bind.
    destruct (_ w h1) as [? [?|?]]; [discriminate|].
    unfold_m. intros [= <- <-]. discriminate. }
  destruct (decide (paid = Some (version_id i))) as [->|];
    [|unfold_m; intros [= <- <-]; discriminate].
  destruct (truthy id) eqn:T; [|unfold_m; intros [= <- <-]; discriminate].
  destruct (precheck_live _ _ _ _ _ _ _ _ _ _ Pre T) as [-> _].
  unfold aws.get_parameters_for_stack. unfold_m.
  destruct (w _ (GetParametersForStack _)) as [e|[]] eqn:G; try discriminate.
  destruct (decide _) as [->|]; intros [= <- <-]; try discriminate.
  cbn. rewrite <- app_assoc. repeat split; done.
Qed.

Lemma classify_converged (self : t) (i : inputs) w status :
  live_matches_desired self i w status ->
  exists id,
    truthy id = true /\
    classify self i w []
    = ([ScanProvisionedProductsSinglePage; GetParametersForStack (stack_name self id)],
       inr {| provisioned_product_id := id;
              provisioning_artifact_id := Some (version_id i);
              provisioned_product_status := status;
              resolved := params_to_use (provisioning_artifact_parameters i) (all_params i);
              need_to_provision := bool_decide (status = Some "TAINTED") |}).
Proof.
  intros (h1 & id & Pre & T & G). exists id. split; [done|].
  destruct (precheck_live _ _ _ _ _ _ _ _ _ _ Pre T) as [-> _].
  unfold classify. erewrite bind_ok by exact Pre. cbn beta iota.
  rewrite decide_True by done. rewrite T.
  unfold aws.get_parameters_for_stack. unfold_m. cbn [app] in *. rewrite G.
  rewrite decide_True by done.
  now destruct (decide (status = Some "TAINTED"));
    [rewrite bool_decide_eq_true_2|rewrite bool_decide_eq_false_2].
Qed.

End ProvisionFacts.

Module ResolutionTheorems.
Import ProvisionProductTask ResolutionFacts ProvisionFacts.

(** C6.  The resolved parameter map [params_to_use] has exactly the keys
    the provisioning artifact declares: a supplied key that is not declared
    is absent from it, and a declared key holds the supplied value when
    there is one and otherwise the default of its declaration (the last one,
    should a key be declared twice).  The classification compares the live
    stack parameters against this very map, and every provision, update or
    plan call of the run carries it. *)
Theorem resolved_parameters (self : t) (i : inputs) :
  let declared := ParameterKey <$> provisioning_artifact_parameters i in
  let m := params_to_use (provisioning_artifact_parameters i) (all_params i) in
  dom m = list_to_set declared
  /\ (forall k, k ∉ declared -> m !! k = None)
  /\ (forall pre p post,
        provisioning_artifact_parameters i = pre ++ p :: post ->
        ParameterKey p ∉ ParameterKey <$> post ->
        m !! ParameterKey p
        = Some (match all_params i !! ParameterKey p with
                | Some v => v
                | None => DefaultValue p
                end))
  /\ (forall w h h' l,
        classify self i w h = (h', inr l) ->
        resolved l = m
        /\ (need_to_provision l = false ->
            w (h ++ [ScanProvisionedProductsSinglePage])
              (GetParametersForStack (stack_name self (provisioned_product_id l)))
            = inr (RParams m)))
  /\ emits (sends m) (run self i).
Proof.
  cbn zeta. split; [apply params_to_use_dom|].
  split; [intros k; apply params_to_use_undeclared|].
  split; [intros pre p post -> N; now apply params_to_use_declared|].
  split; [|apply run_sends_resolved].
  intros w h h' l C.
  assert (resolved l
          = params_to_use (provisioning_artifact_parameters i) (all_params i)) as R.
  { pose proof (classify_resolved (fun _ => True) self i I (fun _ => I) (fun _ => I) w h)
      as (n & _ & _ & Q).
    apply Q. now rewrite C. }
  split; [exact R|]. intros N.
  destruct (classify_no_change _ _ _ _ _ _ C N) as (_ & _ & _ & _ & G).
  now rewrite <- R.
Qed.

(** The declared keys Foo and Bar are resolved (Foo from the supplied
    value, Bar from its default), the supplied key Undeclared is dropped,
    and the update of a drifted resource carries that map. *)
Lemma resolved_parameters_witness :
  params_to_use (provisioning_artifact_parameters ProvisionExample.inp)
                (all_params ProvisionExample.inp) !! "Undeclared" = None
  /\ params_to_use (provisioning_artifact_parameters ProvisionExample.inp)
                   (all_params ProvisionExample.inp) !! "Bar" = Some (Some "bar-default")
  /\ Forall (sends ProvisionExample.desired)
       (calls (exec (run ProvisionExample.spoke_task ProvisionExample.inp)
                    (ProvisionExample.drifted "CREATE_COMPLETE"))).
Proof.
  pose proof (resolved_parameters ProvisionExample.spoke_task ProvisionExample.inp)
    as (_ & U & D & _ & S).
  split; [|split].
  - apply U. vm_compute. intros H.
    repeat (apply elem_of_cons in H as [H|H]; [discriminate H|]).
    now apply elem_of_nil in H.
  - apply (D [ {| ParameterKey := "Foo"; DefaultValue := Some "dflt" |} ]
             {| ParameterKey := "Bar"; DefaultValue := Some "bar-default" |} []).
    + reflexivity.
    + cbn. apply not_elem_of_nil.
  - replace ProvisionExample.desired
      with (params_to_use (provisioning_artifact_parameters ProvisionExample.inp)
                          (all_params ProvisionExample.inp))
      by now vm_compute.
    exact (spec_exec _ _ _ _ S).
Defined.

End ResolutionTheorems.

Module StackGateTheorems.
Import ProvisionProductTask ProvisionFacts.

Lemma is_healthy_iff (stack_status : pyval) :
  is_healthy stack_status = true
  <-> stack_status = Some "UPDATE_COMPLETE"
      \/ stack_status = Some "CREATE_COMPLETE"
      \/ stack_status = Some "UPDATE_ROLLBACK_COMPLETE".
Proof.
  destruct stack_status as [s|]; cbn.
  - rewrite bool_decide_eq_true. unfold healthy.
    rewrite !elem_of_cons, elem_of_nil. split.
    + intros [->|[->|[->|[]]]]; auto.
    + intros [[= ->]|[[= ->]|[= ->]]]; auto.
  - split; [discriminate|]. now intros [|[|]].
Qed.

(** A run that found a live resource has so far only read. *)
Lemma classify_live_reads (self : t) (i : inputs) w h1 l :
  classify self i w [] = (h1, inr l) ->
  truthy (provisioned_product_id l) = true ->
  Forall (fun c => mutating c = false) h1.
Proof.
  unfold classify. unfold mbind at 1, M_bind at 1.
  destruct (aws.terminate_if_status_is_not_available _ _ _ _ w [])
    as [h0 [e|[[id paid] status]]] eqn:Pre; [discriminate|].
  cbn beta iota. intros C T.
  assert (truthy id = true /\ exists n, h1 = h0 ++ n /\ Forall (fun c => mutating c = false) n)
    as (T' & n & -> & F).
  { revert C. unfold mbind, M_bind.
    destruct (decide (paid = Some (version_id i))).
    - destruct (truthy id) eqn:T'.
      + unfold aws.get_parameters_for_stack. unfold_m.
        destruct (w h0 (GetParametersForStack _)) as [e'|[]]; try discriminate.
        destruct (decide _); intros [= <- <-]; (split; [done|]);
          eexists; (split; [reflexivity|]); now repeat constructor.
      + unfold_m. intros [= <- <-]. cbn in T. congruence.
    - unfold_m. intros [= <- <-]. split; [done|].
      exists []. rewrite app_nil_r. now split. }
  destruct (precheck_live _ _ _ _ _ _ _ _ _ _ Pre T') as [-> _].
  rewrite Forall_app. split; [|done]. now repeat constructor.
Qed.

Lemma check_stack_status_eq (self : t) id w h stack :
  w h (GetStackOutputFor (stack_name self id)) = inr (RStack stack) ->
  check_stack_status self id w h
  = if is_healthy (StackStatus stack) then
      if decide (StackStatus stack = Some "UPDATE_ROLLBACK_COMPLETE")
      then (h ++ [GetStackOutputFor (stack_name self id);
                  Log WARNING (rollback_warning self id (StackStatus stack))],
            inr tt)
      else (h ++ [GetStackOutputFor (stack_name self id)], inr tt)
    else (h ++ [GetStackOutputFor (stack_name self id)],
          inl (unhealthy_error self (StackStatus stack))).
Proof.
  intros G. unfold check_stack_status, aws.get_stack_output_for. unfold_m.
  rewrite G. destruct (is_healthy _); [|reflexivity].
  destruct (decide _); [|reflexivity]. now rewrite <- app_assoc.
Qed.

(** C7.  When the run has found a live provisioned resource and an update
    is needed, it reads the status of the underlying stack before anything
    else; up to and including that read it has issued no mutating call.
    The status is healthy exactly when it is UPDATE_COMPLETE,
    CREATE_COMPLETE or UPDATE_ROLLBACK_COMPLETE.  With any other status the
    run raises there and then, so the whole run mutates nothing.  With
    UPDATE_ROLLBACK_COMPLETE a warning is logged and the update goes ahead;
    with the other two healthy statuses the update goes ahead without a
    warning. *)
Theorem stack_status_gate (self : t) (i : inputs) (w : World)
    (h1 : list Call) (l : locals) (stack : StackDetails) :
  classify self i w [] = (h1, inr l) ->
  need_to_provision l = true ->
  truthy (provisioned_product_id l) = true ->
  w h1 (GetStackOutputFor (stack_name self (provisioned_product_id l)))
  = inr (RStack stack) ->
  let gate := GetStackOutputFor (stack_name self (provisioned_product_id l)) in
  let status := StackStatus stack in
  Forall (fun c => mutating c = false) (h1 ++ [gate])
  /\ (is_healthy status = true
      <-> status = Some "UPDATE_COMPLETE" \/ status = Some "CREATE_COMPLETE"
          \/ status = Some "UPDATE_ROLLBACK_COMPLETE")
  /\ (is_healthy status = false ->
      exec (run self i) w = (h1 ++ [gate], inl (unhealthy_error self status))
      /\ Forall (fun c => mutating c = false) (calls (exec (run self i) w)))
  /\ (status = Some "UPDATE_ROLLBACK_COMPLETE" ->
      exec (run self i) w
      = (update_existing self i l ≫= publish self) w
          (h1 ++ [gate; Log WARNING (rollback_warning self (provisioned_product_id l) status)]))
  /\ (status = Some "UPDATE_COMPLETE" \/ status = Some "CREATE_COMPLETE" ->
      exec (run self i) w = (update_existing self i l ≫= publish self) w (h1 ++ [gate])).
Proof.
  intros C N T G gate status.
  assert (Forall (fun c => mutating c = false) (h1 ++ [gate])) as F.
  { rewrite Forall_app.
    split; [exact (classify_live_reads _ _ _ _ _ C T)|now repeat constructor]. }
  assert (exec (run self i) w
          = (check_stack_status self (provisioned_product_id l) ≫=
               fun _ => update_existing self i l ≫= publish self) w h1) as R.
  { unfold exec, run. erewrite bind_ok by exact C. rewrite N.
    unfold provision. rewrite T. unfold mbind, M_bind.
    destruct (check_stack_status _ _ w h1) as [h2 [e|[]]]; reflexivity. }
  pose proof (check_stack_status_eq self _ w h1 stack G) as K.
  fold gate status in K.
  split; [exact F|]. split; [apply is_healthy_iff|].
  split; [|split].
  - intros U. rewrite U in K. rewrite R.
    erewrite bind_err by exact K. split; [reflexivity|exact F].
  - intros E. rewrite (proj2 (is_healthy_iff status)) in K by auto.
    rewrite decide_True in K by done. rewrite R.
    now erewrite bind_ok by exact K.
  - intros E. rewrite (proj2 (is_healthy_iff status)) in K by (destruct E; auto).
    rewrite decide_False in K by (destruct E as [-> | ->]; discriminate).
    rewrite R. now erewrite bind_ok by exact K.
Qed.

(** A drifted resource on a stack in ROLLBACK_FAILED: the run reads and
    raises; on a stack in UPDATE_ROLLBACK_COMPLETE: it warns and updates. *)
Lemma stack_status_gate_witness :
  exec (run ProvisionExample.spoke_task ProvisionExample.inp)
       (ProvisionExample.drifted "ROLLBACK_FAILED")
  = ([ScanProvisionedProductsSinglePage;
      GetParametersForStack "SC-111111111111-pp-9";
      GetStackOutputFor "SC-111111111111-pp-9"],
     inl (Exception_
            "[L1-111111111111-us-east-1] current cfn stack_status is ROLLBACK_FAILED"))
  /\ calls (exec (run ProvisionExample.spoke_task ProvisionExample.inp)
                 (ProvisionExample.drifted "UPDATE_ROLLBACK_COMPLETE"))
     = [ScanProvisionedProductsSinglePage;
        GetParametersForStack "SC-111111111111-pp-9";
        GetStackOutputFor "SC-111111111111-pp-9";
        Log WARNING
          "[L1-111111111111-us-east-1] SC-111111111111-pp-9 has a status of UPDATE_ROLLBACK_COMPLETE.  This may need manual resolution.";
        UpdateProvisionedProduct
          (provision_args ProvisionExample.spoke_task ProvisionExample.inp "networking"
             ProvisionExample.desired) "spoke";
        WriteOutput (OutProvision (params_for_results_display ProvisionExample.spoke_task))].
Proof.
  pose (l := {| provisioned_product_id := Some "pp-9";
                provisioning_artifact_id := Some "pa-2";
                provisioned_product_status := Some "AVAILABLE";
                resolved := ProvisionExample.desired;
                need_to_provision := true |}).
  pose (h1 := [ScanProvisionedProductsSinglePage;
               GetParametersForStack "SC-111111111111-pp-9"]).
  split.
  - assert (classify ProvisionExample.spoke_task ProvisionExample.inp
              (ProvisionExample.drifted "ROLLBACK_FAILED") [] = (h1, inr l)) as C
      by now vm_compute.
    pose proof (stack_status_gate _ _ _ _ _ (ProvisionExample.stack "ROLLBACK_FAILED")
                  C eq_refl eq_refl eq_refl) as (_ & _ & U & _).
    exact (proj1 (U eq_refl)).
  - assert (classify ProvisionExample.spoke_task ProvisionExample.inp
              (ProvisionExample.drifted "UPDATE_ROLLBACK_COMPLETE") [] = (h1, inr l)) as C
      by now vm_compute.
    pose proof (stack_status_gate _ _ _ _ _
                  (ProvisionExample.stack "UPDATE_ROLLBACK_COMPLETE")
                  C eq_refl eq_refl eq_refl) as (_ & _ & _ & W & _).
    rewrite (W eq_refl). now vm_compute.
Defined.

End StackGateTheorems.

Module OutputBindingTheorems.
Import ProvisionProductTask ProvisionFacts.

Lemma put_matching_none (self : t) b outputs found w h :
  (forall o, o ∈ outputs -> OutputKey o <> stack_output b) ->
  put_matching self b outputs found w h = (h, inr found).
Proof.
  induction outputs as [|o outputs IH]; intros N; cbn [put_matching].
  - reflexivity.
  - rewrite decide_False by (apply N; now left).
    apply IH. intros o' I'. apply N. now right.
Qed.

Lemma put_matching_unique (self : t) b outputs o w : forall found h,
  NoDup (OutputKey <$> outputs) ->
  o ∈ outputs ->
  OutputKey o = stack_output b ->
  put_matching self b outputs found w h
  = (h ++ [put_call self b o],
     match w h (put_call self b o) with
     | inl e => inl e
     | inr _ => inr true
     end).
Proof.
  induction outputs as [|o' outputs IH]; intros found h D I K.
  - now apply elem_of_nil in I.
  - cbn [put_matching]. rewrite fmap_cons in D. apply NoDup_cons in D as [D1 D2].
    apply elem_of_cons in I as [->|I].
    + rewrite decide_True by done. unfold_m.
      destruct (w h (put_call self b o')) as [e|r]; [reflexivity|].
      apply put_matching_none. intros o I' K'. apply D1.
      rewrite K, <- K'. now apply list_elem_of_fmap_2.
    + rewrite decide_False; [now apply IH|].
      intros K'. apply D1. rewrite K', <- K. now apply list_elem_of_fmap_2.
Qed.

Lemma write_no_match (self : t) sd b w h :
  (forall o, o ∈ Outputs sd -> OutputKey o <> stack_output b) ->
  write_ssm_param_output self sd b w h = (h, inl (no_match_error self b)).
Proof.
  intros N. unfold write_ssm_param_output.
  now erewrite bind_ok by (now apply put_matching_none).
Qed.




Lemma run_before_publish_fails (self : t) (i : inputs) w h h1 e :
  before_publish self i w h = (h1, inl e) ->
  run self i w h = (h1, inl e).
Proof.
  unfold run, before_publish, mbind, M_bind.
  destruct (classify self i w h) as [h0 [e0|l]]; [now intros [= -> ->]|].
  destruct ((if need_to_provision l then provision self i l
             else mret (provisioned_product_id l)) w h0) as [h2 [e0|id']];
    [|discriminate].
  now intros [= -> ->].
Qed.

Lemma matches_iff (b : SsmParamOutput) (outputs : list StackOutput) :
  existsb (matches b) outputs = true
  <-> exists o, o ∈ outputs /\ OutputKey o = stack_output b.
Proof.
  rewrite existsb_exists. unfold matches. split.
  - intros (o & I & E). exists o. apply bool_decide_eq_true in E.
    split; [now apply list_elem_of_In|done].
  - intros (o & I & E). exists o.
    split; [now apply list_elem_of_In|now apply bool_decide_eq_true].
Qed.

(** With a parameter store that accepts the puts, the inner loop puts one
    parameter per stack output of the binding's key, in their order. *)
Lemma put_matching_accepted (self : t) b w :
  accepts_puts w ->
  forall outputs found h,
    put_matching self b outputs found w h
    = (h ++ (put_call self b <$> List.filter (matches b) outputs),
       inr (found || existsb (matches b) outputs)).
Proof.
  intros A. induction outputs as [|o outputs IH]; intros found h;
    cbn [put_matching List.filter existsb].
  - cbn. now rewrite app_nil_r, orb_false_r.
  - destruct (decide (OutputKey o = stack_output b)) as [E|N].
    + assert (matches b o = true) as ->
        by (unfold matches; now apply bool_decide_eq_true_2).
      destruct (A h (put_call self b o) eq_refl) as [r R].
      erewrite bind_ok by (rewrite perform_eq, R; reflexivity).
      rewrite IH. cbn [fmap list_fmap orb]. rewrite <- app_assoc.
      now destruct found.
    + assert (matches b o = false) as ->
        by (unfold matches; now apply bool_decide_eq_false_2).
      cbn [orb]. apply IH.
Qed.

(** Whatever the parameter store answers, a binding with a matching stack
    output has a put issued for it. *)
Lemma put_matching_puts (self : t) b w outputs :
  (exists o, o ∈ outputs /\ OutputKey o = stack_output b) ->
  forall found h, exists new,
    fst (put_matching self b outputs found w h) = h ++ new
    /\ Exists (fun c => is_put c = true) new.
Proof.
  induction outputs as [|o outputs IH]; intros (o' & Io & K) found h.
  - now apply elem_of_nil in Io.
  - cbn [put_matching].
    destruct (decide (OutputKey o = stack_output b)) as [E|N].
    + unfold mbind, M_bind. rewrite perform_eq.
      destruct (w h (put_call self b o)) as [e|r].
      * exists [put_call self b o]. split; [reflexivity|]. now left.
      * destruct (put_matching_spec (fun _ => True) self b outputs true
                    (fun _ _ _ _ => Logic.I) w (h ++ [put_call self b o]))
          as (n & F & _).
        exists (put_call self b o :: n). rewrite F, <- app_assoc.
        split; [reflexivity|]. now left.
    + apply elem_of_cons in Io as [->|Io]; [done|].
      apply IH. eauto.
Qed.

Lemma write_matched (self : t) sd b w h :
  accepts_puts w ->
  (exists o, o ∈ Outputs sd /\ OutputKey o = stack_output b) ->
  write_ssm_param_output self sd b w h = (h ++ puts_for self sd b, inr tt).
Proof.
  intros A Mt. unfold write_ssm_param_output.
  erewrite bind_ok by (now apply put_matching_accepted).
  cbn [orb]. now rewrite (proj2 (matches_iff b (Outputs sd)) Mt).
Qed.

Lemma for_each_matched (self : t) sd w :
  accepts_puts w ->
  forall bs h,
    (forall b, b ∈ bs -> exists o, o ∈ Outputs sd /\ OutputKey o = stack_output b) ->
    for_each bs (write_ssm_param_output self sd) w h
    = (h ++ flat_map (puts_for self sd) bs, inr tt).
Proof.
  intros A. induction bs as [|b bs IH]; intros h Mt; cbn [for_each flat_map].
  - unfold_m. now rewrite app_nil_r.
  - erewrite bind_ok by (apply write_matched; [done|apply Mt; now left]).
    rewrite IH by (intros b' I'; apply Mt; now right).
    now rewrite <- app_assoc.
Qed.


Lemma publish_reads (self : t) id sd w h (k : M unit) :
  w h (GetStackOutputFor (stack_name self id)) = inr (RStack sd) ->
  (aws.get_stack_output_for (stack_name self id) ≫= fun stack_details =>
     _ ← for_each (ssm_param_outputs self) (write_ssm_param_output self stack_details); k)
    w h
  = (_ ← for_each (ssm_param_outputs self) (write_ssm_param_output self sd); k)
      w (h ++ [GetStackOutputFor (stack_name self id)]).
Proof.
  intros G. erewrite bind_ok; [reflexivity|].
  unfold aws.get_stack_output_for. unfold_m. now rewrite G.
Qed.

(** The publishing phase from the hub, the puts being accepted: every
    binding has its puts when each has a match; the phase stops at the
    first binding without one. *)
Lemma publish_all (self : t) id sd w h :
  execution self = constants.EXECUTION_MODE_HUB ->
  w h (GetStackOutputFor (stack_name self id)) = inr (RStack sd) ->
  accepts_puts w ->
  (forall b, b ∈ ssm_param_outputs self ->
     exists o, o ∈ Outputs sd /\ OutputKey o = stack_output b) ->
  publish self id w h
  = (h ++ GetStackOutputFor (stack_name self id)
       :: flat_map (puts_for self sd) (ssm_param_outputs self)
       ++ [WriteOutput (OutProvision (params_for_results_display self))],
     inr tt).
Proof.
  intros H G A Mt. unfold publish. rewrite decide_True by done.
  rewrite (publish_reads self id sd w h _ G).
  erewrite bind_ok by (now apply for_each_matched).
  unfold_m. now rewrite <- !app_assoc.
Qed.


(** From the hub, a first declared binding with a matching stack output
    has a put issued, whatever the parameter store answers. *)
Lemma publish_puts_first (self : t) id sd w h b bs :
  execution self = constants.EXECUTION_MODE_HUB ->
  w h (GetStackOutputFor (stack_name self id)) = inr (RStack sd) ->
  ssm_param_outputs self = b :: bs ->
  (exists o, o ∈ Outputs sd /\ OutputKey o = stack_output b) ->
  exists new,
    fst (publish self id w h) = h ++ new
    /\ Exists (fun c => is_put c = true) new.
Proof.
  intros H G E Mt. unfold publish. rewrite decide_True by done.
  rewrite (publish_reads self id sd w h _ G). rewrite E.
  cbn [for_each].
  set (h1 := h ++ [GetStackOutputFor (stack_name self id)]).
  destruct (put_matching_puts self b w (Outputs sd) Mt false h1) as (n & F & X).
  assert (fst (write_ssm_param_output self sd b w h1) = h1 ++ n) as F1.
  { unfold write_ssm_param_output, mbind, M_bind.
    destruct (put_matching self b (Outputs sd) false w h1) as [h2 [e|[]]];
      cbn [fst] in *; now subst. }
  assert (emits (fun _ => True)
            (_ ← for_each bs (write_ssm_param_output self sd);
             write_output (OutProvision (params_for_results_display self)))) as R.
  { eapply spec_bind with (Q := fun _ => True).
    - apply spec_for_each. intros b' _. unfold write_ssm_param_output.
      eapply spec_bind; [now apply put_matching_spec|].
      intros [] _; [now apply spec_ret|apply spec_raise].
    - intros _ _. now apply spec_emit. }
  unfold mbind at 1 2, M_bind at 1 2.
  destruct (write_ssm_param_output self sd b w h1) as [h2 [e|[]]]; cbn [fst] in F1; subst h2.
  - exists (GetStackOutputFor (stack_name self id) :: n). unfold h1.
    rewrite <- app_assoc. split; [reflexivity|]. now right.
  - destruct (R w (h1 ++ n)) as (n2 & F2 & _).
    unfold mbind, M_bind in F2.
    exists (GetStackOutputFor (stack_name self id) :: n ++ n2).
    split.
    + etransitivity; [exact F2|]. unfold h1. now rewrite <- !app_assoc.
    + right. apply Exists_app. now left.
Qed.




End OutputBindingTheorems.

Module IdempotenceTheorems.
Import ProvisionProductTask ProvisionFacts.

(** The comparison of a live resource at the desired version whose stack
    parameters are the resolved ones: only the status can still ask for
    provisioning. *)
Lemma classify_live (self : t) (i : inputs) w h1 id status :
  aws.terminate_if_status_is_not_available
    (launch_name self) (product_id i) (account_id self) (region self) w []
  = (h1, inr (id, Some (version_id i), status)) ->
  truthy id = true ->
  w h1 (GetParametersForStack (stack_name self id))
  = inr (RParams (params_to_use (provisioning_artifact_parameters i) (all_params i))) ->
  classify self i w []
  = ([ScanProvisionedProductsSinglePage; GetParametersForStack (stack_name self id)],
     inr {| provisioned_product_id := id;
            provisioning_artifact_id := Some (version_id i);
            provisioned_product_status := status;
            resolved := params_to_use (provisioning_artifact_parameters i) (all_params i);
            need_to_provision := bool_decide (status = Some "TAINTED") |}).
Proof.
  intros Pre T G.
  destruct (precheck_live _ _ _ _ _ _ _ _ _ _ Pre T) as [-> _].
  unfold classify. erewrite bind_ok by exact Pre. cbn beta iota.
  rewrite decide_True by done. rewrite T.
  unfold aws.get_parameters_for_stack. unfold_m. cbn [app] in *. rewrite G.
  rewrite decide_True by done.
  now destruct (decide (status = Some "TAINTED"));
    [rewrite bool_decide_eq_true_2|rewrite bool_decide_eq_false_2].
Qed.

Lemma mutating_put (l : list Call) :
  Exists (fun c => is_put c = true) l -> ~ Forall (fun c => mutating c = false) l.
Proof.
  intros E F. apply Exists_exists in E as (c & I1 & P).
  rewrite Forall_forall in F. specialize (F c I1).
  destruct c; discriminate.
Qed.

(** C1 (as the code has it).  Let the pre-check hand back a live resource
    whose provisioning artifact is the desired version, and let the
    parameters of its stack be the resolved parameters.

    When the live status is not TAINTED, the run finds nothing to
    provision ([need_to_provision] is false) and issues no provision,
    update, plan or terminate call.  Outside hub execution mode it issues
    exactly the scan, the read of the stack parameters and the write of
    its output, so nothing is mutated.  In hub execution mode it goes on to
    read the stack outputs and takes the declared SSM outputs in turn: when
    each of them has a matching stack output and the parameter store
    accepts the puts, the run puts every one of them again (one put, with
    Overwrite, per matching stack output, in the order of declaration) and
    then writes its output; and the run is free of mutating calls exactly
    when no SSM output is declared or the first declared one has no
    matching stack output, in which case the run raises.

    When the live status is TAINTED, provisioning is needed although
    version and parameters match: the stack status is read and, when it is
    UPDATE_COMPLETE or CREATE_COMPLETE and plans are not in use, the update
    call is issued before the publishing phase. *)
Theorem converged_run (self : t) (i : inputs) (w : World) (h1 : list Call)
    (id status : pyval) :
  aws.terminate_if_status_is_not_available
    (launch_name self) (product_id i) (account_id self) (region self) w []
  = (h1, inr (id, Some (version_id i), status)) ->
  truthy id = true ->
  w h1 (GetParametersForStack (stack_name self id))
  = inr (RParams (params_to_use (provisioning_artifact_parameters i) (all_params i))) ->
  let compared :=
    [ScanProvisionedProductsSinglePage; GetParametersForStack (stack_name self id)] in
  let read := GetStackOutputFor (stack_name self id) in
  let written := WriteOutput (OutProvision (params_for_results_display self)) in
  let put b o :=
    PutParameterAndWait
      (PyStr.replace "${AWS::AccountId}" (account_id self)
         (PyStr.replace "${AWS::Region}" (region self) (param_name b)))
      (OutputValue o) (default "String" (param_type b)) true in
  let puts sd b :=
    put b <$> List.filter (fun o => bool_decide (OutputKey o = stack_output b)) (Outputs sd) in
  let matched sd b := exists o, o ∈ Outputs sd /\ OutputKey o = stack_output b in
  let update :=
    UpdateProvisionedProduct
      (provision_args self i (portfolio self)
         (params_to_use (provisioning_artifact_parameters i) (all_params i)))
      (execution self) in
  (status <> Some "TAINTED" ->
   (exists l, classify self i w [] = (compared, inr l) /\ need_to_provision l = false)
   /\ Forall only_puts (calls (exec (run self i) w))
   /\ (execution self <> constants.EXECUTION_MODE_HUB ->
       exec (run self i) w = (compared ++ [written], inr tt))
   /\ (execution self = constants.EXECUTION_MODE_HUB ->
       forall sd,
         w compared read = inr (RStack sd) ->
         (accepts_puts w ->
          (forall b, b ∈ ssm_param_outputs self -> matched sd b) ->
          exec (run self i) w
          = (compared ++ read :: flat_map (puts sd) (ssm_param_outputs self) ++ [written],
             inr tt))
         /\ (Forall (fun c => mutating c = false) (calls (exec (run self i) w))
             <-> forall b, head (ssm_param_outputs self) = Some b -> ~ matched sd b)))
  /\ (status = Some "TAINTED" ->
      (exists l, classify self i w [] = (compared, inr l) /\ need_to_provision l = true)
      /\ (should_use_product_plans self = false ->
          forall stack updated,
            w compared read = inr (RStack stack) ->
            StackStatus stack = Some "UPDATE_COMPLETE"
            \/ StackStatus stack = Some "CREATE_COMPLETE" ->
            w (compared ++ [read]) update = inr (RStr updated) ->
            exec (run self i) w
            = publish self (Some updated) w (compared ++ [read; update]))).
Proof.
  intros Pre T G compared read written put puts matched update.
  pose proof (classify_live self i w h1 id status Pre T G) as C. fold compared in C.
  split.
  - intros NT. rewrite bool_decide_eq_false_2 in C by done.
    assert (exec (run self i) w = publish self id w compared) as R.
    { unfold exec, run. erewrite bind_ok by exact C. cbn [need_to_provision].
      now erewrite bind_ok by reflexivity. }
    split; [eauto|]. rewrite R.
    split; [|split].
    + unfold calls.
      destruct (publish_spec only_puts self id) with (w := w) (h := compared)
        as (n & -> & F & _).
      * intros n [=].
      * intros _ n v ty o _. reflexivity.
      * intros o [=].
      * rewrite Forall_app. split; [|done]. repeat constructor; intros [=].
    + intros NH. unfold publish. now rewrite decide_False by done.
    + intros H sd S. split.
      * intros A Mt.
        now rewrite (OutputBindingTheorems.publish_all self id sd w compared H S A Mt).
      * destruct (ssm_param_outputs self) as [|b bs] eqn:E.
        { split; [intros _ b [=]|]. intros _. unfold publish.
          rewrite decide_True by done.
          rewrite (OutputBindingTheorems.publish_reads self id sd w compared _ S).
          rewrite E. unfold calls. cbn. now repeat constructor. }
        split.
        -- intros F b' [= <-] Mt.
           destruct (OutputBindingTheorems.publish_puts_first self id sd w compared b bs
                       H S E Mt) as (n & Fn & X).
           unfold calls in F. rewrite Fn in F.
           apply Forall_app in F as [_ F].
           exact (mutating_put n X F).
        -- intros N. specialize (N b eq_refl).
           assert (forall o, o ∈ Outputs sd -> OutputKey o <> stack_output b) as N'
             by (intros o I K; apply N; now exists o).
           unfold publish. rewrite decide_True by done.
           rewrite (OutputBindingTheorems.publish_reads self id sd w compared _ S).
           rewrite E. cbn [for_each].
           erewrite bind_err; cycle 1.
           { erewrite bind_err; [reflexivity|].
             now apply OutputBindingTheorems.write_no_match. }
           unfold calls. cbn. now repeat constructor.
  - intros ->. rewrite bool_decide_eq_true_2 in C by done.
    split; [eauto|]. intros Pl stack updated S Hs U.
    unfold exec, run. erewrite bind_ok by exact C. cbn [need_to_provision].
    unfold provision. cbn [provisioned_product_id]. rewrite T.
    pose proof (StackGateTheorems.check_stack_status_eq self id w compared stack S) as K.
    rewrite (proj2 (StackGateTheorems.is_healthy_iff (StackStatus stack))) in K
      by (destruct Hs; auto).
    rewrite decide_False in K by (destruct Hs as [-> | ->]; discriminate).
    erewrite bind_ok; cycle 1.
    { erewrite bind_ok by exact K. unfold update_existing. rewrite Pl.
      unfold aws.update_provisioned_product. cbn [resolved]. unfold_m.
      fold read update. rewrite U. reflexivity. }
    fold read. now rewrite <- app_assoc.
Qed.

(** A converged launch run in the spoke: scan, read, write, and nothing
    else.  The same launch run from the hub: the declared output is put
    again, so the run mutates. *)
Lemma converged_run_witness :
  exec (run ProvisionExample.spoke_task ProvisionExample.inp)
       (ProvisionExample.converged "AVAILABLE" "CREATE_COMPLETE")
  = ([ScanProvisionedProductsSinglePage;
      GetParametersForStack "SC-111111111111-pp-9";
      WriteOutput (OutProvision (params_for_results_display ProvisionExample.spoke_task))],
     inr tt)
  /\ ~ Forall (fun c => mutating c = false)
         (calls (exec (run ProvisionExample.hub_task ProvisionExample.inp)
                      (ProvisionExample.converged "AVAILABLE" "CREATE_COMPLETE"))).
Proof.
  assert (Some "AVAILABLE" <> Some "TAINTED") as NT by discriminate.
  split.
  - pose proof (converged_run ProvisionExample.spoke_task ProvisionExample.inp
                  (ProvisionExample.converged "AVAILABLE" "CREATE_COMPLETE")
                  [ScanProvisionedProductsSinglePage] (Some "pp-9") (Some "AVAILABLE")
                  eq_refl eq_refl eq_refl) as (Z & _).
    destruct (Z NT) as (_ & _ & S & _). apply S. discriminate.
  - pose proof (converged_run ProvisionExample.hub_task ProvisionExample.inp
                  (ProvisionExample.converged "AVAILABLE" "CREATE_COMPLETE")
                  [ScanProvisionedProductsSinglePage] (Some "pp-9") (Some "AVAILABLE")
                  eq_refl eq_refl eq_refl) as (Z & _).
    destruct (Z NT) as (_ & _ & _ & H).
    destruct (H eq_refl (ProvisionExample.stack "CREATE_COMPLETE") eq_refl) as (_ & Iff).
    intros F. apply (proj1 Iff F ProvisionExample.vpc_id_output eq_refl).
    eexists. split; [now left|reflexivity].
Defined.

(** The claim as the spec has it fails twice.  From the hub, a converged
    launch with a declared SSM output puts the parameter again; and a
    converged launch whose live status is TAINTED is updated. *)
Lemma converged_run_counterexample :
  live_matches_desired ProvisionExample.hub_task ProvisionExample.inp
    (ProvisionExample.converged "AVAILABLE" "CREATE_COMPLETE") (Some "AVAILABLE")
  /\ calls (exec (run ProvisionExample.hub_task ProvisionExample.inp)
                 (ProvisionExample.converged "AVAILABLE" "CREATE_COMPLETE"))
     = [ScanProvisionedProductsSinglePage;
        GetParametersForStack "SC-111111111111-pp-9";
        GetStackOutputFor "SC-111111111111-pp-9";
        PutParameterAndWait "/networking/us-east-1/111111111111/vpc-id" "vpc-0abc"
          "String" true;
        WriteOutput (OutProvision (params_for_results_display ProvisionExample.hub_task))]
  /\ ~ Forall (fun c => mutating c = false)
         (calls (exec (run ProvisionExample.hub_task ProvisionExample.inp)
                      (ProvisionExample.converged "AVAILABLE" "CREATE_COMPLETE")))
  /\ live_matches_desired ProvisionExample.spoke_task ProvisionExample.inp
       (ProvisionExample.converged "TAINTED" "CREATE_COMPLETE") (Some "TAINTED")
  /\ calls (exec (run ProvisionExample.spoke_task ProvisionExample.inp)
                 (ProvisionExample.converged "TAINTED" "CREATE_COMPLETE"))
     = [ScanProvisionedProductsSinglePage;
        GetParametersForStack "SC-111111111111-pp-9";
        GetStackOutputFor "SC-111111111111-pp-9";
        UpdateProvisionedProduct
          (provision_args ProvisionExample.spoke_task ProvisionExample.inp "networking"
             ProvisionExample.desired) "spoke";
        WriteOutput (OutProvision (params_for_results_display ProvisionExample.spoke_task))]
  /\ ~ Forall (fun c => mutating c = false)
         (calls (exec (run ProvisionExample.spoke_task ProvisionExample.inp)
                      (ProvisionExample.converged "TAINTED" "CREATE_COMPLETE"))).
Proof.
  assert (forall l : list Call,
            Exists (fun c => mutating c = true) l ->
            ~ Forall (fun c => mutating c = false) l) as X.
  { intros l E F. apply Exists_exists in E as (c & I1 & M1).
    rewrite Forall_forall in F. specialize (F c I1). congruence. }
  split; [exists [ScanProvisionedProductsSinglePage], (Some "pp-9");
          split; [|split]; now vm_compute|].
  split; [now vm_compute|].
  split; [apply X; vm_compute; do 3 right; now left|].
  split; [exists [ScanProvisionedProductsSinglePage], (Some "pp-9");
          split; [|split]; now vm_compute|].
  split; [now vm_compute|].
  apply X. vm_compute. do 3 right. now left.
Qed.

End IdempotenceTheorems.

(** ** ProvisionProductDryRunTask *)

Module DryRunTheorems.
Import ProvisionProductTask ProvisionProductDryRunTask.





End DryRunTheorems.

(** ** Graph construction *)

Module GraphFacts.

Lemma edges_fail manifest (ds : list DependsOn) (d : DependsOn) :
  d ∈ ds ->
  (exists e, LaunchForSpokeExecutionTask.edge manifest d = inl e) ->
  exists e, LaunchForSpokeExecutionTask.edges manifest ds = inl e.
Proof.
  induction ds as [|d' ds IH]; intros I [e E].
  - now apply elem_of_nil in I.
  - cbn [LaunchForSpokeExecutionTask.edges]. unfold mbind, exn_bind.
    destruct (LaunchForSpokeExecutionTask.edge manifest d') as [e'|ts] eqn:E'; [eauto|].
    apply elem_of_cons in I as [->|I]; [congruence|].
    destruct (IH I) as [e'' ->]; eauto.
Qed.

Lemma edge_mismatch manifest (d : DependsOn) :
  dep_type d ∈ LaunchForSpokeExecutionTask.supported ->
  dep_affinity d <> dep_type d ->
  exists msg, LaunchForSpokeExecutionTask.edge manifest d = inl (Exception_ msg).
Proof.
  unfold LaunchForSpokeExecutionTask.supported, LaunchForSpokeExecutionTask.edge.
  rewrite !elem_of_cons, elem_of_nil. intros S N.
  destruct S as [S|[S|[S|[S|[S|[]]]]]]; rewrite S in *;
    repeat (first [ rewrite decide_True by reflexivity
                  | rewrite decide_False by discriminate
                  | rewrite (decide_False _ _ N) ]);
    unfold LaunchForSpokeExecutionTask.affinity_error; eauto.
Qed.

Lemma edge_ignored manifest (d : DependsOn) :
  dep_type d ∉ LaunchForSpokeExecutionTask.supported ->
  LaunchForSpokeExecutionTask.edge manifest d = inr [].
Proof.
  unfold LaunchForSpokeExecutionTask.supported, LaunchForSpokeExecutionTask.edge.
  rewrite !not_elem_of_cons. intros (N1 & N2 & N3 & N4 & N5 & _).
  now rewrite !decide_False by done.
Qed.

(** *** Building the tasks of a launch *)

Lemma instantiate_inr klass task t :
  instantiate klass task = inr t -> t = Provisioning_ klass task.
Proof.
  unfold instantiate. destruct (bool_decide _); [discriminate|].
  unfold mbind, exn_bind.
  destruct (luigi.get_param_values _ _ _); [discriminate|]. now intros [= <-].
Qed.

Lemma instantiate_all_app klass l1 l2 :
  instantiate_all klass (l1 ++ l2)
  = match instantiate_all klass l1 with
    | inl e => inl e
    | inr ts1 =>
        match instantiate_all klass l2 with
        | inl e => inl e
        | inr ts2 => inr (ts1 ++ ts2)
        end
    end.
Proof.
  induction l1 as [|task l1 IH]; cbn [app instantiate_all].
  - now destruct (instantiate_all klass l2).
  - unfold mbind, exn_bind. destruct (instantiate klass task); [reflexivity|].
    rewrite IH. destruct (instantiate_all klass l1); [reflexivity|].
    now destruct (instantiate_all klass l2).
Qed.

(** The loop returns exactly when every task can be built, and then with
    one task per dict, in order. *)
Lemma instantiate_all_inr klass tasks ts :
  instantiate_all klass tasks = inr ts
  <-> ts = Provisioning_ klass <$> tasks
      /\ Forall (fun task => instantiate klass task = inr (Provisioning_ klass task)) tasks.
Proof.
  revert ts. induction tasks as [|task tasks IH]; intros ts; cbn [instantiate_all].
  - split; [now intros [= <-]|now intros [-> _]].
  - unfold mbind, exn_bind. split.
    + destruct (instantiate klass task) as [e|t] eqn:E; [discriminate|].
      destruct (instantiate_all klass tasks) as [e|rest] eqn:R; [discriminate|].
      intros [= <-]. pose proof (instantiate_inr _ _ _ E) as ->.
      destruct (proj1 (IH rest) eq_refl) as [-> F].
      split; [reflexivity|]. now constructor.
    + intros [-> F]. apply Forall_cons in F as [F1 F2]. rewrite F1.
      now rewrite (proj2 (IH _) (conj eq_refl F2)).
Qed.

(** The loop raises exactly the exception of the first task that cannot
    be built. *)
Lemma instantiate_all_inl klass tasks e :
  instantiate_all klass tasks = inl e
  <-> exists before task after,
        tasks = before ++ task :: after
        /\ Forall (fun task => instantiate klass task = inr (Provisioning_ klass task)) before
        /\ instantiate klass task = inl e.
Proof.
  split.
  - induction tasks as [|task tasks IH]; cbn [instantiate_all]; [discriminate|].
    unfold mbind, exn_bind.
    destruct (instantiate klass task) as [e'|t] eqn:E.
    + intros [= ->]. now exists [], task, tasks.
    + pose proof (instantiate_inr _ _ _ E) as ->.
      destruct (instantiate_all klass tasks) as [e'|rest]; [|discriminate].
      intros [= ->]. destruct (IH eq_refl) as (before & task' & after & -> & F & K).
      exists (task :: before), task', after. repeat split; [|done]. now constructor.
  - intros (before & task & after & -> & F & K).
    rewrite instantiate_all_app.
    rewrite (proj2 (instantiate_all_inr klass before _) (conj eq_refl F)).
    cbn [instantiate_all]. unfold mbind, exn_bind. now rewrite K.
Qed.

Lemma klass_of_status (self : LaunchForRegionTask.t) manifest launch :
  launches manifest !! LaunchForRegionTask.launch_name self = Some launch ->
  let st := default constants.PROVISIONED (l_status launch) in
  LaunchForRegionTask.get_klass_for_provisioning self manifest
  = if decide (st = constants.PROVISIONED) then
      inr (if LaunchForRegionTask.is_dry_run self
           then KProvisionProductDryRunTask else KProvisionProductTask)
    else if decide (st = constants.TERMINATED) then
      inr (if LaunchForRegionTask.is_dry_run self
           then KTerminateProductDryRunTask else KTerminateProductTask)
    else inl (Exception_ ("Unknown status: " +:+ st)).
Proof.
  intros L st. unfold LaunchForRegionTask.get_klass_for_provisioning,
    LaunchForRegionTask.status, get_launch.
  rewrite L. unfold mbind, exn_bind. fold st.
  destruct (LaunchForRegionTask.is_dry_run self);
    destruct (decide (st = constants.PROVISIONED)) as [E|N1].
  - now rewrite decide_True by congruence.
  - rewrite decide_False by congruence.
    destruct (decide (st = constants.TERMINATED)) as [E|N2].
    + now rewrite decide_True by congruence.
    + now rewrite decide_False by congruence.
  - now rewrite decide_True by congruence.
  - rewrite decide_False by congruence.
    destruct (decide (st = constants.TERMINATED)) as [E|N2].
    + now rewrite decide_True by congruence.
    + now rewrite decide_False by congruence.
Qed.

(** The region-bound dependencies, edge by edge. *)
Lemma these_dependencies_eq (self : LaunchForRegionTask.t) (ds : list DependsOn) :
  LaunchForRegionTask.these_dependencies self ds
  = (fun d => LaunchForRegionTask_ (dep_name d) (LaunchForRegionTask.region self))
      <$> List.filter
            (fun d => bool_decide (dep_type d = Some "launches"
                                   /\ dep_affinity d = Some "region")) ds.
Proof.
  unfold LaunchForRegionTask.these_dependencies.
  induction ds as [|d ds IH]; [reflexivity|].
  cbn [flat_map List.filter]. rewrite IH.
  destruct (decide (dep_type d = Some LaunchForRegionTask.section_name)) as [E1|N1].
  - destruct (decide (dep_affinity d = Some "region")) as [E2|N2].
    + now rewrite bool_decide_eq_true_2 by done.
    + now rewrite bool_decide_eq_false_2 by (intros [_ ?]; done).
  - now rewrite bool_decide_eq_false_2 by (intros [? _]; done).
Qed.

(** [LaunchForRegionTask.requires] for a launch of the manifest, once the
    class is chosen. *)
Lemma region_requires_eq (self : LaunchForRegionTask.t) manifest launch klass :
  launches manifest !! LaunchForRegionTask.launch_name self = Some launch ->
  LaunchForRegionTask.get_klass_for_provisioning self manifest = inr klass ->
  LaunchForRegionTask.requires self manifest
  = match instantiate_all klass
            (get_tasks_for_launch_and_region manifest
               (LaunchForRegionTask.launch_name self) (LaunchForRegionTask.region self)) with
    | inl e => inl e
    | inr dependencies =>
        inr (dependencies,
             LaunchForRegionTask.these_dependencies self (l_depends_on launch))
    end.
Proof.
  intros L K. unfold LaunchForRegionTask.requires, get_launch. rewrite K, L.
  unfold mbind, exn_bind. now destruct (instantiate_all _ _).
Qed.

End GraphFacts.

Module GraphTheorems.
Import GraphFacts.

(** C5 (as the code has it).  [LaunchForSpokeExecutionTask.requires]
    raises, while the graph is built, for every depends_on edge whose type
    is one of launch, spoke-local-portfolio, assertion, code-build-run and
    lambda-invocation and whose affinity is not its type; in particular it
    rejects type "launch" with affinity "region".  An edge of any other
    type is passed over there without an error.
    [LaunchForRegionTask.requires] never checks an affinity against a
    type.  For a launch of the manifest it raises only for an unknown
    status or when a task of the launch cannot be built, never because of
    an edge: once a class is chosen and every task of the launch can be
    built, it returns whatever the edges are.  When it returns, its
    region-bound dependencies are one LaunchForRegionTask, of the name of
    the edge and the region of the task itself, for each edge of type
    "launches" and affinity "region", in the order of the edges; every
    other edge is passed over. *)
Theorem affinity_validation (manifest : Manifest) :
  (forall d,
     dep_type d ∈ LaunchForSpokeExecutionTask.supported ->
     dep_affinity d <> dep_type d ->
     exists msg, LaunchForSpokeExecutionTask.edge manifest d = inl (Exception_ msg))
  /\ (forall self launch d,
        launches manifest !! LaunchForSpokeExecutionTask.launch_name self = Some launch ->
        d ∈ l_depends_on launch ->
        dep_type d ∈ LaunchForSpokeExecutionTask.supported ->
        dep_affinity d <> dep_type d ->
        exists e, LaunchForSpokeExecutionTask.requires self manifest = inl e)
  /\ (forall name,
        LaunchForSpokeExecutionTask.edge manifest
          {| dep_type := Some "launch"; dep_affinity := Some "region"; dep_name := name |}
        = inl (Exception_ "Could can only depend on a launch using affinity launch when using spoke execution mode"))
  /\ (forall d,
        dep_type d ∉ LaunchForSpokeExecutionTask.supported ->
        LaunchForSpokeExecutionTask.edge manifest d = inr [])
  /\ (forall self launch,
        launches manifest !! LaunchForRegionTask.launch_name self = Some launch ->
        let tasks :=
          get_tasks_for_launch_and_region manifest
            (LaunchForRegionTask.launch_name self) (LaunchForRegionTask.region self) in
        (forall e,
           LaunchForRegionTask.requires self manifest = inl e ->
           e = Exception_ ("Unknown status: "
                           +:+ default constants.PROVISIONED (l_status launch))
           \/ exists klass task, task ∈ tasks /\ instantiate klass task = inl e)
        /\ (forall klass,
              LaunchForRegionTask.get_klass_for_provisioning self manifest = inr klass ->
              Forall (fun task => instantiate klass task = inr (Provisioning_ klass task))
                     tasks ->
              exists these,
                LaunchForRegionTask.requires self manifest
                = inr (Provisioning_ klass <$> tasks, these))
        /\ (forall dependencies these,
              LaunchForRegionTask.requires self manifest = inr (dependencies, these) ->
              these
              = (fun d => LaunchForRegionTask_ (dep_name d) (LaunchForRegionTask.region self))
                  <$> List.filter
                        (fun d => bool_decide (dep_type d = Some "launches"
                                               /\ dep_affinity d = Some "region"))
                        (l_depends_on launch))).
Proof.
  split; [apply edge_mismatch|].
  split; [|split; [reflexivity|split; [apply edge_ignored|]]].
  - intros self launch d L I S N.
    unfold LaunchForSpokeExecutionTask.requires, get_launch. rewrite L.
    unfold mbind at 1, exn_bind at 1.
    eapply edges_fail; [exact I|].
    destruct (edge_mismatch manifest d S N) as [msg E]. eauto.
  - intros self launch L tasks.
    pose proof (klass_of_status self manifest launch L) as K. cbn zeta in K.
    split; [|split].
    + intros e R.
      destruct (LaunchForRegionTask.get_klass_for_provisioning self manifest)
        as [e'|klass] eqn:G.
      * left. unfold LaunchForRegionTask.requires in R. rewrite G in R.
        cbn in R. injection R as <-.
        repeat (destruct (decide _) in K); congruence.
      * right. rewrite (region_requires_eq self manifest launch klass L G) in R.
        fold tasks in R.
        destruct (instantiate_all klass tasks) as [e'|ts] eqn:A; [|discriminate].
        injection R as ->.
        apply instantiate_all_inl in A as (before & task & after & E & _ & F).
        exists klass, task. split; [|done].
        rewrite E. apply elem_of_app. right. now left.
    + intros klass G F.
      rewrite (region_requires_eq self manifest launch klass L G). fold tasks.
      rewrite (proj2 (instantiate_all_inr klass tasks _) (conj eq_refl F)). eauto.
    + intros dependencies these R.
      destruct (LaunchForRegionTask.get_klass_for_provisioning self manifest)
        as [e'|klass] eqn:G.
      * unfold LaunchForRegionTask.requires in R. rewrite G in R. discriminate.
      * rewrite (region_requires_eq self manifest launch klass L G) in R.
        destruct (instantiate_all _ _); [discriminate|].
        injection R as <- <-. apply these_dependencies_eq.
Qed.

(** In the spoke-execution task the edge of type launch with affinity
    region fails graph construction; an edge of an unknown type does not. *)
Lemma affinity_validation_witness :
  (exists e,
     LaunchForSpokeExecutionTask.requires GraphExample.spoke_execution
       (GraphExample.manifest "spoke" [GraphExample.on_launch_by_region]) = inl e)
  /\ LaunchForSpokeExecutionTask.edge
       (GraphExample.manifest "spoke" [GraphExample.on_stack]) GraphExample.on_stack
     = inr [].
Proof.
  pose proof (affinity_validation
                (GraphExample.manifest "spoke" [GraphExample.on_launch_by_region]))
    as (_ & R & _).
  pose proof (affinity_validation (GraphExample.manifest "spoke" [GraphExample.on_stack]))
    as (_ & _ & _ & G & _).
  split.
  - apply (R GraphExample.spoke_execution
             (GraphExample.launch "spoke" [GraphExample.on_launch_by_region])
             GraphExample.on_launch_by_region).
    + now vm_compute.
    + now left.
    + now left.
    + discriminate.
  - apply G. unfold LaunchForSpokeExecutionTask.supported.
    rewrite !not_elem_of_cons. repeat split; try discriminate. apply not_elem_of_nil.
Defined.

(** The claim as the spec has it fails: an edge whose affinity is not its
    type passes graph construction without an error.  The very edge of type
    "launch" with affinity "region" is passed over by
    [LaunchForRegionTask.requires]; the edge of type "launches" with
    affinity "region" is accepted there and becomes a region-bound
    dependency; and in [LaunchForSpokeExecutionTask.requires] an edge of
    type "stack" with affinity "launch" is passed over. *)
Lemma affinity_validation_counterexample :
  dep_affinity GraphExample.on_launch_by_region <> dep_type GraphExample.on_launch_by_region
  /\ LaunchForRegionTask.requires GraphExample.for_region
       (GraphExample.manifest "hub" [GraphExample.on_launch_by_region])
     = inr ([Provisioning_ KProvisionProductTask
               (GraphExample.task "L1" "111111111111" "eu-west-1")],
            [])
  /\ dep_affinity GraphExample.on_launches_by_region
     <> dep_type GraphExample.on_launches_by_region
  /\ LaunchForRegionTask.requires GraphExample.for_region
       (GraphExample.manifest "hub" [GraphExample.on_launches_by_region])
     = inr ([Provisioning_ KProvisionProductTask
               (GraphExample.task "L1" "111111111111" "eu-west-1")],
            [LaunchForRegionTask_ "L0" "eu-west-1"])
  /\ dep_affinity GraphExample.on_stack <> dep_type GraphExample.on_stack
  /\ LaunchForSpokeExecutionTask.requires GraphExample.spoke_execution
       (GraphExample.manifest "spoke" [GraphExample.on_stack])
     = inr [].
Proof.
  repeat split; try discriminate; now vm_compute.
Qed.

End GraphTheorems.

(** ** RunDeployInSpokeTask *)

Module SpokeDispatchTheorems.
Import RunDeployInSpokeTask.

Lemma run_never_waits (self : t) (i : inputs) :
  emits (fun c => is_wait c = false) (run self i).
Proof.
  unfold emits, run.
  eapply spec_bind; [now apply spec_perform|]. intros _ _.
  eapply spec_bind with (Q := fun _ => True); [unfold expect_str; now one_call|].
  intros url _.
  eapply spec_bind with (Q := fun _ => True); [unfold expect_str; now one_call|].
  intros version _.
  eapply spec_bind with (Q := fun _ => True); [unfold start_build; now one_call|].
  intros response _. now apply spec_emit.
Qed.

(** C4 (as the code has it).  [RunDeployInSpokeTask.run] uploads the
    reduced manifest to the object store, generates a signed retrieval URL
    that expires after 86400 seconds, reads the puppet version from the
    parameter store and starts the build job of the spoke account, passing
    the version, the URL and the run context as eight PLAINTEXT
    name/value pairs of strings.  It then writes its output, the account id
    with the response of the start call, at once: it issues no
    start-and-wait call and does not look at the build status, so the
    output is written while the remote job may still be running. *)
Theorem spoke_dispatch (self : t) (i : inputs) (w : World) (h : list Call)
    (uploaded : Response) (signed_url version : string) (response : BuildResponse) :
  let put := PutObject (new_manifest i) (bucket self) (key i) in
  let sign := GeneratePresignedUrl "get_object" (bucket self) (key i) 86400%N in
  let get := GetParameter "service-catalog-puppet-version" in
  let start := StartBuild constants.EXECUTION_SPOKE_CODEBUILD_PROJECT_NAME
                 (environment self i version signed_url) in
  w h put = inr uploaded ->
  w (h ++ [put]) sign = inr (RStr signed_url) ->
  w (h ++ [put; sign]) get = inr (RStr version) ->
  w (h ++ [put; sign; get]) start = inr (RBuild response) ->
  run self i w h
  = (h ++ [put; sign; get; start; WriteOutput (OutSpokeDeploy (account_id self) response)],
     inr tt)
  /\ Forall (fun v => ev_type v = "PLAINTEXT") (environment self i version signed_url)
  /\ ev_name <$> environment self i version signed_url
     = ["VERSION"; "MANIFEST_URL"; "PUPPET_ACCOUNT_ID"; "HOME_REGION"; "REGIONS";
        "SHOULD_COLLECT_CLOUDFORMATION_EVENTS"; "SHOULD_FORWARD_EVENTS_TO_EVENTBRIDGE";
        "SHOULD_FORWARD_FAILURES_TO_OPSCENTER"]
  /\ emits (fun c => is_wait c = false) (run self i).
Proof.
  intros put sign get start P S G B.
  split; [|split; [|split; [reflexivity|apply run_never_waits]]].
  - subst put sign get start. unfold run.
    erewrite bind_ok by (unfold_m; rewrite P; reflexivity).
    change expires_in with 86400%N.
    erewrite bind_ok by (unfold expect_str; unfold_m; rewrite S; reflexivity).
    erewrite bind_ok
      by (unfold expect_str; unfold_m; rewrite <- app_assoc; cbn [app];
          rewrite G; reflexivity).
    erewrite bind_ok
      by (unfold start_build; unfold_m; rewrite <- !app_assoc; cbn [app];
          rewrite B; reflexivity).
    unfold_m. now rewrite <- !app_assoc.
  - unfold environment. repeat constructor.
Qed.

(** The dispatch to account 111111111111: five events, the last one the
    output, written with the build still IN_PROGRESS. *)
Lemma spoke_dispatch_witness :
  exec (run SpokeExample.task SpokeExample.inp) SpokeExample.build_in_progress
  = ([PutObject "launches: {}" "sc-puppet-spoke-deploy-000000000000" "42.yaml";
      GeneratePresignedUrl "get_object" "sc-puppet-spoke-deploy-000000000000" "42.yaml" 86400%N;
      GetParameter "service-catalog-puppet-version";
      StartBuild "servicecatalog-puppet-deploy-in-spoke"
        (environment SpokeExample.task SpokeExample.inp "0.95.0"
           "https://signed.example/42.yaml");
      WriteOutput (OutSpokeDeploy "111111111111" SpokeExample.started)],
     inr tt).
Proof.
  exact (proj1 (spoke_dispatch SpokeExample.task SpokeExample.inp
                  SpokeExample.build_in_progress [] RUnit
                  "https://signed.example/42.yaml" "0.95.0" SpokeExample.started
                  eq_refl eq_refl eq_refl eq_refl)).
Defined.

(** The claim as the spec has it fails: the run completes and writes its
    output although the build it started is not in a terminal status, and
    no call of the run waits for the build.  The CodeBuild run task, by
    contrast, does issue the start-and-wait call. *)
Lemma spoke_dispatch_counterexample :
  outcome (exec (run SpokeExample.task SpokeExample.inp) SpokeExample.build_in_progress)
  = inr tt
  /\ last (calls (exec (run SpokeExample.task SpokeExample.inp)
                       SpokeExample.build_in_progress))
     = Some (WriteOutput (OutSpokeDeploy "111111111111" SpokeExample.started))
  /\ terminal (build_status SpokeExample.started) = false
  /\ Forall (fun c => is_wait c = false)
       (calls (exec (run SpokeExample.task SpokeExample.inp)
                    SpokeExample.build_in_progress))
  /\ Exists (fun c => is_wait c = true)
       (calls (exec (DoExecuteCodeBuildRunTask.run SpokeExample.code_build_run ∅)
                    SpokeExample.build_in_progress)).
Proof.
  split; [reflexivity|]. split; [reflexivity|]. split; [reflexivity|].
  split.
  - vm_compute. repeat constructor.
  - vm_compute. right. now left.
Qed.

End SpokeDispatchTheorems.

(** ** DoTerminateProductTask *)

Module TerminateFacts.
Import DoTerminateProductTask.

(** One declared output: the delete is issued once, under the declared
    name; a missing parameter is logged and passed over, any other error
    is raised. *)
Lemma delete_step (self : t) (b : SsmParamOutput) w h :
  let announce := Log INFO (deleting_msg self (param_name b)) in
  let delete := DeleteParameter (param_name b) in
  delete_ssm_param_output self b w h
  = match w (h ++ [announce]) delete with
    | inr _ => (h ++ [announce; delete; announce], inr tt)
    | inl (ParameterNotFound m) =>
        (h ++ [announce; delete; Log INFO (not_found_msg self (param_name b))], inr tt)
    | inl e => (h ++ [announce; delete], inl e)
    end.
Proof.
  cbn zeta. unfold delete_ssm_param_output. unfold_m.
  destruct (w _ (DeleteParameter _)) as [[]|r]; now rewrite <- ?app_assoc.
Qed.

(** A resource that is already terminated, or not there, is not terminated
    again. *)
Lemma ensure_is_terminated_idempotent ln pid w h products :
  w h ScanProvisionedProductsSinglePage = inr (RProvisionedProducts products) ->
  (forall r, aws.named ln products = Some r -> pp_Status r = "TERMINATED") ->
  exists id,
    aws.ensure_is_terminated ln pid w h
    = (h ++ [ScanProvisionedProductsSinglePage], inr (id, None)).
Proof.
  intros S T. unfold aws.ensure_is_terminated.
  erewrite bind_ok
    by (unfold aws.scan_provisioned_products_single_page; unfold_m; now rewrite S).
  destruct (aws.named ln products) as [r|]; [|eauto].
  rewrite (T r eq_refl). rewrite bool_decide_eq_true_2 by done. eauto.
Qed.

(** The deletes of a run never fail the task on a missing parameter. *)
Lemma delete_all_not_found (self : t) w (bs : list SsmParamOutput) : forall h,
  (forall h' b, b ∈ bs ->
     exists m, w h' (DeleteParameter (param_name b)) = inl (ParameterNotFound m)) ->
  for_each bs (delete_ssm_param_output self) w h
  = (h ++ concat ((fun b => [Log INFO (deleting_msg self (param_name b));
                             DeleteParameter (param_name b);
                             Log INFO (not_found_msg self (param_name b))]) <$> bs),
     inr tt).
Proof.
  induction bs as [|b bs IH]; intros h N; cbn [for_each].
  - unfold_m. cbn. now rewrite app_nil_r.
  - destruct (N (h ++ [Log INFO (deleting_msg self (param_name b))]) b) as [m E];
      [now left|].
    erewrite bind_ok by (rewrite delete_step; cbn zeta; rewrite E; reflexivity).
    rewrite IH by (intros h' b' I'; apply N; now right).
    cbn. now rewrite <- !app_assoc.
Qed.

End TerminateFacts.

Module TerminateTheorems.
Import DoTerminateProductTask TerminateFacts.

(** C9.  The code at the failing input.  From the hub, provisioning puts
    the declared output under the name with the region and the account id
    substituted.  Termination deletes under the declared name as it
    stands, finds no such parameter, logs that and completes: the
    parameter that was written is never deleted. *)
Theorem terminate_misses_written_parameter :
  let written := "/networking/us-east-1/111111111111/vpc-id" in
  let declared := "/networking/${AWS::Region}/${AWS::AccountId}/vpc-id" in
  let world := TerminateExample.after_provision "AVAILABLE" [written] in
  ProvisionProductTask.ssm_parameter_name ProvisionExample.hub_task
    ProvisionExample.vpc_id_output = written
  /\ exec (run TerminateExample.task "prod-1") world
     = ([ScanProvisionedProductsSinglePage;
         TerminateProvisionedProduct "pp-9";
         Log INFO (deleting_msg TerminateExample.task declared);
         DeleteParameter declared;
         Log INFO (not_found_msg TerminateExample.task declared);
         WriteOutput (OutTerminate (params_for_results_display TerminateExample.task)
                        (Some "pp-9"))],
        inr tt)
  /\ DeleteParameter written ∉ calls (exec (run TerminateExample.task "prod-1") world).
Proof.
  cbn zeta. split; [reflexivity|]. split; [reflexivity|].
  intros I. unfold calls in I.
  change (exec (run TerminateExample.task "prod-1")
            (TerminateExample.after_provision "AVAILABLE"
               ["/networking/us-east-1/111111111111/vpc-id"])).1
    with [ScanProvisionedProductsSinglePage;
          TerminateProvisionedProduct "pp-9";
          Log INFO (deleting_msg TerminateExample.task
                      "/networking/${AWS::Region}/${AWS::AccountId}/vpc-id");
          DeleteParameter "/networking/${AWS::Region}/${AWS::AccountId}/vpc-id";
          Log INFO (not_found_msg TerminateExample.task
                      "/networking/${AWS::Region}/${AWS::AccountId}/vpc-id");
          WriteOutput (OutTerminate (params_for_results_display TerminateExample.task)
                         (Some "pp-9"))] in I.
  repeat (apply elem_of_cons in I as [I|I]; [discriminate I|]).
  now apply elem_of_nil in I.
Qed.

End TerminateTheorems.

(** * Further properties of the workflow *)

(** ** Output is written last, or not at all *)

Lemma writes_last_write (o : Output) : writes_last o (write_output o).
Proof. intros w h. exists []. split; [constructor|]. now left. Qed.

Lemma writes_last_bind {A} (o : Output) (m : M A) (f : A -> M unit) :
  emits (fun c => is_write c = false) m ->
  (forall a, writes_last o (f a)) ->
  writes_last o (m ≫= f).
Proof.
  intros Hm Hf w h. destruct (Hm w h) as (n1 & E1 & F1 & _).
  unfold mbind, M_bind. destruct (m w h) as [h' [e|a]]; cbn [fst snd] in *; subst h'.
  - exists n1. split; [done|]. right. eauto.
  - destruct (Hf a w (h ++ n1)) as (n2 & F2 & [E2|[e E2]]).
    + exists (n1 ++ n2). split; [now apply Forall_app|].
      left. rewrite E2. now rewrite <- !app_assoc.
    + exists (n1 ++ n2). split; [now apply Forall_app|].
      right. exists e. rewrite E2. now rewrite <- !app_assoc.
Qed.

(** What [writes_last] says of a run from the empty history. *)
Lemma writes_last_exec (o : Output) (m : M unit) w :
  writes_last o m ->
  (outcome (exec m w) = inr tt ->
   exists new, calls (exec m w) = new ++ [WriteOutput o]
               /\ Forall (fun c => is_write c = false) new)
  /\ (forall e, outcome (exec m w) = inl e ->
      Forall (fun c => is_write c = false) (calls (exec m w))).
Proof.
  intros Hm. destruct (Hm w []) as (new & F & [E|[e E]]);
    unfold exec, outcome, calls; rewrite E; cbn [fst snd app].
  - split; [eauto|]. intros ?; discriminate.
  - split; [discriminate|]. now intros _ _.
Qed.

Module ProvisionOutputTheorems.
Import ProvisionProductTask ProvisionFacts.

Lemma publish_writes_last (self : t) id :
  writes_last (OutProvision (params_for_results_display self)) (publish self id).
Proof.
  unfold publish. destruct (decide _); [|apply writes_last_write].
  apply writes_last_bind; [now apply get_stack_output_for_spec|]. intros sd.
  apply writes_last_bind; [|intros _; apply writes_last_write].
  apply spec_for_each. intros b _. unfold write_ssm_param_output.
  eapply spec_bind; [now apply put_matching_spec|].
  intros [] _; [now apply spec_ret|apply spec_raise].
Qed.

(** X1.  A run of ProvisionProductTask that completes has written its
    output exactly once, as its last event; a run that raises, at whatever
    point, has written no output. *)
Theorem run_writes_output_last (self : t) (i : inputs) (w : World) :
  (outcome (exec (run self i) w) = inr tt ->
   exists new,
     calls (exec (run self i) w)
     = new ++ [WriteOutput (OutProvision (params_for_results_display self))]
     /\ Forall (fun c => is_write c = false) new)
  /\ (forall e, outcome (exec (run self i) w) = inl e ->
      Forall (fun c => is_write c = false) (calls (exec (run self i) w))).
Proof.
  apply writes_last_exec. unfold run.
  apply writes_last_bind.
  { eapply spec_weaken; [apply classify_resolved; reflexivity|done]. }
  intros l. apply writes_last_bind; [|intros id; apply publish_writes_last].
  destruct (need_to_provision l); [|now apply spec_ret].
  unfold provision. eapply spec_bind with (Q := fun _ => True).
  - destruct (truthy _); [|now apply spec_ret].
    now apply check_stack_status_spec.
  - intros _ _. destruct (truthy _).
    + unfold update_existing. destruct (should_use_product_plans self).
      * eapply spec_bind; [now apply get_path_for_product_spec|]. intros p _.
        eapply spec_bind; [now apply provision_product_with_plan_spec|].
        intros ? _. now apply spec_ret.
      * eapply spec_bind; [now apply update_provisioned_product_spec|].
        intros ? _. now apply spec_ret.
    + unfold provision_new.
      eapply spec_bind; [now apply provision_product_spec|].
      intros ? _. now apply spec_ret.
Qed.

(** A drifted launch on a stack in ROLLBACK_FAILED raises at the status
    check and leaves no output behind. *)
Lemma run_writes_output_last_witness :
  Forall (fun c => is_write c = false)
    (calls (exec (run ProvisionExample.spoke_task ProvisionExample.inp)
                 (ProvisionExample.drifted "ROLLBACK_FAILED"))).
Proof.
  apply (proj2 (run_writes_output_last ProvisionExample.spoke_task ProvisionExample.inp
                  (ProvisionExample.drifted "ROLLBACK_FAILED"))
           (Exception_
              "[L1-111111111111-us-east-1] current cfn stack_status is ROLLBACK_FAILED")).
  now vm_compute.
Defined.

End ProvisionOutputTheorems.

(** ** ProvisionProductTask: the decision *)

Module DecisionTheorems.
Import ProvisionProductTask ProvisionFacts.

Lemma classify_table (self : t) (i : inputs) (w : World) (h h1 : list Call)
    (id paid status : pyval) :
  aws.terminate_if_status_is_not_available
    (launch_name self) (product_id i) (account_id self) (region self) w h
  = (h1, inr (id, paid, status)) ->
  let desired := params_to_use (provisioning_artifact_parameters i) (all_params i) in
  let read := GetParametersForStack (stack_name self id) in
  let found need :=
    {| provisioned_product_id := id; provisioning_artifact_id := paid;
       provisioned_product_status := status; resolved := desired;
       need_to_provision := need |} in
  (paid <> Some (version_id i) \/ truthy id = false ->
   classify self i w h = (h1, inr (found true)))
  /\ (paid = Some (version_id i) -> truthy id = true ->
      forall live, w h1 read = inr (RParams live) ->
      classify self i w h
      = (h1 ++ [read],
         inr (found (bool_decide (status = Some "TAINTED")
                     || negb (bool_decide (live = desired))))))
  /\ (paid = Some (version_id i) -> truthy id = true ->
      forall e, w h1 read = inl e ->
      classify self i w h = (h1 ++ [read], inl e)).
Proof.
  intros Pre desired read found.
  assert (forall n, (if decide (status = Some "TAINTED") then true else n)
                    = bool_decide (status = Some "TAINTED") || n) as T.
  { intros n. destruct (decide _); [now rewrite bool_decide_eq_true_2|].
    now rewrite bool_decide_eq_false_2. }
  split; [|split].
  - intros C. unfold classify. erewrite bind_ok by exact Pre. cbn beta iota.
    assert (forall m : M bool,
              (if decide (paid = Some (version_id i))
               then if truthy id then m else mret true
               else mret true) = mret true) as R.
    { intros m. destruct (decide (paid = Some (version_id i))) as [E|]; [|reflexivity].
      destruct C as [C|C]; [done|]. now rewrite C. }
    rewrite R. unfold_m. rewrite T. unfold found. do 3 f_equal.
    now rewrite orb_true_r.
  - intros -> Tr live G. unfold classify. erewrite bind_ok by exact Pre.
    cbn beta iota. rewrite decide_True by done. rewrite Tr.
    unfold aws.get_parameters_for_stack. unfold_m. fold read. rewrite G.
    fold desired. unfold found.
    destruct (decide (live = desired)).
    + rewrite T. now rewrite (bool_decide_eq_true_2 (live = desired)).
    + rewrite T. now rewrite (bool_decide_eq_false_2 (live = desired)).
  - intros -> Tr e G. unfold classify. erewrite bind_ok by exact Pre.
    cbn beta iota. rewrite decide_True by done. rewrite Tr.
    unfold aws.get_parameters_for_stack. unfold_m. fold read. now rewrite G.
Qed.

(** X2.  The decision of ProvisionProductTask.run as a table over the live
    state the pre-check hands back.  When the live artifact is not the
    desired version, or there is no live resource id, the stack parameters
    are not read and provisioning is needed.  When the artifact is the
    desired version and a resource id is at hand, the stack parameters are
    read once: provisioning is needed exactly when the status is TAINTED or
    the parameters read differ from the resolved ones; an error of that
    read is the error of the run. *)
Theorem classification_table (self : t) (i : inputs) (w : World) (h h1 : list Call)
    (id paid status : pyval) :
  aws.terminate_if_status_is_not_available
    (launch_name self) (product_id i) (account_id self) (region self) w h
  = (h1, inr (id, paid, status)) ->
  let desired := params_to_use (provisioning_artifact_parameters i) (all_params i) in
  let read := GetParametersForStack (stack_name self id) in
  let found need :=
    {| provisioned_product_id := id; provisioning_artifact_id := paid;
       provisioned_product_status := status; resolved := desired;
       need_to_provision := need |} in
  (paid <> Some (version_id i) \/ truthy id = false ->
   classify self i w h = (h1, inr (found true)))
  /\ (paid = Some (version_id i) -> truthy id = true ->
      forall live, w h1 read = inr (RParams live) ->
      classify self i w h
      = (h1 ++ [read],
         inr (found (bool_decide (status = Some "TAINTED")
                     || negb (bool_decide (live = desired))))))
  /\ (paid = Some (version_id i) -> truthy id = true ->
      forall e, w h1 read = inl e ->
      classify self i w h = (h1 ++ [read], inl e)).
Proof. apply classify_table. Qed.

(** A drifted launch (one parameter still old) needs provisioning. *)
Lemma classification_table_witness :
  exists l,
    classify ProvisionExample.spoke_task ProvisionExample.inp
      (ProvisionExample.drifted "CREATE_COMPLETE") []
    = ([ScanProvisionedProductsSinglePage; GetParametersForStack "SC-111111111111-pp-9"],
       inr l)
    /\ need_to_provision l = true.
Proof.
  assert (aws.terminate_if_status_is_not_available "L1" "prod-1" "111111111111" "us-east-1"
            (ProvisionExample.drifted "CREATE_COMPLETE") []
          = ([ScanProvisionedProductsSinglePage],
             inr (Some "pp-9", Some "pa-2", Some "AVAILABLE"))) as Pre
    by now vm_compute.
  pose proof (classification_table ProvisionExample.spoke_task ProvisionExample.inp
                _ _ _ _ _ _ Pre) as (_ & Same & _).
  eexists. split.
  - apply (Same eq_refl eq_refl {[ "Foo" := Some "old"; "Bar" := Some "bar-default" ]}).
    reflexivity.
  - now vm_compute.
Defined.

(** X3.  A live resource at another version than the desired one is
    updated whatever its parameters are: the stack parameters are not read,
    the stack status is read and, when it is UPDATE_COMPLETE or
    CREATE_COMPLETE and plans are not in use, one update call carrying the
    desired version, the portfolio as path and the resolved parameters is
    issued; the id it returns is the one the publishing phase works
    with. *)
Theorem version_change_updates (self : t) (i : inputs) (w : World) (h h1 : list Call)
    (id paid status : pyval) (stack : StackDetails) (updated : string) :
  aws.terminate_if_status_is_not_available
    (launch_name self) (product_id i) (account_id self) (region self) w h
  = (h1, inr (id, paid, status)) ->
  truthy id = true ->
  paid <> Some (version_id i) ->
  should_use_product_plans self = false ->
  let gate := GetStackOutputFor (stack_name self id) in
  let update :=
    UpdateProvisionedProduct
      (provision_args self i (portfolio self)
         (params_to_use (provisioning_artifact_parameters i) (all_params i)))
      (execution self) in
  w h1 gate = inr (RStack stack) ->
  StackStatus stack = Some "UPDATE_COMPLETE" \/ StackStatus stack = Some "CREATE_COMPLETE" ->
  w (h1 ++ [gate]) update = inr (RStr updated) ->
  run self i w h = publish self (Some updated) w (h1 ++ [gate; update]).
Proof.
  intros Pre T N Pl gate update G S U.
  pose proof (classify_table self i w h h1 id paid status Pre) as (C & _).
  cbn zeta in C. specialize (C (or_introl N)).
  unfold run. erewrite bind_ok by exact C. cbn [need_to_provision].
  unfold provision. cbn [provisioned_product_id]. rewrite T.
  pose proof (StackGateTheorems.check_stack_status_eq self id w h1 stack G) as K.
  rewrite (proj2 (StackGateTheorems.is_healthy_iff (StackStatus stack))) in K
    by (destruct S; auto).
  rewrite decide_False in K by (destruct S as [-> | ->]; discriminate).
  erewrite bind_ok; cycle 1.
  { erewrite bind_ok by exact K. unfold update_existing. rewrite Pl.
    unfold aws.update_provisioned_product. cbn [resolved]. unfold_m.
    fold gate update. rewrite U. reflexivity. }
  fold gate. now rewrite <- app_assoc.
Qed.

(** X4.  Without a live resource id the run creates the product directly:
    no stack parameters and no stack status are read, no update and no
    plan is issued (plans in use or not), and the one provision call
    carries the portfolio as path and the resolved parameters.  The id the
    call returns is the one the publishing phase works with; an error of
    the call is the error of the run. *)
Theorem no_live_resource_provisions (self : t) (i : inputs) (w : World)
    (h h1 : list Call) (id paid status : pyval) :
  aws.terminate_if_status_is_not_available
    (launch_name self) (product_id i) (account_id self) (region self) w h
  = (h1, inr (id, paid, status)) ->
  truthy id = false ->
  let create :=
    ProvisionProduct
      (provision_args self i (portfolio self)
         (params_to_use (provisioning_artifact_parameters i) (all_params i)))
      (should_use_sns self) (execution self) in
  (forall created,
     w h1 create = inr (RStr created) ->
     run self i w h = publish self (Some created) w (h1 ++ [create]))
  /\ (forall e, w h1 create = inl e -> run self i w h = (h1 ++ [create], inl e)).
Proof.
  intros Pre T create.
  pose proof (classify_table self i w h h1 id paid status Pre) as (C & _).
  cbn zeta in C. specialize (C (or_intror T)).
  split.
  - intros created E. unfold run. erewrite bind_ok by exact C.
    cbn [need_to_provision]. unfold provision. cbn [provisioned_product_id].
    rewrite T.
    erewrite bind_ok; [reflexivity|].
    erewrite bind_ok by reflexivity.
    unfold provision_new, aws.provision_product. cbn [resolved]. unfold_m.
    fold create. now rewrite E.
  - intros e E. unfold run. erewrite bind_ok by exact C.
    cbn [need_to_provision]. unfold provision. cbn [provisioned_product_id].
    rewrite T.
    erewrite bind_err; [reflexivity|].
    erewrite bind_ok by reflexivity.
    unfold provision_new, aws.provision_product. cbn [resolved]. unfold_m.
    fold create. now rewrite E.
Qed.

(** The launch of the example, live at artifact pa-1 while pa-2 is desired:
    scan, status check, update with the resolved parameters, output. *)
Lemma version_change_updates_witness :
  exec (run ProvisionExample.spoke_task ProvisionExample.inp)
       DecisionExample.older_version
  = ([ScanProvisionedProductsSinglePage;
      GetStackOutputFor "SC-111111111111-pp-9";
      UpdateProvisionedProduct
        (provision_args ProvisionExample.spoke_task ProvisionExample.inp "networking"
           ProvisionExample.desired) "spoke";
      WriteOutput (OutProvision (params_for_results_display ProvisionExample.spoke_task))],
     inr tt).
Proof.
  assert (aws.terminate_if_status_is_not_available "L1" "prod-1" "111111111111" "us-east-1"
            DecisionExample.older_version []
          = ([ScanProvisionedProductsSinglePage],
             inr (Some "pp-9", Some "pa-1", Some "AVAILABLE"))) as Pre
    by now vm_compute.
  unfold exec.
  rewrite (version_change_updates ProvisionExample.spoke_task ProvisionExample.inp
             DecisionExample.older_version [] _ _ _ _
             (ProvisionExample.stack "UPDATE_COMPLETE") "pp-9" Pre);
    try reflexivity; try discriminate.
  now left.
Defined.

(** The first provisioning of the example launch, from the hub. *)
Lemma no_live_resource_provisions_witness :
  calls (exec (run ProvisionExample.hub_task ProvisionExample.inp)
              DecisionExample.first_time)
  = [ScanProvisionedProductsSinglePage;
     ProvisionProduct
       (provision_args ProvisionExample.hub_task ProvisionExample.inp "networking"
          ProvisionExample.desired) false "hub";
     GetStackOutputFor "SC-111111111111-pp-1";
     PutParameterAndWait "/networking/us-east-1/111111111111/vpc-id" "vpc-0abc"
       "String" true;
     WriteOutput (OutProvision (params_for_results_display ProvisionExample.hub_task))].
Proof.
  assert (aws.terminate_if_status_is_not_available "L1" "prod-1" "111111111111" "us-east-1"
            DecisionExample.first_time []
          = ([ScanProvisionedProductsSinglePage], inr (None, None, None))) as Pre
    by now vm_compute.
  pose proof (no_live_resource_provisions ProvisionExample.hub_task ProvisionExample.inp
                DecisionExample.first_time [] _ _ _ _ Pre eq_refl) as [Created _].
  unfold exec. rewrite (Created "pp-1" eq_refl). now vm_compute.
Defined.

End DecisionTheorems.

(** ** ProvisionProductTask: the parameter store *)

Module ParameterStoreTheorems.
Import ProvisionProductTask ProvisionFacts.

(** X5.  Outside hub execution mode a run of ProvisionProductTask never
    puts a parameter, whatever it provisions and whatever outputs are
    declared. *)
Theorem spoke_run_puts_nothing (self : t) (i : inputs) :
  execution self <> constants.EXECUTION_MODE_HUB ->
  emits (fun c => is_put c = false) (run self i).
Proof.
  intros NH. unfold emits, run.
  eapply spec_bind with (Q := fun _ => True).
  { eapply spec_weaken; [apply classify_resolved; reflexivity|done]. }
  intros l _. eapply spec_bind with (Q := fun _ => True).
  - destruct (need_to_provision l); [|now apply spec_ret].
    unfold provision. eapply spec_bind with (Q := fun _ => True).
    + destruct (truthy _); [|now apply spec_ret]. now apply check_stack_status_spec.
    + intros _ _. destruct (truthy _).
      * unfold update_existing. destruct (should_use_product_plans self).
        -- eapply spec_bind; [now apply get_path_for_product_spec|]. intros p _.
           eapply spec_bind; [now apply provision_product_with_plan_spec|].
           intros ? _. now apply spec_ret.
        -- eapply spec_bind; [now apply update_provisioned_product_spec|].
           intros ? _. now apply spec_ret.
      * unfold provision_new.
        eapply spec_bind; [now apply provision_product_spec|].
        intros ? _. now apply spec_ret.
  - intros id _. unfold publish. rewrite decide_False by done. now apply spec_emit.
Qed.

(** The drifted launch of the example, run in the spoke. *)
Lemma spoke_run_puts_nothing_witness :
  Forall (fun c => is_put c = false)
    (calls (exec (run ProvisionExample.spoke_task ProvisionExample.inp)
                 (ProvisionExample.drifted "CREATE_COMPLETE"))).
Proof.
  assert (execution ProvisionExample.spoke_task <> constants.EXECUTION_MODE_HUB) as NH
    by discriminate.
  exact (spec_exec _ _ _ _ (spoke_run_puts_nothing ProvisionExample.spoke_task
                              ProvisionExample.inp NH)).
Defined.

Lemma write_all (self : t) (sd : StackDetails) w (bs : list SsmParamOutput) : forall h,
  NoDup (OutputKey <$> Outputs sd) ->
  (forall b, b ∈ bs -> exists o, o ∈ Outputs sd /\ OutputKey o = stack_output b) ->
  (forall h' c, is_put c = true -> exists r, w h' c = inr r) ->
  exists puts,
    for_each bs (write_ssm_param_output self sd) w h = (h ++ puts, inr tt)
    /\ Forall2 (put_of self sd) bs puts.
Proof.
  induction bs as [|b bs IH]; intros h D M S.
  - exists []. split; [|constructor]. cbn. unfold_m. now rewrite app_nil_r.
  - destruct (M b) as (o & I & K); [now left|].
    pose proof (OutputBindingTheorems.put_matching_unique self b (Outputs sd) o w
                  false h D I K) as E.
    destruct (S h (put_call self b o) eq_refl) as [r R]. rewrite R in E.
    destruct (IH (h ++ [put_call self b o]) D) as (puts & F & A).
    { intros b' I'. apply M. now right. }
    { exact S. }
    exists (put_call self b o :: puts). split.
    + cbn [for_each]. erewrite bind_ok; cycle 1.
      { unfold write_ssm_param_output. erewrite bind_ok by exact E. reflexivity. }
      rewrite F. now rewrite <- app_assoc.
    + constructor; [|exact A]. now exists o.
Qed.

(** X6.  In hub execution mode, when the stack outputs (with distinct
    keys) hold a key for every declared SSM output and the parameter store
    accepts the puts, the publishing phase reads the stack outputs once,
    puts one parameter per declared output in the order of declaration, and
    then writes the task output. *)
Theorem publish_puts_every_binding (self : t) (id : pyval) (sd : StackDetails)
    (w : World) (h : list Call) :
  execution self = constants.EXECUTION_MODE_HUB ->
  w h (GetStackOutputFor (stack_name self id)) = inr (RStack sd) ->
  NoDup (OutputKey <$> Outputs sd) ->
  (forall b, b ∈ ssm_param_outputs self ->
     exists o, o ∈ Outputs sd /\ OutputKey o = stack_output b) ->
  (forall h' c, is_put c = true -> exists r, w h' c = inr r) ->
  exists puts,
    publish self id w h
    = (h ++ GetStackOutputFor (stack_name self id) :: puts
         ++ [WriteOutput (OutProvision (params_for_results_display self))],
       inr tt)
    /\ Forall2 (put_of self sd) (ssm_param_outputs self) puts.
Proof.
  intros H G D M S.
  destruct (write_all self sd w (ssm_param_outputs self)
              (h ++ [GetStackOutputFor (stack_name self id)]) D M S) as (puts & F & A).
  exists puts. split; [|exact A].
  unfold publish. rewrite decide_True by done.
  unfold aws.get_stack_output_for.
  erewrite bind_ok by (unfold_m; rewrite G; reflexivity).
  erewrite bind_ok by exact F.
  unfold_m. now rewrite <- !app_assoc.
Qed.

(** The hub task of the example on its stack: one read, one put, the output. *)
Lemma publish_puts_every_binding_witness :
  exists puts,
    publish ProvisionExample.hub_task (Some "pp-9")
      (ProvisionExample.converged "AVAILABLE" "CREATE_COMPLETE") []
    = (GetStackOutputFor "SC-111111111111-pp-9" :: puts
         ++ [WriteOutput (OutProvision (params_for_results_display ProvisionExample.hub_task))],
       inr tt)
    /\ length puts = 1.
Proof.
  destruct (publish_puts_every_binding ProvisionExample.hub_task (Some "pp-9")
              (ProvisionExample.stack "CREATE_COMPLETE")
              (ProvisionExample.converged "AVAILABLE" "CREATE_COMPLETE") [])
    as (puts & E & A).
  - reflexivity.
  - reflexivity.
  - cbn. repeat constructor; rewrite ?elem_of_cons, ?elem_of_nil; intuition discriminate.
  - intros b I. apply list_elem_of_singleton in I as ->.
    exists {| OutputKey := "VpcId"; OutputValue := "vpc-0abc" |}.
    split; [now left|reflexivity].
  - intros h' c P. destruct c; try discriminate. now exists RUnit.
  - exists puts. split; [exact E|].
    apply Forall2_length in A. now rewrite <- A.
Defined.

End ParameterStoreTheorems.

(** ** Names without substitution tokens *)

Module NameTheorems.

Lemma prefix_other_head c old c' tl :
  c <> c' -> String.prefix (String c old) (String c' tl) = false.
Proof. intros N. cbn. now destruct (ascii_dec c c'). Qed.

Lemma replace_from_absent c old new s :
  char_in c s = false ->
  PyStr.replace_from (String c old) new 0 s = s.
Proof.
  induction s as [|c' tl IH]; intros A; [reflexivity|].
  cbn [char_in] in A. apply orb_false_iff in A as [A1 A2].
  apply bool_decide_eq_false in A1.
  cbn [PyStr.replace_from]. rewrite prefix_other_head by done.
  now rewrite IH.
Qed.

Lemma ssm_parameter_name_plain (self : ProvisionProductTask.t) (b : SsmParamOutput) :
  char_in "$" (param_name b) = false ->
  ProvisionProductTask.ssm_parameter_name self b = param_name b.
Proof.
  intros A. unfold ProvisionProductTask.ssm_parameter_name, PyStr.replace.
  rewrite (replace_from_absent _ _ _ (param_name b)) by exact A.
  now rewrite (replace_from_absent _ _ _ (param_name b)) by exact A.
Qed.

(** X7.  For a declared SSM output whose parameter name holds no '$', the
    name ProvisionProductTask puts is the declared name unchanged, and it
    is the name DoTerminateProductTask deletes: termination removes
    exactly the parameter that provisioning wrote. *)
Theorem plain_name_written_is_deleted (provision : ProvisionProductTask.t)
    (terminate : DoTerminateProductTask.t) (b : SsmParamOutput)
    (o : StackOutput) (w : World) (h : list Call) :
  char_in "$" (param_name b) = false ->
  ProvisionProductTask.put_call provision b o
  = PutParameterAndWait (param_name b) (OutputValue o)
      (default "String" (param_type b)) true
  /\ exists rest r,
       DoTerminateProductTask.delete_ssm_param_output terminate b w h
       = (h ++ Log INFO (DoTerminateProductTask.deleting_msg terminate (param_name b))
            :: DeleteParameter (ProvisionProductTask.ssm_parameter_name provision b)
            :: rest,
          r).
Proof.
  intros A. split.
  - unfold ProvisionProductTask.put_call. now rewrite ssm_parameter_name_plain.
  - rewrite ssm_parameter_name_plain by done.
    rewrite TerminateFacts.delete_step. cbn zeta.
    destruct (w _ (DeleteParameter _)) as [[]|]; eauto.
Qed.

(** The subnet output of the example has a plain name. *)
Lemma plain_name_written_is_deleted_witness :
  ProvisionProductTask.put_call ProvisionExample.hub_task ProvisionExample.subnet_output
    {| OutputKey := "SubnetId"; OutputValue := "subnet-1" |}
  = PutParameterAndWait "/networking/subnet-id" "subnet-1" "StringList" true.
Proof.
  exact (proj1 (plain_name_written_is_deleted ProvisionExample.hub_task
                  TerminateExample.plain_task ProvisionExample.subnet_output
                  {| OutputKey := "SubnetId"; OutputValue := "subnet-1" |}
                  (fun _ _ => inr RUnit) [] eq_refl)).
Defined.

End NameTheorems.

(** ** DoDescribeProvisioningParameters: a retry that succeeds *)

Module RetryTheorems.
Import DoDescribeProvisioningParameters DescribeFacts.

(** The history after [k] swallowed attempts. *)
Lemma retry_after_swallowed (self : t) w (k : nat) : forall n h,
  (forall j, j < k ->
     exists e, w (h ++ concat (replicate j (describe_call self :: swallowed)))
                 (describe_call self) = inl e
               /\ transient e = true) ->
  retry_loop self (k + n) w h
  = retry_loop self n w (h ++ concat (replicate k (describe_call self :: swallowed))).
Proof.
  induction k as [|k IH]; intros n h T.
  - cbn. now rewrite app_nil_r.
  - destruct (T 0) as (e & E & Tr); [lia|].
    cbn [replicate concat] in E. rewrite app_nil_r in E.
    cbn [Nat.add]. rewrite (retry_transient _ _ _ _ _ E Tr).
    rewrite IH.
    + cbn [replicate concat]. now rewrite <- !app_assoc.
    + intros j J. destruct (T (S j)) as (e' & E' & Tr'); [lia|].
      exists e'. split; [|done].
      cbn [replicate concat] in E'. now rewrite <- !app_assoc in *.
Qed.

(** X8.  When the first [k] attempts (at most two) hit the transient error
    and the next one succeeds, the run has slept [k] times, made [k + 1]
    describe calls, writes the parameter list of the successful attempt
    and completes. *)
Theorem retry_recovers (self : t) (w : World) (k : nat) (l : list ArtifactParameter) :
  k < 3 ->
  (forall j, j < k ->
     exists e, w (concat (replicate j (describe_call self :: swallowed)))
                 (describe_call self) = inl e
               /\ transient e = true) ->
  w (concat (replicate k (describe_call self :: swallowed))) (describe_call self)
  = inr (RArtifactParameters l) ->
  exec (run self) w
  = (concat (replicate k (describe_call self :: swallowed))
       ++ [describe_call self; WriteOutput (OutArtifactParameters (Some <$> l))],
     inr tt).
Proof.
  intros K T Ok. unfold exec, run.
  replace 3 with (k + S (2 - k)) by lia.
  erewrite bind_ok; cycle 1.
  { rewrite (retry_after_swallowed self w k (S (2 - k)) []) by exact T.
    cbn [app]. apply retry_success. exact Ok. }
  unfold_m. now rewrite <- !app_assoc.
Qed.

(** The storage race of the example clears after one attempt. *)
Lemma retry_recovers_witness :
  exec (run DescribeExample.task) DescribeExample.denied_once
  = ([describe_call DescribeExample.task;
      Log INFO "Swallowing S3 error: Access Denied"; Sleep 3;
      describe_call DescribeExample.task;
      WriteOutput (OutArtifactParameters
                     [Some {| ParameterKey := "Cidr"; DefaultValue := Some "10.0.0.0/16" |}])],
     inr tt).
Proof.
  apply (retry_recovers DescribeExample.task DescribeExample.denied_once 1
           [{| ParameterKey := "Cidr"; DefaultValue := Some "10.0.0.0/16" |}]).
  - lia.
  - intros j J. assert (j = 0) as -> by lia.
    exists DescribeExample.denied. split; reflexivity.
  - reflexivity.
Defined.

End RetryTheorems.

(** ** DoTerminateProductTask: the deletes *)

Module DeleteTheorems.
Import DoTerminateProductTask TerminateFacts.

Lemma delete_step_tolerated (self : t) w b h :
  tolerated w b ->
  exists new,
    delete_ssm_param_output self b w h = (h ++ new, inr tt)
    /\ List.filter is_delete new = [DeleteParameter (param_name b)]
    /\ Forall (fun c => is_write c = false) new
    /\ Forall (fun c => mutating c = true -> is_delete c = true) new.
Proof.
  intros T. rewrite delete_step. cbn zeta.
  destruct (T (h ++ [Log INFO (deleting_msg self (param_name b))])) as [[r E]|[m E]];
    rewrite E; eexists; (split; [reflexivity|]);
    (split; [reflexivity|]); split; repeat constructor; discriminate.
Qed.

Lemma delete_all_tolerated (self : t) w (bs : list SsmParamOutput) : forall h,
  (forall b, b ∈ bs -> tolerated w b) ->
  exists new,
    for_each bs (delete_ssm_param_output self) w h = (h ++ new, inr tt)
    /\ List.filter is_delete new = (fun b => DeleteParameter (param_name b)) <$> bs
    /\ Forall (fun c => is_write c = false) new
    /\ Forall (fun c => mutating c = true -> is_delete c = true) new.
Proof.
  induction bs as [|b bs IH]; intros h T.
  - exists []. cbn. unfold_m. rewrite app_nil_r. repeat split; constructor.
  - destruct (delete_step_tolerated self w b h) as (n1 & E1 & D1 & W1 & M1);
      [apply T; now left|].
    destruct (IH (h ++ n1)) as (n2 & E2 & D2 & W2 & M2);
      [intros b' I'; apply T; now right|].
    exists (n1 ++ n2). cbn [for_each].
    erewrite bind_ok by exact E1. rewrite E2, <- app_assoc.
    split; [reflexivity|].
    rewrite List.filter_app, D1, D2, !Forall_app. repeat split; done.
Qed.

(** X9.  Once the product is ensured to be terminated, DoTerminateProductTask
    issues one delete per declared SSM output, under the declared name and
    in the order of declaration, and nothing else that mutates.  When each
    delete is answered or fails with ParameterNotFound, the run completes
    and writes its output, carrying the product id, as its last event. *)
Theorem run_deletes_every_binding (self : t) (product_id : string) (w : World)
    (h h1 : list Call) (id paid : pyval) :
  aws.ensure_is_terminated (launch_name self) product_id w h = (h1, inr (id, paid)) ->
  (forall b, b ∈ ssm_param_outputs self -> tolerated w b) ->
  exists new,
    run self product_id w h
    = (h1 ++ new ++ [WriteOutput (OutTerminate (params_for_results_display self) id)],
       inr tt)
    /\ List.filter is_delete new
       = (fun b => DeleteParameter (param_name b)) <$> ssm_param_outputs self
    /\ Forall (fun c => is_write c = false) new
    /\ Forall (fun c => mutating c = true -> is_delete c = true) new.
Proof.
  intros E T.
  destruct (delete_all_tolerated self w (ssm_param_outputs self) h1 T)
    as (new & F & D & W & M).
  exists new. split; [|done].
  unfold run. erewrite bind_ok by exact E. cbn beta iota.
  erewrite bind_ok by exact F. unfold_m. now rewrite <- app_assoc.
Qed.

Lemma delete_step_fails (self : t) w b h e :
  (forall h', w h' (DeleteParameter (param_name b)) = inl e) ->
  is_not_found e = false ->
  delete_ssm_param_output self b w h
  = (h ++ [Log INFO (deleting_msg self (param_name b)); DeleteParameter (param_name b)],
     inl e).
Proof.
  intros E N. rewrite delete_step. cbn zeta. rewrite E.
  destruct e; try reflexivity. discriminate.
Qed.

(** X10.  A delete that fails with anything but ParameterNotFound ends
    the run with that error: the outputs declared before it have been
    deleted, those declared after it are left alone, and no task output is
    written. *)
Theorem run_stops_at_failed_delete (self : t) (product_id : string) (w : World)
    (h h1 : list Call) (id paid : pyval)
    (before after : list SsmParamOutput) (b : SsmParamOutput) (e : exn) :
  aws.ensure_is_terminated (launch_name self) product_id w h = (h1, inr (id, paid)) ->
  ssm_param_outputs self = before ++ b :: after ->
  (forall b', b' ∈ before -> tolerated w b') ->
  (forall h', w h' (DeleteParameter (param_name b)) = inl e) ->
  is_not_found e = false ->
  exists new,
    run self product_id w h = (h1 ++ new, inl e)
    /\ List.filter is_delete new
       = (fun b => DeleteParameter (param_name b)) <$> (before ++ [b])
    /\ Forall (fun c => is_write c = false) new.
Proof.
  intros E S T F N.
  destruct (delete_all_tolerated self w before h1 T) as (n1 & F1 & D1 & W1 & _).
  exists (n1 ++ [Log INFO (deleting_msg self (param_name b));
                 DeleteParameter (param_name b)]).
  split; [|split].
  - unfold run. erewrite bind_ok by exact E. cbn beta iota. rewrite S.
    erewrite bind_err; [reflexivity|].
    clear S E. revert h1 n1 F1 D1 W1.
    induction before as [|b0 before IH]; intros h1 n1 F1 D1 W1.
    + cbn in F1. unfold_m. injection F1 as F1.
      assert (n1 = []) as ->.
      { apply (app_inv_head h1). now rewrite app_nil_r. }
      cbn [app for_each].
      erewrite bind_err by (apply delete_step_fails; eauto). reflexivity.
    + cbn [app for_each] in *.
      destruct (delete_step_tolerated self w b0 h1) as (m1 & M1 & _);
        [apply T; now left|].
      erewrite bind_ok in F1 by exact M1. erewrite bind_ok by exact M1.
      destruct (delete_all_tolerated self w before (h1 ++ m1)) as (m2 & M2 & D2 & W2 & _);
        [intros b' I'; apply T; now right|].
      rewrite M2 in F1. injection F1 as F1. rewrite <- app_assoc in F1.
      apply app_inv_head in F1. subst n1.
      rewrite (IH (fun b' I' => T b' (list_elem_of_further _ _ _ I')) (h1 ++ m1) m2 M2 D2 W2).
      now rewrite <- !app_assoc.
  - rewrite List.filter_app, D1, fmap_app. reflexivity.
  - rewrite Forall_app. split; [done|]. now repeat constructor.
Qed.

(** The terminate task of the example with a plain output name, the
    parameter being in the store. *)
Lemma run_deletes_every_binding_witness :
  exists new,
    exec (run TerminateExample.plain_task "prod-1")
         (TerminateExample.after_provision "AVAILABLE" ["/networking/subnet-id"])
    = ([ScanProvisionedProductsSinglePage; TerminateProvisionedProduct "pp-9"] ++ new
         ++ [WriteOutput (OutTerminate (params_for_results_display TerminateExample.plain_task)
                            (Some "pp-9"))],
       inr tt)
    /\ List.filter is_delete new = [DeleteParameter "/networking/subnet-id"].
Proof.
  destruct (run_deletes_every_binding TerminateExample.plain_task "prod-1"
              (TerminateExample.after_provision "AVAILABLE" ["/networking/subnet-id"])
              [] [ScanProvisionedProductsSinglePage; TerminateProvisionedProduct "pp-9"]
              (Some "pp-9") None)
    as (new & E & D & _).
  - now vm_compute.
  - intros b _ h. cbn.
    destruct (bool_decide _); [left|right]; eauto.
  - exists new. split; [exact E|exact D].
Defined.

(** Two declared outputs and a parameter store that denies the delete:
    the run stops at the first. *)
Lemma run_stops_at_failed_delete_witness :
  exists new,
    exec (run TerminateMore.two_outputs "prod-1") TerminateMore.delete_denied
    = ([ScanProvisionedProductsSinglePage; TerminateProvisionedProduct "pp-9"] ++ new,
       inl (ClientError "AccessDeniedException"))
    /\ List.filter is_delete new = [DeleteParameter "/networking/subnet-id"].
Proof.
  destruct (run_stops_at_failed_delete TerminateMore.two_outputs "prod-1"
              TerminateMore.delete_denied
              [] [ScanProvisionedProductsSinglePage; TerminateProvisionedProduct "pp-9"]
              (Some "pp-9") None [] [ProvisionExample.vpc_id_output]
              ProvisionExample.subnet_output (ClientError "AccessDeniedException"))
    as (new & E & D & _).
  - now vm_compute.
  - reflexivity.
  - intros b' I. now apply elem_of_nil in I.
  - reflexivity.
  - reflexivity.
  - exists new. split; [exact E|exact D].
Defined.

End DeleteTheorems.

(** ** ProvisionProductDryRunTask: the scan *)

Module ScanTheorems.
Import ProvisionProductTask ProvisionProductDryRunTask.

Lemma live_state_snoc (self : t) products r :
  live_state self (products ++ [r]) = scan_step self (live_state self products) r.
Proof. unfold live_state. now rewrite foldl_snoc. Qed.

Lemma live_state_ids (self : t) products :
  let '(id, paid, _) := live_state self products in
  (paid = None <-> forall r, r ∈ products -> pp_Name r = launch_name self -> ~ usable r)
  /\ (id = None <-> paid = None).
Proof.
  induction products as [|r products IH] using rev_ind.
  - cbn. split; [|done]. split; [|done]. intros _ r I. now apply elem_of_nil in I.
  - rewrite live_state_snoc.
    destruct (live_state self products) as [[id paid] status]. destruct IH as [IH1 IH2].
    unfold scan_step. destruct (decide (pp_Name r = launch_name self)) as [N|N].
    + destruct (bool_decide (pp_Status r ∈ ["AVAILABLE"; "TAINTED"])) eqn:U.
      * apply bool_decide_eq_true in U. split; [|done]. split; [discriminate|].
        intros A. destruct (A r); [apply elem_of_app; right; now left|done..].
      * apply bool_decide_eq_false in U. split; [|done].
        rewrite IH1. split.
        -- intros A r' I'. apply elem_of_app in I' as [I'|I']; [now apply A|].
           apply list_elem_of_singleton in I' as ->. now intros _.
        -- intros A r' I'. apply A, elem_of_app. now left.
    + split; [|done]. rewrite IH1. split.
      * intros A r' I'. apply elem_of_app in I' as [I'|I']; [now apply A|].
        apply list_elem_of_singleton in I' as ->. done.
      * intros A r' I'. apply A, elem_of_app. now left.
Qed.

Lemma live_state_status (self : t) products :
  (forall r, r ∈ products -> pp_Name r <> launch_name self) ->
  live_state self products = (None, None, "NOT_PROVISIONED").
Proof.
  induction products as [|r products IH] using rev_ind; intros A; [reflexivity|].
  rewrite live_state_snoc, IH.
  - unfold scan_step. rewrite decide_False; [done|].
    apply A, elem_of_app. right. now left.
  - intros r' I'. apply A, elem_of_app. now left.
Qed.

Lemma live_state_last (self : t) before r after :
  pp_Name r = launch_name self ->
  (forall r', r' ∈ after -> pp_Name r' <> launch_name self) ->
  live_state self (before ++ r :: after)
  = scan_step self (live_state self before) r.
Proof.
  intros N. induction after as [|r' after IH] using rev_ind; intros A.
  - apply live_state_snoc.
  - replace (before ++ r :: after ++ [r']) with ((before ++ r :: after) ++ [r'])
      by now rewrite <- app_assoc.
    rewrite live_state_snoc, IH.
    + destruct (scan_step self (live_state self before) r) as [[? ?] ?].
      unfold scan_step at 1. rewrite decide_False; [done|].
      apply A, elem_of_app. right. now left.
    + intros r0 I0. apply A, elem_of_app. now left.
Qed.

(** X11.  The scan loop of the dry run.  The provisioning artifact id it
    ends with is None exactly when no product of the launch's name is
    AVAILABLE or TAINTED, and the product id is None exactly then.  Without
    any product of the launch's name the status is NOT_PROVISIONED.
    Otherwise the status is that of the last product of that name, whereas
    the ids are those of the last such product that is AVAILABLE or
    TAINTED: when the last product of the name is in another status, the
    ids of an earlier one are kept beside its status. *)
Theorem scan_of_live_state (self : t) (products : list ProvisionedProduct) :
  (forall id paid status,
     live_state self products = (id, paid, status) ->
     (paid = None <-> forall r, r ∈ products -> pp_Name r = launch_name self -> ~ usable r)
     /\ (id = None <-> paid = None))
  /\ ((forall r, r ∈ products -> pp_Name r <> launch_name self) ->
      live_state self products = (None, None, "NOT_PROVISIONED"))
  /\ (forall before r after id paid status,
        products = before ++ r :: after ->
        pp_Name r = launch_name self ->
        (forall r', r' ∈ after -> pp_Name r' <> launch_name self) ->
        live_state self before = (id, paid, status) ->
        live_state self products
        = if bool_decide (usable r)
          then (Some (pp_Id r), Some (pp_ProvisioningArtifactId r), pp_Status r)
          else (id, paid, pp_Status r)).
Proof.
  split; [|split].
  - intros id paid status E. pose proof (live_state_ids self products) as I.
    now rewrite E in I.
  - apply live_state_status.
  - intros before r after id paid status -> N A B.
    rewrite live_state_last, B by done. unfold scan_step.
    rewrite decide_True by done. unfold usable.
    now destruct (bool_decide _).
Qed.

(** The usable product pp-1 is followed by a product of the same name in
    error: the ids are those of pp-1, the status is ERROR. *)
Lemma scan_of_live_state_witness :
  live_state ProvisionExample.spoke_task ScanExample.shadowed
  = (Some "pp-1", Some "pa-1", "ERROR").
Proof.
  pose proof (scan_of_live_state ProvisionExample.spoke_task ScanExample.shadowed)
    as (_ & _ & L).
  rewrite (L [ScanExample.product "L1" "AVAILABLE" "pp-1" "pa-1";
              ScanExample.product "other" "AVAILABLE" "pp-2" "pa-7"]
             (ScanExample.product "L1" "ERROR" "pp-3" "pa-2") []
             (Some "pp-1") (Some "pa-1") "AVAILABLE");
    try reflexivity.
  intros r' I. now apply elem_of_nil in I.
Defined.

Lemma dry_run_same_version (self : t) (i : inputs) w r d :
  (forall h, w h ScanProvisionedProductsSinglePage = inr (RProvisionedProducts [r])) ->
  pp_Name r = launch_name self ->
  usable r ->
  pp_ProvisioningArtifactId r = version_id i ->
  PyStr.truthy (pp_Id r) = true ->
  (forall h a p, w h (DescribeProvisioningArtifact a p) = inr (RArtifactDetail d)) ->
  (forall h n, w h (GetParametersForStack n)
               = inr (RParams (params_to_use (provisioning_artifact_parameters i)
                                 (all_params i)))) ->
  exec (run self i) w
  = ([ScanProvisionedProductsSinglePage;
      DescribeProvisioningArtifact (version_id i) (product_id i);
      GetParametersForStack (stack_name self (Some (pp_Id r)));
      WriteOutput (OutDiff (result (version self) (version self) constants.NO_CHANGE
                              (pp_Status r) (IsActive (ad_Active d))
                              "Versions and params are the same"))],
     inr tt).
Proof.
  intros S N U A T D G. unfold exec, run.
  erewrite bind_ok
    by (unfold aws.scan_provisioned_products_single_page; unfold_m; now rewrite S).
  unfold live_state. cbn [foldl]. unfold scan_step.
  rewrite decide_True by done. rewrite bool_decide_eq_true_2 by exact U.
  rewrite A.
  erewrite bind_ok by (unfold get_current_version; unfold_m; now rewrite D).
  rewrite decide_True by done. cbn [truthy]. rewrite T.
  unfold aws.get_parameters_for_stack, write_result. unfold_m.
  rewrite G. now rewrite decide_True by done.
Qed.

(** X12.  The dry run does not know the TAINTED override.  For a live
    resource in status TAINTED at the desired version with the resolved
    parameters, ProvisionProductDryRunTask reports NO_CHANGE, while
    ProvisionProductTask, handed the same live state by its pre-check and
    reading the same parameters, finds that it has to provision. *)
Theorem dry_run_misses_tainted (self : t) (i : inputs) (w : World)
    (r : ProvisionedProduct) (d : ArtifactDetail) (h1 : list Call) :
  (forall h, w h ScanProvisionedProductsSinglePage = inr (RProvisionedProducts [r])) ->
  pp_Name r = launch_name self ->
  pp_Status r = "TAINTED" ->
  pp_ProvisioningArtifactId r = version_id i ->
  PyStr.truthy (pp_Id r) = true ->
  (forall h a p, w h (DescribeProvisioningArtifact a p) = inr (RArtifactDetail d)) ->
  (forall h n, w h (GetParametersForStack n)
               = inr (RParams (params_to_use (provisioning_artifact_parameters i)
                                 (all_params i)))) ->
  aws.terminate_if_status_is_not_available
    (launch_name self) (product_id i) (account_id self) (region self) w []
  = (h1, inr (Some (pp_Id r), Some (version_id i), Some "TAINTED")) ->
  last (calls (exec (run self i) w))
  = Some (WriteOutput (OutDiff (result (version self) (version self) constants.NO_CHANGE
                                  "TAINTED" (IsActive (ad_Active d))
                                  "Versions and params are the same")))
  /\ exists l,
       ProvisionProductTask.classify self i w []
       = (h1 ++ [GetParametersForStack (stack_name self (Some (pp_Id r)))], inr l)
       /\ need_to_provision l = true.
Proof.
  intros S N St A T D G Pre. split.
  - rewrite (dry_run_same_version self i w r d S N) by
      (first [done | unfold usable; rewrite St; set_solver]).
    now rewrite St.
  - pose proof (DecisionTheorems.classify_table self i w [] _ _ _ _ Pre)
      as (_ & Same & _).
    cbn zeta in Same. specialize (Same eq_refl T _ (G _ _)).
    eexists. split; [exact Same|]. reflexivity.
Qed.

(** The tainted launch of the example. *)
Lemma dry_run_misses_tainted_witness :
  last (calls (exec (run ProvisionExample.spoke_task ProvisionExample.inp)
                    ScanExample.tainted))
  = Some (WriteOutput (OutDiff (result "v2" "v2" "NO_CHANGE" "TAINTED" (IsActive true)
                                  "Versions and params are the same")))
  /\ exists l,
       ProvisionProductTask.classify ProvisionExample.spoke_task ProvisionExample.inp
         ScanExample.tainted []
       = ([ScanProvisionedProductsSinglePage; GetParametersForStack "SC-111111111111-pp-9"],
          inr l)
       /\ need_to_provision l = true.
Proof.
  apply (dry_run_misses_tainted ProvisionExample.spoke_task ProvisionExample.inp
           ScanExample.tainted (ScanExample.product "L1" "TAINTED" "pp-9" "pa-2")
           DryRunExample.detail [ScanProvisionedProductsSinglePage]); reflexivity.
Defined.

End ScanTheorems.

(** ** Graph construction: the tiers *)

Module TierTheorems.
Import GraphFacts.

(** What TerminateProductTask accepts, TerminateProductDryRunTask refuses:
    the first requires [execution], which the second does not declare. *)
Lemma terminate_dry_run_refuses (task : TaskParams) :
  instantiate KTerminateProductTask task = inr (Provisioning_ KTerminateProductTask task) ->
  exists param_name,
    instantiate KTerminateProductDryRunTask task
    = inl (UnknownParameterException "TerminateProductDryRunTask" param_name).
Proof.
  unfold instantiate.
  destruct (bool_decide ("manifest_file_path" ∈ task.*1)); [discriminate|].
  unfold mbind, exn_bind.
  set (kwargs := task.*1 ++ ["manifest_file_path"]).
  destruct (luigi.get_param_values (task_family KTerminateProductTask)
              (parameters KTerminateProductTask) kwargs) as [e|[]] eqn:G; [discriminate|].
  intros _. unfold luigi.get_param_values in *.
  destruct (List.find (fun param_name =>
                         negb (luigi.declares (parameters KTerminateProductTask) param_name))
              kwargs); [discriminate|].
  destruct (List.find (luigi.missing kwargs) (parameters KTerminateProductTask)) eqn:F2;
    [discriminate|].
  assert ("execution" ∈ kwargs) as E.
  { pose proof (List.find_none _ _ F2 (luigi.required "execution")) as M.
    unfold luigi.missing, luigi.required in M. cbn [luigi.has_default luigi.name negb andb] in M.
    apply negb_false_iff, bool_decide_eq_true in M; [done|].
    cbn. tauto. }
  destruct (List.find (fun param_name =>
                         negb (luigi.declares (parameters KTerminateProductDryRunTask)
                                 param_name)) kwargs) as [n|] eqn:F3.
  - now exists n.
  - exfalso. apply list_elem_of_In in E.
    pose proof (List.find_none _ _ F3 "execution" E) as D.
    now vm_compute in D.
Qed.

(** X13.  LaunchForRegionTask.requires for a launch of the manifest.  When
    the status of the launch (provisioned when none is given) is neither
    provisioned nor terminated it fails with "Unknown status: ...".
    Otherwise one class is chosen, a dry-run class exactly in a dry run
    and a terminate class exactly for status terminated, and the tasks the
    manifest lists for the launch and region are built with it in order:
    when each can be built the result holds one dependency per task, and
    every dependency on another launch is bound to the region of the task
    itself; the first task that cannot be built makes [requires] fail with
    the exception of its constructor.  That is what happens in a dry run of
    a terminated launch: a task which TerminateProductTask accepts is
    refused by TerminateProductDryRunTask with UnknownParameterException,
    so the graph of such a dry run cannot be built as soon as the launch
    has a task in the region. *)
Theorem region_tier_requires (self : LaunchForRegionTask.t) (manifest : Manifest)
    (launch : Launch) :
  launches manifest !! LaunchForRegionTask.launch_name self = Some launch ->
  let st := default constants.PROVISIONED (l_status launch) in
  let tasks :=
    get_tasks_for_launch_and_region manifest
      (LaunchForRegionTask.launch_name self) (LaunchForRegionTask.region self) in
  (st <> constants.PROVISIONED -> st <> constants.TERMINATED ->
   LaunchForRegionTask.requires self manifest
   = inl (Exception_ ("Unknown status: " +:+ st)))
  /\ (st = constants.PROVISIONED \/ st = constants.TERMINATED ->
      exists klass,
        is_dry_run_klass klass = LaunchForRegionTask.is_dry_run self
        /\ is_terminate_klass klass = bool_decide (st = constants.TERMINATED)
        /\ (Forall (fun task => instantiate klass task = inr (Provisioning_ klass task))
                   tasks ->
            exists these,
              LaunchForRegionTask.requires self manifest
              = inr (Provisioning_ klass <$> tasks, these)
              /\ Forall (fun task => exists name,
                           task = LaunchForRegionTask_ name (LaunchForRegionTask.region self))
                        these)
        /\ (forall before task after e,
              tasks = before ++ task :: after ->
              Forall (fun task => instantiate klass task = inr (Provisioning_ klass task))
                     before ->
              instantiate klass task = inl e ->
              LaunchForRegionTask.requires self manifest = inl e))
  /\ (LaunchForRegionTask.is_dry_run self = true ->
      st = constants.TERMINATED ->
      forall task rest,
        tasks = task :: rest ->
        instantiate KTerminateProductTask task
        = inr (Provisioning_ KTerminateProductTask task) ->
        exists param_name,
          LaunchForRegionTask.requires self manifest
          = inl (UnknownParameterException "TerminateProductDryRunTask" param_name)).
Proof.
  intros L st tasks.
  pose proof (klass_of_status self manifest launch L) as K. cbn zeta in K. fold st in K.
  assert (forall klass,
            LaunchForRegionTask.get_klass_for_provisioning self manifest = inr klass ->
            (Forall (fun task => instantiate klass task = inr (Provisioning_ klass task))
                    tasks ->
             exists these,
               LaunchForRegionTask.requires self manifest
               = inr (Provisioning_ klass <$> tasks, these)
               /\ Forall (fun task => exists name,
                            task = LaunchForRegionTask_ name
                                     (LaunchForRegionTask.region self)) these)
            /\ (forall before task after e,
                  tasks = before ++ task :: after ->
                  Forall (fun task => instantiate klass task
                                      = inr (Provisioning_ klass task)) before ->
                  instantiate klass task = inl e ->
                  LaunchForRegionTask.requires self manifest = inl e)) as B.
  { intros klass G.
    rewrite (region_requires_eq self manifest launch klass L G). fold tasks. split.
    - intros F. rewrite (proj2 (instantiate_all_inr klass tasks _) (conj eq_refl F)).
      eexists. split; [reflexivity|].
      rewrite these_dependencies_eq. apply Forall_fmap, Forall_forall.
      intros d _. cbn. eauto.
    - intros before task after e E F X.
      now rewrite (proj2 (instantiate_all_inl klass tasks e))
        by (exists before, task, after; auto). }
  split; [|split].
  - intros N1 N2. unfold LaunchForRegionTask.requires. rewrite K.
    now rewrite !decide_False by done.
  - intros [E|E].
    + rewrite decide_True in K by done.
      eexists. split; [|split; [|exact (B _ K)]].
      * now destruct (LaunchForRegionTask.is_dry_run self).
      * rewrite bool_decide_eq_false_2 by (rewrite E; discriminate).
        now destruct (LaunchForRegionTask.is_dry_run self).
    + rewrite decide_False in K by (rewrite E; discriminate).
      rewrite decide_True in K by done.
      eexists. split; [|split; [|exact (B _ K)]].
      * now destruct (LaunchForRegionTask.is_dry_run self).
      * rewrite bool_decide_eq_true_2 by done.
        now destruct (LaunchForRegionTask.is_dry_run self).
  - intros D E task rest T A.
    rewrite decide_False in K by (rewrite E; discriminate).
    rewrite decide_True, D in K by done.
    destruct (terminate_dry_run_refuses task A) as [n R].
    exists n. apply (proj2 (B _ K) [] task rest); [exact T|constructor|exact R].
Qed.

(** The launch L1 of the example has no status: its region tier is built,
    with a dependency on L0 in the same region.  Marked as terminated, it
    is built for a real run, and its dry run fails on the first keyword
    that TerminateProductDryRunTask does not know. *)
Lemma region_tier_requires_witness :
  LaunchForRegionTask.requires GraphExample.for_region
    (GraphExample.manifest "hub" [GraphExample.on_launches_by_region])
  = inr ([Provisioning_ KProvisionProductTask
            (GraphExample.task "L1" "111111111111" "eu-west-1")],
         [LaunchForRegionTask_ "L0" "eu-west-1"])
  /\ LaunchForRegionTask.requires GraphExample.for_region (GraphExample.terminated "hub")
     = inr ([Provisioning_ KTerminateProductTask
               (GraphExample.task "L1" "111111111111" "eu-west-1")],
            [])
  /\ LaunchForRegionTask.requires GraphExample.for_region_dry_run
       (GraphExample.terminated "hub")
     = inl (UnknownParameterException "TerminateProductDryRunTask" "execution").
Proof.
  assert (launches (GraphExample.terminated "hub")
            !! LaunchForRegionTask.launch_name GraphExample.for_region_dry_run
          = Some {| l_status := Some "terminated"; l_execution := Some "hub";
                    l_depends_on := [] |}) as L
    by now vm_compute.
  pose proof (region_tier_requires GraphExample.for_region_dry_run
                (GraphExample.terminated "hub") _ L) as (_ & _ & D).
  destruct (D eq_refl eq_refl (GraphExample.task "L1" "111111111111" "eu-west-1") []
              eq_refl eq_refl) as [n R].
  split; [now vm_compute|]. split; [now vm_compute|].
  rewrite R. now vm_compute in R.
Defined.

End TierTheorems.

(** ** Graph construction: the edges of a spoke-execution launch *)

Module EdgeTheorems.
Import GraphFacts.

Lemma edge_accepted manifest (d : DependsOn) ts :
  LaunchForSpokeExecutionTask.edge manifest d = inr ts ->
  accepted manifest d /\ length ts = (if is_supported d then 1 else 0).
Proof.
  intros E. unfold is_supported.
  destruct (decide (dep_type d ∈ LaunchForSpokeExecutionTask.supported)) as [S|S].
  - rewrite bool_decide_eq_true_2 by done.
    destruct (decide (dep_affinity d = dep_type d)) as [A|A].
    + revert E. unfold LaunchForSpokeExecutionTask.edge, accepted, get_launch.
      unfold LaunchForSpokeExecutionTask.supported in S.
      rewrite !elem_of_cons, elem_of_nil in S.
      destruct S as [S|[S|[S|[S|[S|[]]]]]]; rewrite A, S;
        repeat (first [ rewrite decide_True by reflexivity
                      | rewrite decide_False by discriminate ]).
      * unfold mbind, exn_bind.
        destruct (launches manifest !! dep_name d) as [target|]; [|discriminate].
        destruct (decide _); intros [= <-]; (split; [|reflexivity]); intros _; eauto.
      * intros [= <-]. split; [|reflexivity]. intros _. split; [done|discriminate].
      * intros [= <-]. split; [|reflexivity]. intros _. split; [done|discriminate].
      * intros [= <-]. split; [|reflexivity]. intros _. split; [done|discriminate].
      * intros [= <-]. split; [|reflexivity]. intros _. split; [done|discriminate].
    + destruct (edge_mismatch manifest d S A) as [msg M]. congruence.
  - rewrite bool_decide_eq_false_2 by done.
    rewrite edge_ignored in E by done. injection E as <-.
    split; [|reflexivity]. now intros ?.
Qed.

Lemma edge_of_accepted manifest (d : DependsOn) :
  accepted manifest d -> exists ts, LaunchForSpokeExecutionTask.edge manifest d = inr ts.
Proof.
  intros A.
  destruct (decide (dep_type d ∈ LaunchForSpokeExecutionTask.supported)) as [S|S];
    [|rewrite edge_ignored by done; eauto].
  destruct (A S) as [Af T].
  unfold LaunchForSpokeExecutionTask.edge, get_launch.
  unfold LaunchForSpokeExecutionTask.supported in S.
  rewrite !elem_of_cons, elem_of_nil in S.
  destruct S as [S|[S|[S|[S|[S|[]]]]]]; rewrite Af, S;
    repeat (first [ rewrite decide_True by reflexivity
                  | rewrite decide_False by discriminate ]); eauto.
  destruct (T S) as [target ->]. unfold mbind, exn_bind.
  destruct (decide _); eauto.
Qed.

Lemma edges_accepted manifest (ds : list DependsOn) : forall ts,
  LaunchForSpokeExecutionTask.edges manifest ds = inr ts ->
  Forall (accepted manifest) ds /\ length ts = length (List.filter is_supported ds).
Proof.
  induction ds as [|d ds IH]; intros ts; cbn [LaunchForSpokeExecutionTask.edges].
  - intros [= <-]. split; [constructor|reflexivity].
  - unfold mbind, exn_bind.
    destruct (LaunchForSpokeExecutionTask.edge manifest d) as [e|t1] eqn:E1; [discriminate|].
    destruct (LaunchForSpokeExecutionTask.edges manifest ds) as [e|t2]; [discriminate|].
    intros [= <-]. destruct (edge_accepted _ _ _ E1) as [A1 L1].
    destruct (IH t2 eq_refl) as [A2 L2].
    split; [now constructor|].
    rewrite length_app, L1, L2. cbn [List.filter].
    now destruct (is_supported d).
Qed.

Lemma edges_of_accepted manifest (ds : list DependsOn) :
  Forall (accepted manifest) ds ->
  exists ts, LaunchForSpokeExecutionTask.edges manifest ds = inr ts.
Proof.
  induction 1 as [|d ds A _ [t2 IH]]; cbn [LaunchForSpokeExecutionTask.edges]; [eauto|].
  destruct (edge_of_accepted manifest d A) as [t1 ->]. rewrite IH.
  unfold mbind, exn_bind. eauto.
Qed.

Lemma edges_launch_kind manifest (ds : list DependsOn) d target : forall ts,
  LaunchForSpokeExecutionTask.edges manifest ds = inr ts ->
  d ∈ ds ->
  dep_type d = Some constants.LAUNCH ->
  launches manifest !! dep_name d = Some target ->
  (if decide (l_execution target = Some constants.EXECUTION_MODE_SPOKE)
   then LaunchForSpokeExecutionTask_ (dep_name d)
   else LaunchTask_ (dep_name d)) ∈ ts.
Proof.
  induction ds as [|d' ds IH]; intros ts E I T L.
  - now apply elem_of_nil in I.
  - cbn [LaunchForSpokeExecutionTask.edges] in E. unfold mbind, exn_bind in E.
    destruct (LaunchForSpokeExecutionTask.edge manifest d') as [e|t1] eqn:E1; [discriminate|].
    destruct (LaunchForSpokeExecutionTask.edges manifest ds) as [e|t2]; [discriminate|].
    injection E as <-. apply elem_of_app.
    apply elem_of_cons in I as [<-|I]; [left|right; now apply IH].
    revert E1. unfold LaunchForSpokeExecutionTask.edge, get_launch. rewrite T.
    rewrite decide_True by done.
    destruct (decide (dep_affinity d = Some constants.LAUNCH)); [|discriminate].
    rewrite L. unfold mbind, exn_bind.
    destruct (decide _); intros [= <-]; now left.
Qed.

(** X14.  LaunchForSpokeExecutionTask.requires for a launch of the
    manifest succeeds exactly when every depends_on edge is acceptable: of
    a type the loop does not know, or of a known type with that type as
    its affinity and, for type launch, naming a launch of the manifest.
    On success it yields one task per edge of a known type; the task for an
    edge on a launch is a LaunchForSpokeExecutionTask when the launch
    depended upon has execution mode spoke, and a LaunchTask otherwise. *)
Theorem spoke_execution_requires (self : LaunchForSpokeExecutionTask.t)
    (manifest : Manifest) (launch : Launch) :
  launches manifest !! LaunchForSpokeExecutionTask.launch_name self = Some launch ->
  ((exists ts, LaunchForSpokeExecutionTask.requires self manifest = inr ts)
   <-> Forall (accepted manifest) (l_depends_on launch))
  /\ (forall ts,
        LaunchForSpokeExecutionTask.requires self manifest = inr ts ->
        length ts = length (List.filter is_supported (l_depends_on launch))
        /\ forall d target,
             d ∈ l_depends_on launch ->
             dep_type d = Some constants.LAUNCH ->
             launches manifest !! dep_name d = Some target ->
             (if decide (l_execution target = Some constants.EXECUTION_MODE_SPOKE)
              then LaunchForSpokeExecutionTask_ (dep_name d)
              else LaunchTask_ (dep_name d)) ∈ ts).
Proof.
  intros L.
  assert (LaunchForSpokeExecutionTask.requires self manifest
          = LaunchForSpokeExecutionTask.edges manifest (l_depends_on launch)) as ->.
  { unfold LaunchForSpokeExecutionTask.requires, get_launch. now rewrite L. }
  split; [split|].
  - intros [ts E]. now apply edges_accepted in E.
  - apply edges_of_accepted.
  - intros ts E. split; [now apply edges_accepted in E|].
    intros d target I T Lt. now apply (edges_launch_kind manifest (l_depends_on launch)).
Qed.

(** L1 depends on the spoke-execution launch L0 and on something of a type
    the loop does not know: one task, for L0. *)
Lemma spoke_execution_requires_witness :
  exists ts,
    LaunchForSpokeExecutionTask.requires GraphExample.spoke_execution
      (GraphExample.manifest "spoke" [GraphMore.on_launch; GraphExample.on_stack])
    = inr ts
    /\ length ts = 1
    /\ LaunchForSpokeExecutionTask_ "L0" ∈ ts.
Proof.
  assert (launches (GraphExample.manifest "spoke" [GraphMore.on_launch; GraphExample.on_stack])
            !! LaunchForSpokeExecutionTask.launch_name GraphExample.spoke_execution
          = Some (GraphExample.launch "spoke" [GraphMore.on_launch; GraphExample.on_stack]))
    as L by now vm_compute.
  pose proof (spoke_execution_requires _ _ _ L) as (_ & S).
  eexists. split; [now vm_compute|].
  destruct (S [LaunchForSpokeExecutionTask_ "L0"]) as [Len Kind]; [now vm_compute|].
  split; [exact Len|].
  apply (Kind GraphMore.on_launch (GraphExample.launch "spoke" [])).
  - now left.
  - reflexivity.
  - now vm_compute.
Defined.

End EdgeTheorems.

(** ** Graph construction: the section and the launch *)

Module SectionTheorems.
Import GraphFacts.

Lemma section_spoke_run handle items :
  LaunchSectionTask.requires true handle items
  = flat_map (fun item => handle (fst item)) (List.filter LaunchSectionTask.is_spoke items).
Proof.
  induction items as [|item items IH]; [reflexivity|].
  unfold LaunchSectionTask.requires in *. cbn [flat_map List.filter].
  unfold LaunchSectionTask.is_spoke at 1.
  destruct (decide (l_execution (snd item) = Some constants.EXECUTION_MODE_SPOKE)).
  - rewrite bool_decide_eq_true_2 by done. cbn [flat_map]. now rewrite IH.
  - rewrite bool_decide_eq_false_2 by done. now rewrite IH.
Qed.

Lemma section_hub_run handle items :
  LaunchSectionTask.requires false handle items
  = flat_map (fun item => if LaunchSectionTask.is_spoke item
                          then [LaunchForSpokeExecutionTask_ (fst item)]
                          else handle (fst item)) items.
Proof.
  unfold LaunchSectionTask.requires. apply flat_map_ext. intros item.
  unfold LaunchSectionTask.is_spoke.
  destruct (decide (l_execution (snd item) = Some constants.EXECUTION_MODE_SPOKE)).
  - rewrite bool_decide_eq_true_2 by done. rewrite decide_False; [done|]. now intros N.
  - rewrite bool_decide_eq_false_2 by done. now rewrite decide_True.
Qed.

(** X15.  LaunchSectionTask.requires splits the launches of the manifest
    between the hub run and the spoke runs.  A run in a spoke expands the
    launches of execution mode spoke and nothing else.  A run in the hub
    expands every other launch and hands each launch of execution mode
    spoke to one LaunchForSpokeExecutionTask.  Taken together the two runs
    expand every launch exactly once. *)
Theorem section_splits_launches (handle : string -> list Task)
    (items : list (string * Launch)) :
  LaunchSectionTask.requires true handle items
  = flat_map (fun item => handle (fst item)) (List.filter LaunchSectionTask.is_spoke items)
  /\ LaunchSectionTask.requires false handle items
     = flat_map (fun item => if LaunchSectionTask.is_spoke item
                             then [LaunchForSpokeExecutionTask_ (fst item)]
                             else handle (fst item)) items
  /\ LaunchSectionTask.requires true handle items
       ++ LaunchSectionTask.requires false handle items
     ≡ₚ flat_map (fun item => handle (fst item)) items
          ++ ((fun item => LaunchForSpokeExecutionTask_ (fst item))
                <$> List.filter LaunchSectionTask.is_spoke items).
Proof.
  split; [apply section_spoke_run|]. split; [apply section_hub_run|].
  rewrite section_spoke_run, section_hub_run.
  induction items as [|item items IH]; [reflexivity|].
  cbn [flat_map List.filter]. destruct (LaunchSectionTask.is_spoke item).
  - cbn [flat_map fmap list_fmap app].
    rewrite <- !app_assoc. apply Permutation_app_head.
    rewrite <- !Permutation_middle. now apply perm_skip.
  - rewrite <- app_assoc, <- IH.
    rewrite !app_assoc. apply Permutation_app_tail. apply Permutation_app_comm.
Qed.

Lemma tier_klass (self : LaunchTask.t) manifest account region :
  LaunchForRegionTask.get_klass_for_provisioning
    (LaunchForAccountAndRegionTask.as_launch (LaunchTask.tier self account region)) manifest
  = LaunchForRegionTask.get_klass_for_provisioning (LaunchTask.as_launch self) manifest.
Proof. reflexivity. Qed.

(** The three nested loops of LaunchTask.requires go through the tasks of
    the (account, region) pairs in order. *)
Lemma tasks_by_pair (g : string -> string -> list TaskParams)
    (items : list (string * list string)) :
  flat_map (fun item => flat_map (fun region => g (fst item) region) (snd item)) items
  = flat_map (fun pair => g (fst pair) (snd pair))
      (flat_map (fun item => (fun region => (fst item, region)) <$> snd item) items).
Proof.
  induction items as [|[account regions] items IH]; [reflexivity|].
  cbn [flat_map fst snd]. rewrite flat_map_app, <- IH. f_equal.
  clear IH. induction regions as [|region regions IH]; [reflexivity|].
  cbn [flat_map fmap list_fmap fst snd]. now rewrite IH.
Qed.

Lemma instantiate_all_flat_inr {X} klass (f : X -> list TaskParams) (xs : list X) ts :
  instantiate_all klass (flat_map f xs) = inr ts
  <-> exists tiers,
        Forall2 (fun x tier => instantiate_all klass (f x) = inr tier) xs tiers
        /\ ts = concat tiers.
Proof.
  revert ts. induction xs as [|x xs IH]; intros ts; cbn [flat_map].
  - split.
    + intros [= <-]. exists []. now split.
    + intros (tiers & F & ->). now apply Forall2_nil_inv_l in F as ->.
  - rewrite instantiate_all_app. split.
    + destruct (instantiate_all klass (f x)) as [e|t1] eqn:E1; [discriminate|].
      destruct (instantiate_all klass (flat_map f xs)) as [e|t2] eqn:E2; [discriminate|].
      intros [= <-]. destruct (proj1 (IH t2) eq_refl) as (tiers & F & ->).
      exists (t1 :: tiers). split; [now constructor|reflexivity].
    + intros (tiers & F & ->).
      apply Forall2_cons_inv_l in F as (t1 & tiers' & E1 & F & ->).
      rewrite E1. now rewrite (proj2 (IH (concat tiers')) (ex_intro _ tiers' (conj F eq_refl))).
Qed.

Lemma instantiate_all_flat_inl {X} klass (f : X -> list TaskParams) (xs : list X) e :
  instantiate_all klass (flat_map f xs) = inl e
  <-> exists before x after,
        xs = before ++ x :: after
        /\ Forall (fun x => exists tier, instantiate_all klass (f x) = inr tier) before
        /\ instantiate_all klass (f x) = inl e.
Proof.
  induction xs as [|x xs IH]; cbn [flat_map].
  - split; [discriminate|]. intros (before & x & after & E & _). now destruct before.
  - rewrite instantiate_all_app. split.
    + destruct (instantiate_all klass (f x)) as [e1|t1] eqn:E1.
      * intros [= ->]. now exists [], x, xs.
      * destruct (instantiate_all klass (flat_map f xs)) as [e2|t2] eqn:E2; [|discriminate].
        intros [= ->]. destruct (proj1 IH eq_refl) as (before & y & after & -> & F & Y).
        exists (x :: before), y, after. repeat split; [|done].
        constructor; [eauto|done].
    + intros (before & y & after & E & F & Y). destruct before as [|x' before].
      * injection E as -> ->. now rewrite Y.
      * injection E as -> ->. apply Forall_cons in F as [[t1 E1] F]. rewrite E1.
        now rewrite (proj2 IH) by (exists before, y, after; auto).
Qed.

(** X16.  The requirements of LaunchTask are those of the innermost tier
    put together.  LaunchTask.requires returns exactly when a class can be
    chosen for the launch and LaunchForAccountAndRegionTask.requires
    returns for every account and each of its regions, and its result is
    the results of these, in order.  It fails either because no class can
    be chosen, whether or not the launch has any account, or with the
    exception of the first account and region, in order, whose tier
    fails. *)
Theorem launch_task_gathers_tiers (self : LaunchTask.t) (manifest : Manifest)
    (account_ids_and_regions : list (string * list string))
    (tasks_for : string -> string -> string -> list TaskParams) :
  let pairs :=
    flat_map (fun item => (fun region => (fst item, region)) <$> snd item)
             account_ids_and_regions in
  let tier pair :=
    LaunchForAccountAndRegionTask.requires
      (LaunchTask.tier self (fst pair) (snd pair)) manifest tasks_for in
  let klass := LaunchForRegionTask.get_klass_for_provisioning
                 (LaunchTask.as_launch self) manifest in
  (forall ts,
     LaunchTask.requires self manifest account_ids_and_regions tasks_for = inr ts
     <-> (exists k, klass = inr k)
         /\ exists tiers,
              Forall2 (fun pair result => tier pair = inr result) pairs tiers
              /\ ts = concat tiers)
  /\ (forall e,
        LaunchTask.requires self manifest account_ids_and_regions tasks_for = inl e
        <-> klass = inl e
            \/ exists before pair after,
                 pairs = before ++ pair :: after
                 /\ Forall (fun pair => exists result, tier pair = inr result) before
                 /\ tier pair = inl e).
Proof.
  intros pairs tier klass.
  unfold LaunchTask.requires. rewrite tasks_by_pair. fold pairs klass.
  assert (forall pair,
            tier pair
            = match klass with
              | inl e => inl e
              | inr k => instantiate_all k
                           (tasks_for (LaunchTask.launch_name self) (fst pair) (snd pair))
              end) as T.
  { intros pair. unfold tier, LaunchForAccountAndRegionTask.requires.
    rewrite tier_klass. fold klass. unfold mbind, exn_bind. now destruct klass. }
  unfold mbind, exn_bind. destruct klass as [e0|k] eqn:K.
  - split.
    + intros ts. split; [discriminate|]. now intros [[k [=]] _].
    + intros e. split; [intros [= ->]; now left|].
      intros [[= ->]|(before & pair & after & _ & _ & E)]; [done|].
      now rewrite T in E.
  - split.
    + intros ts. rewrite instantiate_all_flat_inr. split.
      * intros (tiers & F & ->). split; [eauto|]. exists tiers. split; [|done].
        eapply Forall2_impl; [exact F|]. intros pair result R. cbn beta in *. now rewrite T.
      * intros (_ & tiers & F & ->). exists tiers. split; [|done].
        eapply Forall2_impl; [exact F|]. intros pair result R. cbn beta in *. now rewrite T in R.
    + intros e. rewrite instantiate_all_flat_inl. split.
      * intros (before & pair & after & E & F & R). right.
        exists before, pair, after. split; [done|]. rewrite T. split; [|done].
        eapply Forall_impl; [exact F|]. intros p [r R']. exists r. cbn beta in *. now rewrite T.
      * intros [[=]|(before & pair & after & E & F & R)].
        exists before, pair, after. split; [done|]. rewrite T in R. split; [|done].
        eapply Forall_impl; [exact F|]. intros p [r R']. exists r. cbn beta in *. now rewrite T in R'.
Qed.

(** The example launch in two accounts, the second with two regions: one
    task per account and region, in order.  The dry run of the same launch
    marked as terminated fails in the first account. *)
Lemma launch_task_gathers_tiers_witness :
  LaunchTask.requires GraphMore.launch_task (GraphExample.manifest "hub" [])
    [("111111111111", ["eu-west-1"]); ("222222222222", ["eu-west-1"; "us-east-1"])]
    GraphMore.tasks_for
  = inr (Provisioning_ KProvisionProductTask
           <$> [ GraphExample.task "L1" "111111111111" "eu-west-1";
                 GraphExample.task "L1" "222222222222" "eu-west-1";
                 GraphExample.task "L1" "222222222222" "us-east-1" ])
  /\ LaunchTask.requires GraphMore.launch_task_dry_run (GraphExample.terminated "hub")
       [("111111111111", ["eu-west-1"]); ("222222222222", ["eu-west-1"; "us-east-1"])]
       GraphMore.tasks_for
     = inl (UnknownParameterException "TerminateProductDryRunTask" "execution").
Proof.
  split.
  - apply (proj1 (launch_task_gathers_tiers GraphMore.launch_task
                    (GraphExample.manifest "hub" [])
                    [("111111111111", ["eu-west-1"]);
                     ("222222222222", ["eu-west-1"; "us-east-1"])]
                    GraphMore.tasks_for)).
    split; [now eexists|].
    exists [ [Provisioning_ KProvisionProductTask
                (GraphExample.task "L1" "111111111111" "eu-west-1")];
             [Provisioning_ KProvisionProductTask
                (GraphExample.task "L1" "222222222222" "eu-west-1")];
             [Provisioning_ KProvisionProductTask
                (GraphExample.task "L1" "222222222222" "us-east-1")] ].
    split; [|reflexivity].
    repeat (constructor; [now vm_compute|]). constructor.
  - apply (proj2 (launch_task_gathers_tiers GraphMore.launch_task_dry_run
                    (GraphExample.terminated "hub")
                    [("111111111111", ["eu-west-1"]);
                     ("222222222222", ["eu-west-1"; "us-east-1"])]
                    GraphMore.tasks_for)).
    right. exists [], ("111111111111", "eu-west-1"),
             [("222222222222", "eu-west-1"); ("222222222222", "us-east-1")].
    split; [reflexivity|]. split; [constructor|now vm_compute].
Defined.

End SectionTheorems.

(** ** DoExecuteCodeBuildRunTask *)

Module CodeBuildTheorems.
Import DoExecuteCodeBuildRunTask.

Lemma overrides_iff provided vars v :
  v ∈ overrides provided vars
  <-> exists var, var ∈ vars /\ ev_type var = "PLAINTEXT"
                  /\ provided !! ev_name var = Some (Some (ev_value v))
                  /\ PyStr.truthy (ev_value v) = true
                  /\ v = RunDeployInSpokeTask.plaintext (ev_name var) (ev_value v).
Proof.
  unfold overrides. rewrite list_elem_of_In, in_flat_map. split.
  - intros (var & I & V). exists var. apply list_elem_of_In in I.
    destruct (decide _) as [T|]; [|now destruct V].
    destruct (provided !! ev_name var) as [[value|]|] eqn:P; try now destruct V.
    destruct (PyStr.truthy value) eqn:Tr; [|now destruct V].
    destruct V as [<-|[]]. cbn. now rewrite Tr.
  - intros (var & I & T & P & Tr & E). exists var. split; [now apply list_elem_of_In|].
    rewrite decide_True, P, Tr by done. left. now symmetry.
Qed.

(** X17.  The environment DoExecuteCodeBuildRunTask passes to the build.
    Every variable is PLAINTEXT.  The list ends with TARGET_ACCOUNT_ID and
    TARGET_REGION, set to the account and region of the task.  Before
    them come exactly the overrides: a variable is passed with a value if
    and only if the project of the task declares it as PLAINTEXT and a
    value that is not empty is provided for it; a provided parameter the
    project does not declare, and a declared variable without a provided
    value, are not passed. *)
Theorem environment_of_code_build_run (self : t) (provided : gmap string pyval)
    (projects : list (string * list EnvVar)) :
  Forall (fun v => ev_type v = "PLAINTEXT") (parameters_to_use self provided projects)
  /\ exists passed,
       parameters_to_use self provided projects
       = passed ++ [ RunDeployInSpokeTask.plaintext "TARGET_ACCOUNT_ID" (account_id self);
                     RunDeployInSpokeTask.plaintext "TARGET_REGION" (region self) ]
       /\ forall name value,
            RunDeployInSpokeTask.plaintext name value ∈ passed
            <-> overridable self provided projects name value.
Proof.
  assert (forall v,
            v ∈ flat_map (fun project =>
                   if decide (fst project = project_name self)
                   then overrides provided (snd project) else []) projects
            <-> exists project, project ∈ projects /\ fst project = project_name self
                                /\ v ∈ overrides provided (snd project)) as F.
  { intros v. rewrite list_elem_of_In, in_flat_map. split.
    - intros (project & I & V). exists project. apply list_elem_of_In in I.
      destruct (decide _); [|now destruct V]. now apply list_elem_of_In in V.
    - intros (project & I & N & V). exists project.
      split; [now apply list_elem_of_In|]. rewrite decide_True by done.
      now apply list_elem_of_In. }
  split.
  - unfold parameters_to_use. rewrite Forall_app. split; [|now repeat constructor].
    apply Forall_forall. intros v I. apply F in I as (project & _ & _ & I).
    apply overrides_iff in I as (var & _ & _ & _ & _ & ->). reflexivity.
  - eexists. split; [reflexivity|]. intros name value. rewrite F. split.
    + intros (project & I & N & V). apply overrides_iff in V as (var & Iv & T & P & Tr & E).
      cbn in *. injection E as E. exists project, var. now rewrite <- E in P.
    + intros (project & var & I & N & Iv & T & <- & P & Tr).
      exists project. split; [done|]. split; [done|].
      apply overrides_iff. exists var. cbn. done.
Qed.

End CodeBuildTheorems.

(** ** Output last, or none: the other tasks *)

Module OutputTheorems.

Lemma output_last_write (o : Output) : output_last (write_output o).
Proof. intros w h. exists []. split; [constructor|]. left. now exists o. Qed.

Lemma output_last_bind {A} (m : M A) (f : A -> M unit) :
  emits (fun c => is_write c = false) m ->
  (forall a, output_last (f a)) ->
  output_last (m ≫= f).
Proof.
  intros Hm Hf w h. destruct (Hm w h) as (n1 & E1 & F1 & _).
  unfold mbind, M_bind. destruct (m w h) as [h' [e|a]]; cbn [fst snd] in *; subst h'.
  - exists n1. split; [done|]. right. eauto.
  - destruct (Hf a w (h ++ n1)) as (n2 & F2 & [[o E2]|[e E2]]).
    + exists (n1 ++ n2). split; [now apply Forall_app|].
      left. exists o. rewrite E2. now rewrite <- !app_assoc.
    + exists (n1 ++ n2). split; [now apply Forall_app|].
      right. exists e. rewrite E2. now rewrite <- !app_assoc.
Qed.

Lemma retry_loop_no_write (self : DoDescribeProvisioningParameters.t) n :
  emits (fun c => is_write c = false) (DoDescribeProvisioningParameters.retry_loop self n).
Proof.
  induction n as [|n IH]; cbn [DoDescribeProvisioningParameters.retry_loop].
  - now apply spec_ret.
  - apply spec_try_catch.
    + eapply spec_bind with (Q := fun _ => True).
      * unfold DoDescribeProvisioningParameters.describe_provisioning_parameters.
        now one_call.
      * intros l _. now apply spec_ret.
    + intros e. destruct (is_client_error e); [|apply spec_raise].
      destruct (PyStr.contains _ _); [|apply spec_raise].
      eapply spec_bind; [now apply spec_emit|]. intros _ _.
      eapply spec_bind; [now apply spec_emit|]. intros _ _. apply IH.
Qed.

(** X18.  DoDescribeProvisioningParameters, DoTerminateProductTask,
    RunDeployInSpokeTask and DoExecuteCodeBuildRunTask write their output
    once, as the last event of a run that completes, and not at all in a
    run that raises: whatever the clients answer, an output of these tasks
    is never followed by a failure. *)
Theorem output_is_written_last :
  (forall self, output_last (DoDescribeProvisioningParameters.run self))
  /\ (forall self product_id, output_last (DoTerminateProductTask.run self product_id))
  /\ (forall self i, output_last (RunDeployInSpokeTask.run self i))
  /\ (forall self provided, output_last (DoExecuteCodeBuildRunTask.run self provided)).
Proof.
  split; [|split; [|split]].
  - intros self. unfold DoDescribeProvisioningParameters.run.
    apply output_last_bind; [apply retry_loop_no_write|].
    intros o. apply output_last_write.
  - intros self product_id. unfold DoTerminateProductTask.run.
    apply output_last_bind.
    { unfold emits, aws.ensure_is_terminated.
      eapply spec_bind; [now apply scan_spec|]. intros products _.
      destruct (aws.named _ products) as [r|]; [|now apply spec_ret].
      destruct (bool_decide _); [now apply spec_ret|].
      eapply spec_bind; [now apply spec_perform|]. intros _ _. now apply spec_ret. }
    intros [id paid]. apply output_last_bind; [|intros _; apply output_last_write].
    apply spec_for_each. intros b _. unfold DoTerminateProductTask.delete_ssm_param_output.
    eapply spec_bind; [now apply spec_emit|]. intros _ _.
    apply spec_try_catch.
    + eapply spec_bind; [now apply spec_perform|]. intros _ _. now apply spec_emit.
    + intros []; first [now apply spec_emit | apply spec_raise].
  - intros self i. unfold RunDeployInSpokeTask.run.
    apply output_last_bind; [now apply spec_perform|]. intros _.
    apply output_last_bind; [unfold emits, RunDeployInSpokeTask.expect_str; now one_call|].
    intros url.
    apply output_last_bind; [unfold emits, RunDeployInSpokeTask.expect_str; now one_call|].
    intros version.
    apply output_last_bind; [unfold emits, RunDeployInSpokeTask.start_build; now one_call|].
    intros response. apply output_last_write.
  - intros self provided. unfold DoExecuteCodeBuildRunTask.run.
    apply output_last_bind;
      [unfold emits, DoExecuteCodeBuildRunTask.batch_get_projects; now one_call|].
    intros projects.
    apply output_last_bind; [now apply spec_perform|]. intros _.
    apply output_last_write.
Qed.

End OutputTheorems.

(** ** Tasks with clients of their own *)

Section eff_facts.
Context {C R A B : Type}.

Lemma eff_bind_ok (m : Eff.T C R A) (f : A -> Eff.T C R B) w h h' a :
  m w h = (h', inr a) -> Eff.bind m f w h = f a w h'.
Proof. intros E. unfold Eff.bind. now rewrite E. Qed.

Lemma eff_bind_err (m : Eff.T C R A) (f : A -> Eff.T C R B) w h h' e :
  m w h = (h', inl e) -> Eff.bind m f w h = (h', inl e).
Proof. intros E. unfold Eff.bind. now rewrite E. Qed.

End eff_facts.

Module OwnerTheorems.
Import ResetProvisionedProductOwnerTask.

Lemma named_decide (self : t) r (X : Type) (a b : X) :
  (if decide (pp_Name r = launch_name self) then a else b)
  = if named self r then a else b.
Proof.
  unfold named. destruct (decide _).
  - now rewrite bool_decide_eq_true_2.
  - now rewrite bool_decide_eq_false_2.
Qed.

Lemma reset_owners_ok (self : t) arn w (results : list ProvisionedProduct) :
  forall changes h,
    (forall h' r, r ∈ results -> named self r = true ->
       exists a, w h' (update_of self arn r) = inr a) ->
    reset_owners self arn results changes w h
    = (h ++ (update_of self arn <$> List.filter (named self) results),
       inr (changes ++ List.filter (named self) results)).
Proof.
  induction results as [|r results IH]; intros changes h U.
  - cbn. unfold Eff.ret. now rewrite !app_nil_r.
  - cbn [reset_owners List.filter]. rewrite named_decide.
    destruct (named self r) eqn:N.
    + destruct (U h r) as [a E]; [now left|done|].
      erewrite eff_bind_ok by (unfold Eff.perform; fold (update_of self arn r);
                               rewrite E; reflexivity).
      rewrite IH by (intros h' r' I'; apply U; now right).
      cbn [fmap list_fmap]. rewrite <- !app_assoc. reflexivity.
    + apply IH. intros h' r' I'. apply U. now right.
Qed.

Lemma reset_owners_stops (self : t) arn w before r after e :
  forall changes h,
    (forall h' r', r' ∈ before -> named self r' = true ->
       exists a, w h' (update_of self arn r') = inr a) ->
    named self r = true ->
    (forall h', w h' (update_of self arn r) = inl e) ->
    reset_owners self arn (before ++ r :: after) changes w h
    = (h ++ (update_of self arn <$> List.filter (named self) (before ++ [r])), inl e).
Proof.
  induction before as [|r0 before IH]; intros changes h U N F.
  - cbn [app reset_owners List.filter]. rewrite named_decide, N.
    erewrite eff_bind_err by (unfold Eff.perform; fold (update_of self arn r);
                              rewrite F; reflexivity).
    reflexivity.
  - cbn [app reset_owners List.filter]. rewrite named_decide.
    destruct (named self r0) eqn:N0.
    + destruct (U h r0) as [a E]; [now left|done|].
      erewrite eff_bind_ok by (unfold Eff.perform; fold (update_of self arn r0);
                               rewrite E; reflexivity).
      rewrite IH by (first [done | intros h' r' I'; apply U; now right]).
      cbn [fmap list_fmap]. rewrite <- !app_assoc. reflexivity.
    + apply IH; [|done..]. intros h' r' I'. apply U. now right.
Qed.

(** X19.  ResetProvisionedProductOwnerTask.run scans once and then updates
    the owner of every scanned product whose name is the launch's, in the
    order of the scan, each by its id and to the puppet role of the
    account; products of other names are left alone.  When the updates are
    accepted the output is the list of the products updated.  When an
    update fails, the run ends with its error: the products after it are
    not updated and no output is written. *)
Theorem owner_is_reset_for_the_launch (self : t) (arn : string -> string)
    (w : Eff.world call response) (h : list call) (products : list ProvisionedProduct) :
  w h ScanProvisionedProducts = inr (Products products) ->
  ((forall h' r, r ∈ products -> named self r = true ->
      exists a, w h' (update_of self arn r) = inr a) ->
   run self arn w h
   = (h ++ ScanProvisionedProducts
        :: (update_of self arn <$> List.filter (named self) products)
        ++ [WriteChanges (List.filter (named self) products)],
      inr tt))
  /\ (forall before r after e,
        products = before ++ r :: after ->
        (forall h' r', r' ∈ before -> named self r' = true ->
           exists a, w h' (update_of self arn r') = inr a) ->
        named self r = true ->
        (forall h', w h' (update_of self arn r) = inl e) ->
        run self arn w h
        = (h ++ ScanProvisionedProducts
             :: (update_of self arn <$> List.filter (named self) (before ++ [r])),
           inl e)).
Proof.
  intros S.
  assert (scan w h = (h ++ [ScanProvisionedProducts], inr products)) as Sc.
  { unfold scan, Eff.bind, Eff.perform. now rewrite S. }
  split.
  - intros U. unfold run. erewrite eff_bind_ok by exact Sc.
    erewrite eff_bind_ok by (now apply reset_owners_ok).
    unfold Eff.emit. cbn [app]. now rewrite <- !app_assoc.
  - intros before r after e -> U N F. unfold run.
    erewrite eff_bind_ok by exact Sc.
    erewrite eff_bind_err by (now apply reset_owners_stops).
    now rewrite <- !app_assoc.
Qed.

(** Two of the three scanned products carry the name of the launch. *)
Lemma owner_is_reset_for_the_launch_witness :
  run OwnerExample.task OwnerExample.role OwnerExample.accepting []
  = ([ScanProvisionedProducts;
      UpdateProvisionedProductProperties "pp-1"
        "arn:aws:iam::111111111111:role/servicecatalog-puppet/PuppetRole";
      UpdateProvisionedProductProperties "pp-3"
        "arn:aws:iam::111111111111:role/servicecatalog-puppet/PuppetRole";
      WriteChanges [ScanExample.product "L1" "AVAILABLE" "pp-1" "pa-1";
                    ScanExample.product "L1" "ERROR" "pp-3" "pa-2"]],
     inr tt)
  /\ run OwnerExample.task OwnerExample.role OwnerExample.refusing []
     = ([ScanProvisionedProducts;
         UpdateProvisionedProductProperties "pp-1"
           "arn:aws:iam::111111111111:role/servicecatalog-puppet/PuppetRole";
         UpdateProvisionedProductProperties "pp-3"
           "arn:aws:iam::111111111111:role/servicecatalog-puppet/PuppetRole"],
        inl (ClientError "AccessDeniedException")).
Proof.
  split.
  - apply (proj1 (owner_is_reset_for_the_launch OwnerExample.task OwnerExample.role
                    OwnerExample.accepting [] OwnerExample.products eq_refl)).
    intros h' r _ _. now exists Updated.
  - apply (proj2 (owner_is_reset_for_the_launch OwnerExample.task OwnerExample.role
                    OwnerExample.refusing [] OwnerExample.products eq_refl)
             [ScanExample.product "L1" "AVAILABLE" "pp-1" "pa-1";
              ScanExample.product "other" "AVAILABLE" "pp-2" "pa-7"]
             (ScanExample.product "L1" "ERROR" "pp-3" "pa-2") []
             (ClientError "AccessDeniedException")).
    + reflexivity.
    + intros h' r' I N. exists Updated.
      apply elem_of_cons in I as [->|I]; [reflexivity|].
      apply list_elem_of_singleton in I as ->. discriminate N.
    + reflexivity.
    + reflexivity.
Defined.

End OwnerTheorems.

Module TerminateDryRunTheorems.
Import TerminateProductDryRunTask.

(** X20.  TerminateProductDryRunTask.run.  Without a provisioned product
    of the launch it reports NO_CHANGE, "There is nothing to terminate",
    and asks for no version.  With one, it first looks up the name of the
    live version: if that fails the run fails and reports nothing, even for
    a product that is already terminated.  A product in any status but
    TERMINATED is reported as CHANGE with the name of its version; a
    product in status TERMINATED is reported as CHANGE too, with "-" for
    the version.  So a completed run reports NO_CHANGE exactly when no
    product was found. *)
Theorem terminate_dry_run_report (self : t) (w : Eff.world call response)
    (h : list call) :
  let find := GetProvisionedProductDetails (product_id self) (launch_name self) in
  (w h find = inr (Details None) ->
   run self w h
   = (h ++ [find; WriteResult (diff "-" "-" constants.NO_CHANGE
                                 "There is nothing to terminate")],
      inr tt))
  /\ (forall r,
        w h find = inr (Details (Some r)) ->
        let describe :=
          DescribeProvisioningArtifact (pp_ProvisioningArtifactId r) (product_id self) in
        (forall e, w (h ++ [find]) describe = inl e ->
                   run self w h = (h ++ [find; describe], inl e))
        /\ (forall d, w (h ++ [find]) describe = inr (Artifact d) ->
            run self w h
            = (h ++ [find; describe;
                     WriteResult
                       (if decide (pp_Status r = "TERMINATED")
                        then diff "-" "-" constants.CHANGE "The product is already terminated"
                        else diff (ad_Name d) "-" constants.CHANGE
                               "The product would be terminated")],
               inr tt)))
  /\ (forall h' d,
        run self w h = (h', inr tt) ->
        last h' = Some (WriteResult d) ->
        (effect d = constants.NO_CHANGE <-> w h find = inr (Details None))).
Proof.
  intros find.
  assert (w h find = inr (Details None) ->
          run self w h
          = (h ++ [find; WriteResult (diff "-" "-" constants.NO_CHANGE
                                        "There is nothing to terminate")],
             inr tt)) as Nothing.
  { intros E. unfold run, get_provisioned_product_details.
    erewrite eff_bind_ok
      by (unfold Eff.bind, Eff.perform; fold find; rewrite E; reflexivity).
    unfold write_result, Eff.emit. now rewrite <- app_assoc. }
  assert (forall r d,
            w h find = inr (Details (Some r)) ->
            w (h ++ [find])
              (DescribeProvisioningArtifact (pp_ProvisioningArtifactId r) (product_id self))
            = inr (Artifact d) ->
            run self w h
            = (h ++ [find;
                     DescribeProvisioningArtifact (pp_ProvisioningArtifactId r)
                       (product_id self);
                     WriteResult
                       (if decide (pp_Status r = "TERMINATED")
                        then diff "-" "-" constants.CHANGE "The product is already terminated"
                        else diff (ad_Name d) "-" constants.CHANGE
                               "The product would be terminated")],
               inr tt)) as Found.
  { intros r d E D. unfold run, get_provisioned_product_details.
    erewrite eff_bind_ok
      by (unfold Eff.bind, Eff.perform; fold find; rewrite E; reflexivity).
    unfold describe_provisioning_artifact.
    erewrite eff_bind_ok
      by (unfold Eff.bind, Eff.perform; rewrite D; reflexivity).
    unfold write_result, Eff.emit.
    destruct (decide (pp_Status r = "TERMINATED")).
    - rewrite decide_False by (now intros N). now rewrite <- !app_assoc.
    - rewrite decide_True by done. now rewrite <- !app_assoc. }
  assert (forall r e,
            w h find = inr (Details (Some r)) ->
            w (h ++ [find])
              (DescribeProvisioningArtifact (pp_ProvisioningArtifactId r) (product_id self))
            = inl e ->
            run self w h
            = (h ++ [find;
                     DescribeProvisioningArtifact (pp_ProvisioningArtifactId r)
                       (product_id self)],
               inl e)) as Failed.
  { intros r e E D. unfold run, get_provisioned_product_details.
    erewrite eff_bind_ok
      by (unfold Eff.bind, Eff.perform; fold find; rewrite E; reflexivity).
    unfold describe_provisioning_artifact.
    erewrite eff_bind_err
      by (unfold Eff.bind, Eff.perform; rewrite D; reflexivity).
    now rewrite <- !app_assoc. }
  split; [exact Nothing|]. split.
  - intros r E describe. split; [intros e; now apply Failed|intros d; now apply Found].
  - intros h' d Run L.
    destruct (w h find) as [e|[[r|]|a]] eqn:E.
    + exfalso. revert Run. unfold run, get_provisioned_product_details.
      erewrite eff_bind_err
        by (unfold Eff.bind, Eff.perform; fold find; rewrite E; reflexivity).
      discriminate.
    + split; [|discriminate]. intros NC. exfalso.
      destruct (w (h ++ [find])
                  (DescribeProvisioningArtifact (pp_ProvisioningArtifactId r)
                     (product_id self))) as [e|[?|d']] eqn:D.
      * rewrite (Failed r e eq_refl D) in Run. discriminate.
      * revert Run. unfold run, get_provisioned_product_details.
        erewrite eff_bind_ok
          by (unfold Eff.bind, Eff.perform; fold find; rewrite E; reflexivity).
        unfold describe_provisioning_artifact.
        erewrite eff_bind_err
          by (unfold Eff.bind, Eff.perform, bad, Eff.raise; rewrite D; reflexivity).
        discriminate.
      * rewrite (Found r d' eq_refl D) in Run. injection Run as <-.
        rewrite last_app in L. cbn in L. injection L as <-.
        destruct (decide _); discriminate NC.
    + split; [done|]. intros _.
      rewrite (Nothing eq_refl) in Run. injection Run as <-.
      rewrite last_app in L. cbn in L. now injection L as <-.
    + exfalso. revert Run. unfold run, get_provisioned_product_details.
      erewrite eff_bind_err
        by (unfold Eff.bind, Eff.perform, bad, Eff.raise; fold find; rewrite E;
            reflexivity).
      discriminate.
Qed.

(** A product that is already terminated is reported as a change. *)
Lemma terminate_dry_run_report_witness :
  run TerminateDryRunExample.task (TerminateDryRunExample.found "TERMINATED") []
  = ([GetProvisionedProductDetails "prod-1" "L1";
      DescribeProvisioningArtifact "pa-1" "prod-1";
      WriteResult (diff "-" "-" "CHANGE" "The product is already terminated")],
     inr tt)
  /\ run TerminateDryRunExample.task (TerminateDryRunExample.found "AVAILABLE") []
     = ([GetProvisionedProductDetails "prod-1" "L1";
         DescribeProvisioningArtifact "pa-1" "prod-1";
         WriteResult (diff "v1" "-" "CHANGE" "The product would be terminated")],
        inr tt).
Proof.
  split.
  - exact (proj2 (proj1 (proj2 (terminate_dry_run_report TerminateDryRunExample.task
                                  (TerminateDryRunExample.found "TERMINATED") []))
                    _ eq_refl) DryRunExample.detail eq_refl).
  - exact (proj2 (proj1 (proj2 (terminate_dry_run_report TerminateDryRunExample.task
                                  (TerminateDryRunExample.found "AVAILABLE") []))
                    _ eq_refl) DryRunExample.detail eq_refl).
Defined.

End TerminateDryRunTheorems.

(** ** ProvisionProductTask: a declared output the stack does not have *)

Module MissingOutputTheorems.
Import ProvisionProductTask ProvisionFacts.

Lemma write_until_missing (self : t) (sd : StackDetails) w before b after : forall h,
  NoDup (OutputKey <$> Outputs sd) ->
  (forall b', b' ∈ before -> exists o, o ∈ Outputs sd /\ OutputKey o = stack_output b') ->
  (forall o, o ∈ Outputs sd -> OutputKey o <> stack_output b) ->
  (forall h' c, is_put c = true -> exists r, w h' c = inr r) ->
  exists puts,
    for_each (before ++ b :: after) (write_ssm_param_output self sd) w h
    = (h ++ puts, inl (no_match_error self b))
    /\ Forall2 (put_of self sd) before puts.
Proof.
  induction before as [|b0 before IH]; intros h D M N S.
  - exists []. split; [|constructor]. cbn [app for_each].
    erewrite bind_err by (now apply OutputBindingTheorems.write_no_match).
    now rewrite app_nil_r.
  - destruct (M b0) as (o & I & K); [now left|].
    pose proof (OutputBindingTheorems.put_matching_unique self b0 (Outputs sd) o w
                  false h D I K) as E.
    destruct (S h (put_call self b0 o) eq_refl) as [r R]. rewrite R in E.
    destruct (IH (h ++ [put_call self b0 o]) D) as (puts & F & A); [|done..|].
    { intros b' I'. apply M. now right. }
    exists (put_call self b0 o :: puts). split.
    + cbn [app for_each]. erewrite bind_ok; cycle 1.
      { unfold write_ssm_param_output. erewrite bind_ok by exact E. reflexivity. }
      rewrite F. now rewrite <- app_assoc.
    + constructor; [|exact A]. now exists o.
Qed.

(** X21.  In hub execution mode the declared SSM outputs are written one
    after the other and not as a whole.  When the stack has no output for a
    declared binding, the parameters of the bindings declared before it
    have already been put, those of the bindings declared after it are not
    put, and the run ends with "Could not find match for ..." without
    writing the task output. *)
Theorem publish_stops_at_missing_output (self : t) (id : pyval) (sd : StackDetails)
    (w : World) (h : list Call) (before after : list SsmParamOutput) (b : SsmParamOutput) :
  execution self = constants.EXECUTION_MODE_HUB ->
  ssm_param_outputs self = before ++ b :: after ->
  w h (GetStackOutputFor (stack_name self id)) = inr (RStack sd) ->
  NoDup (OutputKey <$> Outputs sd) ->
  (forall b', b' ∈ before -> exists o, o ∈ Outputs sd /\ OutputKey o = stack_output b') ->
  (forall o, o ∈ Outputs sd -> OutputKey o <> stack_output b) ->
  (forall h' c, is_put c = true -> exists r, w h' c = inr r) ->
  exists puts,
    publish self id w h
    = (h ++ GetStackOutputFor (stack_name self id) :: puts, inl (no_match_error self b))
    /\ Forall2 (put_of self sd) before puts.
Proof.
  intros H B G D M N S.
  destruct (write_until_missing self sd w before b after
              (h ++ [GetStackOutputFor (stack_name self id)]) D M N S) as (puts & F & A).
  exists puts. split; [|exact A].
  unfold publish. rewrite decide_True by done.
  unfold aws.get_stack_output_for.
  erewrite bind_ok by (unfold_m; rewrite G; reflexivity).
  rewrite B. erewrite bind_err by exact F. now rewrite <- app_assoc.
Qed.

(** The stack of the example has VpcId but no SubnetId: the first declared
    output is put, then the run fails. *)
Lemma publish_stops_at_missing_output_witness :
  exists puts,
    publish PublishExample.two_outputs (Some "pp-9")
      (ProvisionExample.converged "AVAILABLE" "CREATE_COMPLETE") []
    = (GetStackOutputFor "SC-111111111111-pp-9" :: puts,
       inl (Exception_ "[L1-111111111111-us-east-1] Could not find match for SubnetId"))
    /\ length puts = 1.
Proof.
  destruct (publish_stops_at_missing_output PublishExample.two_outputs (Some "pp-9")
              (ProvisionExample.stack "CREATE_COMPLETE")
              (ProvisionExample.converged "AVAILABLE" "CREATE_COMPLETE") []
              [ProvisionExample.vpc_id_output] [] ProvisionExample.subnet_output)
    as (puts & E & A).
  - reflexivity.
  - reflexivity.
  - reflexivity.
  - cbn. repeat constructor; rewrite ?elem_of_cons, ?elem_of_nil; intuition discriminate.
  - intros b' I. apply list_elem_of_singleton in I as ->.
    exists {| OutputKey := "VpcId"; OutputValue := "vpc-0abc" |}.
    split; [now left|reflexivity].
  - intros o I. cbn in I. rewrite !elem_of_cons, elem_of_nil in I.
    destruct I as [->|[->|[]]]; discriminate.
  - intros h' c P. destruct c; try discriminate. now exists RUnit.
  - exists puts. split; [exact E|].
    apply Forall2_length in A. now rewrite <- A.
Defined.

End MissingOutputTheorems.
